(** * Hybrid recipe recommender: a shallow embedding and its properties

    The development follows [recommendation_models.py] (collaborative,
    content and hybrid models), [data/data_preprocessor.py] (the sparse
    user-item matrix) and [src/train_model.py] (the evaluation sample).

    Conventions of the embedding.
    - Python floats are modelled by exact rationals [Q]: the statements are
      about the arithmetic the code writes down, not about rounding, NaN or
      infinities.
    - Identifiers (user ids, recipe ids) are Python ints, here [Z]; dense
      indices produced by the label encoder are [nat].
    - A Python exception is a value [Raise e] of the [result] type; a
      [try ... except] is [try_except].
    - Dictionaries are [gmap]s, sets are [gset]s; where Python walks a set
      in the order of its hash table, the model walks it in the order of
      [elements], which can only change the order of equally scored items.
    - The square root, whose value is not rational in general, and the
      pseudo-random generator are parameters of the sections that use them;
      [Np.sqrt_floor] is a square root to compute examples with. *)

From Stdlib Require Import QArith Qminmax Lqa.
From stdpp Require Import base option list sorting gmap sets strings.

(** * Part I. Definitions *)

(** ** Python runtime: exceptions, subscripts, slices, stable sorting *)

Module Py.

Inductive exn : Set :=
  KeyError | IndexError | ValueError | TypeError | OSError | ZeroDivisionError.

Inductive result (A : Type) : Type :=
| Ok (a : A)
| Raise (e : exn).
Global Arguments Ok {A} a.
Global Arguments Raise {A} e.

(** Statements run in sequence; the first exception ends the block. *)
Global Instance result_bind : MBind result := fun A B k r =>
  match r with
  | Ok a => k a
  | Raise e => Raise e
  end.

Global Instance result_ret : MRet result := @Ok.

(** [try: body except handled: handler]; other exceptions propagate. *)
Definition try_except {A} (body : result A) (handled : exn -> bool)
    (handler : result A) : result A :=
  match body with
  | Ok a => Ok a
  | Raise e => if handled e then handler else Raise e
  end.

(** [d[k]] on a dict. *)
Definition getitem `{Countable K} {V} (d : gmap K V) (k : K) : result V :=
  match d !! k with
  | Some v => Ok v
  | None => Raise KeyError
  end.

(** [d.get(k, default)]. *)
Definition get `{Countable K} {V} (d : gmap K V) (k : K) (default : V) : V :=
  match d !! k with
  | Some v => v
  | None => default
  end.

(** [a[i]] on a list or on the first axis of an array, for [i >= 0]. *)
Definition index {A} (a : list A) (i : nat) : result A :=
  match a !! i with
  | Some x => Ok x
  | None => Raise IndexError
  end.

(** [{k: v for k, v in pairs}]: a later pair overwrites an earlier one. *)
Definition dict_of_pairs `{Countable K} {V} (pairs : list (K * V)) : gmap K V :=
  fold_left (fun d p => <[p.1 := p.2]> d) pairs ∅.

(** [enumerate(l)], counting from [i]. *)
Fixpoint enumerate_from {A} (i : nat) (l : list A) : list (nat * A) :=
  match l with
  | [] => []
  | x :: l' => (i, x) :: enumerate_from (S i) l'
  end.

Definition enumerate {A} (l : list A) : list (nat * A) := enumerate_from 0 l.

(** Bound of a slice: a negative bound counts from the end, and every
    bound is clamped to the list. *)
Definition slice_bound (len : nat) (i : Z) : nat :=
  if (0 <=? i)%Z then Z.to_nat i else Z.to_nat (Z.of_nat len + i).

(** [l[:stop]] *)
Definition slice_to {A} (l : list A) (stop : Z) : list A :=
  take (slice_bound (length l) stop) l.

(** [l[start:stop]] *)
Definition slice {A} (l : list A) (start stop : Z) : list A :=
  drop (slice_bound (length l) start) (take (slice_bound (length l) stop) l).

(** [l.index(x)]: position of the first occurrence, [ValueError] if none. *)
Fixpoint list_index (x : Z) (l : list Z) : option nat :=
  match l with
  | [] => None
  | y :: l' => if decide (y = x) then Some 0%nat else S <$> list_index x l'
  end.

(** Stable sorting.  [l.sort(key=key, reverse=True)] keeps the original
    order of elements with equal keys; so does insertion from the right
    that stops at the first element whose key is not strictly greater. *)
Fixpoint insert_desc {A} (key : A -> Q) (x : A) (l : list A) : list A :=
  match l with
  | [] => [x]
  | y :: l' =>
      if Qle_bool (key y) (key x) then x :: y :: l'
      else y :: insert_desc key x l'
  end.

Fixpoint sort_desc {A} (key : A -> Q) (l : list A) : list A :=
  match l with
  | [] => []
  | x :: l' => insert_desc key x (sort_desc key l')
  end.

Fixpoint insert_asc {A} (key : A -> Q) (x : A) (l : list A) : list A :=
  match l with
  | [] => [x]
  | y :: l' =>
      if Qle_bool (key x) (key y) then x :: y :: l'
      else y :: insert_asc key x l'
  end.

Fixpoint sort_asc {A} (key : A -> Q) (l : list A) : list A :=
  match l with
  | [] => []
  | x :: l' => insert_asc key x (sort_asc key l')
  end.

End Py.

Import Py.

(** ** numpy: dot products, clipping, means, argsort *)

Module Np.

Local Open Scope Q_scope.

(** [np.dot(u, v)] on two 1-d arrays; shapes that differ raise [ValueError]. *)
Fixpoint dot (u v : list Q) : result Q :=
  match u, v with
  | [], [] => Ok 0
  | x :: u', y :: v' => r ← dot u' v'; Ok (x * y + r)
  | _, _ => Raise ValueError
  end.

(** [np.dot(M, v)] on a 2-d array and a 1-d array: one dot product per row. *)
Definition dot_mv (M : list (list Q)) (v : list Q) : result (list Q) :=
  mapM (fun row => dot row v) M.

(** [np.clip(x, lo, hi)] is [minimum(maximum(x, lo), hi)]. *)
Definition clip (x lo hi : Q) : Q := Qmin (Qmax x lo) hi.

Definition sum (l : list Q) : Q := foldr Qplus 0 l.

(** The sum of the products of the entries of two rows of the same length. *)
Definition inner (u v : list Q) : Q := sum (zip_with Qmult u v).

(** A square root that can be computed: exact on the square of a rational,
    rounded down in numerator and denominator otherwise. *)
Definition sqrt_floor (q : Q) : Q :=
  let r := Qred q in Z.sqrt (Qnum r) # Pos.sqrt (Qden r).

(** [a.mean()] of a 1-d array. *)
Definition mean (l : list Q) : Q := sum l / inject_Z (Z.of_nat (length l)).

(** [a.argsort()]: the indices that sort [a] in ascending order.  numpy's
    default sort is not stable and does not fix the order of the indices of
    equal values; here they stay in index order.  Only the order among equal
    values rests on this choice. *)
Definition argsort (a : list Q) : list nat :=
  (sort_asc snd (enumerate a)).*1.

End Np.

(** ** The collaborative model *)

(** The state of a [CollaborativeFilteringModel] after [fit] or after
    [load_model]: the factor arrays and the four codec dictionaries. *)
Record CollaborativeFilteringModel : Type := {
  n_factors : nat;
  user_factors : list (list Q);
  item_factors : list (list Q);
  user_idx_to_id : gmap nat Z;
  item_idx_to_id : gmap nat Z;
  user_id_to_idx : gmap Z nat;
  item_id_to_idx : gmap Z nat;
  global_mean : Q
}.

Module CF.

Local Open Scope Q_scope.

Definition key_or_index_error (e : exn) : bool :=
  match e with
  | KeyError | IndexError => true
  | _ => false
  end.

(** [CollaborativeFilteringModel.predict] *)
Definition predict (self : CollaborativeFilteringModel)
    (user_id item_id : Z) : result Q :=
  try_except
    (user_idx ← getitem (user_id_to_idx self) user_id;
     item_idx ← getitem (item_id_to_idx self) item_id;
     user_vec ← index (user_factors self) user_idx;
     item_vec ← index (item_factors self) item_idx;
     d ← Np.dot user_vec item_vec;
     Ok (Np.clip (global_mean self + d) 1 5))
    key_or_index_error
    (Ok (global_mean self)).

(** [exclude_items and item_id in exclude_items] *)
Definition excluded (exclude_items : option (gset Z)) (item_id : Z) : bool :=
  match exclude_items with
  | None => false
  | Some s => bool_decide (s ≠ ∅) && bool_decide (item_id ∈ s)
  end.

(** The loop of [recommend_items] over [enumerate(predictions)]. *)
Fixpoint collect (idx_to_id : gmap nat Z) (exclude_items : option (gset Z))
    (scored : list (nat * Q)) : result (list (Z * Q)) :=
  match scored with
  | [] => Ok []
  | (idx, score) :: rest =>
      item_id ← getitem idx_to_id idx;
      recs ← collect idx_to_id exclude_items rest;
      if excluded exclude_items item_id then Ok recs
      else Ok ((item_id, score) :: recs)
  end.

(** [CollaborativeFilteringModel.recommend_items] *)
Definition recommend_items (self : CollaborativeFilteringModel)
    (user_id : Z) (n_recommendations : Z) (exclude_items : option (gset Z))
    : result (list (Z * Q)) :=
  match user_id_to_idx self !! user_id with
  | None => Ok []
  | Some user_idx =>
      user_vector ← index (user_factors self) user_idx;
      dots ← Np.dot_mv (item_factors self) user_vector;
      let predictions := map (fun d => global_mean self + d) dots in
      recommendations ←
        collect (item_idx_to_id self) exclude_items (enumerate predictions);
      Ok (slice_to (sort_desc snd recommendations) n_recommendations)
  end.

(** The order of a ranking: the higher score first and, among equal scores,
    the lower index first. *)
Definition rank_before (a b : nat * Q) : Prop :=
  b.2 < a.2 \/ (b.2 == a.2 /\ (a.1 < b.1)%nat).

(** The pair [p] of a ranking stands for the item at index [ir.1]. *)
Definition decodes (idx_to_id : gmap nat Z) (p : Z * Q) (ir : nat * Q) : Prop :=
  idx_to_id !! ir.1 = Some p.1 /\ p.2 = ir.2.

(** The shape of a model that [fit] was given a matrix and the codec built
    with it: [fit_transform] returns one row of [n_factors] numbers per row
    of the matrix, [components_.T] one such row per column, the codec maps
    ids to rows, and every item row has an id. *)
Record fitted (self : CollaborativeFilteringModel) : Prop := {
  fitted_user_rows : Forall (fun r => length r = n_factors self) (user_factors self);
  fitted_item_rows : Forall (fun r => length r = n_factors self) (item_factors self);
  fitted_user_idx : forall u i,
    user_id_to_idx self !! u = Some i -> (i < length (user_factors self))%nat;
  fitted_item_idx : forall r i,
    item_id_to_idx self !! r = Some i -> (i < length (item_factors self))%nat;
  fitted_item_ids : forall i,
    (i < length (item_factors self))%nat -> is_Some (item_idx_to_id self !! i)
}.

End CF.

(** ** The content model *)

(** A fitted [TfidfVectorizer], as far as the recommender looks into it. *)
Record TfidfVectorizer : Type := {
  max_features : nat;
  vocabulary_ : gmap string nat;
  idf_ : list Q
}.

Record ContentBasedModel : Type := {
  tfidf_ingredients : TfidfVectorizer;
  tfidf_tags : TfidfVectorizer;
  feature_matrix : list (list Q);
  recipe_ids : list Z
}.

(** A row of the item table, with the columns [fit] reads. *)
Record Recipe : Type := {
  id : Z;
  ingredients : list string;
  tags : list string;
  n_ingredients : Q;
  n_steps : Q;
  minutes : Q;
  health_score : Q;
  calories : Q;
  protein : Q
}.

Module CB.

Local Open Scope Q_scope.

(** [X[:, j]] *)
Definition column (j : nat) (X : list (list Q)) : list Q :=
  map (fun row => nth j row 0) X.

Definition ncols (X : list (list Q)) : nat :=
  match X with
  | [] => 0%nat
  | row :: _ => length row
  end.

(** [X.mean(axis=0)] *)
Definition mean_axis0 (X : list (list Q)) : list Q :=
  map (fun j => Np.mean (column j X)) (seq 0 (ncols X)).

(** Division of two array elements.  numpy answers [inf] or [nan] on a zero
    denominator; [Q] has neither, so that case has no value here. *)
Definition true_divide (x d : Q) : option Q :=
  if Qeq_bool d 0 then None else Some (x / d).

(** The six numeric columns selected by [fit], one row per recipe. *)
Definition numerical_features (recipes_df : list Recipe) : list (list Q) :=
  map (fun r => [n_ingredients r; n_steps r; minutes r;
                 health_score r; calories r; protein r]) recipes_df.

(** [hstack] of three blocks with the same number of rows. *)
Definition hstack3 (A B C : list (list Q)) : list (list Q) :=
  zip_with app (zip_with app A B) C.

Section Normalisation.

(** [np.sqrt]; of the square root only the sign of the result is used. *)
Variable sqrtQ : Q -> Q.

(** [a.std()] of a 1-d array (population standard deviation). *)
Definition std (l : list Q) : Q :=
  sqrtQ (Np.mean (map (fun x => (x - Np.mean l) * (x - Np.mean l)) l)).

(** [X.std(axis=0)] *)
Definition std_axis0 (X : list (list Q)) : list Q :=
  map (fun j => std (column j X)) (seq 0 (ncols X)).

(** The denominators [X.std(axis=0) + 1e-8] of line 125. *)
Definition zscore_denominators (X : list (list Q)) : list Q :=
  map (fun s => s + 1e-8) (std_axis0 X).

(** [(X - X.mean(axis=0)) / (X.std(axis=0) + 1e-8)], row by row. *)
Definition zscore (X : list (list Q)) : option (list (list Q)) :=
  let mu := mean_axis0 X in
  let den := zscore_denominators X in
  mapM (M := option)
    (fun row =>
       mapM (M := option)
         (fun xmd : Q * Q * Q => true_divide (xmd.1.1 - xmd.1.2) xmd.2)
         (zip (zip row mu) den))
    X.

(** [TfidfVectorizer.fit_transform] on the token lists of one column:
    the fitted vectorizer and one row of weights per document. *)
Variable tfidf_fit_transform :
  TfidfVectorizer -> list (list string) -> result (TfidfVectorizer * list (list Q)).

(** [ContentBasedModel.fit], from a model as [__init__] leaves it.  A
    division without a value would put [inf] or [nan] into the matrix; it is
    an error here, and it does not arise. *)
Definition fit (self : ContentBasedModel) (recipes_df : list Recipe)
    : result ContentBasedModel :=
  ing ← tfidf_fit_transform (tfidf_ingredients self) (ingredients <$> recipes_df);
  tag ← tfidf_fit_transform (tfidf_tags self) (tags <$> recipes_df);
  match zscore (numerical_features recipes_df) with
  | None => Raise ValueError
  | Some numerical =>
      Ok {| tfidf_ingredients := ing.1;
            tfidf_tags := tag.1;
            feature_matrix := hstack3 ing.2 tag.2 numerical;
            recipe_ids := id <$> recipes_df |}
  end.

End Normalisation.

Section Similarity.

(** [np.sqrt], as in [Normalisation]. *)
Variable sqrtQ : Q -> Q.

(** sklearn's [normalize]: a row divided by its Euclidean norm, a zero norm
    being replaced by one. *)
Definition row_norm (v : list Q) : Q := sqrtQ (Np.inner v v).

Definition normalize (v : list Q) : list Q :=
  let norm := row_norm v in
  let norm := if Qeq_bool norm 0 then 1 else norm in
  map (fun x => x / norm) v.

(** The kernel of [sklearn.metrics.pairwise.cosine_similarity]: the product
    of the two normalized rows. *)
Definition cos (a b : list Q) : Q := Np.inner (normalize a) (normalize b).

(** [cosine_similarity(v, M).flatten()] for a single row [v]. *)
Definition cosine_similarity (v : list Q) (M : list (list Q)) : list Q :=
  map (cos v) M.

(** [ContentBasedModel.get_similar_items], for a given sorting routine
    behind [argsort]. *)
Definition get_similar_items_with (argsort : list Q -> list nat)
    (self : ContentBasedModel) (item_id : Z) (n_similar : Z)
    : result (list (Z * Q)) :=
  match list_index item_id (recipe_ids self) with
  | None => Ok []
  | Some item_idx =>
      item_vector ← index (feature_matrix self) item_idx;
      let similarities := cosine_similarity item_vector (feature_matrix self) in
      let similar_indices :=
        slice (rev (argsort similarities)) 1 (n_similar + 1) in
      mapM (fun idx =>
              rid ← index (recipe_ids self) idx;
              s ← index similarities idx;
              Ok (rid, s))
           similar_indices
  end.

(** [ContentBasedModel.get_similar_items] *)
Definition get_similar_items : ContentBasedModel -> Z -> Z -> result (list (Z * Q)) :=
  get_similar_items_with Np.argsort.

(** [ContentBasedModel.recommend_based_on_profile] *)
Definition recommend_based_on_profile (self : ContentBasedModel)
    (liked_items : list Z) (n_recommendations : Z) : result (list (Z * Q)) :=
  match liked_items with
  | [] => Ok []
  | _ =>
      let liked_indices :=
        omap (fun item_id => list_index item_id (recipe_ids self)) liked_items in
      match liked_indices with
      | [] => Ok []
      | _ =>
          rows ← mapM (index (feature_matrix self)) liked_indices;
          let user_profile := mean_axis0 rows in
          let similarities := cosine_similarity user_profile (feature_matrix self) in
          let recommendations :=
            List.filter (fun p : Z * Q => bool_decide (p.1 ∉ liked_items))
                        (zip (recipe_ids self) similarities) in
          Ok (slice_to (sort_desc snd recommendations) n_recommendations)
      end
  end.

End Similarity.

End CB.

(** ** Hybrid fusion *)

Record Interaction : Type := {
  user_id : Z;
  recipe_id : Z;
  rating : Q
}.

Record IdMappings : Type := {
  user_to_idx : gmap Z nat;
  recipe_to_idx : gmap Z nat;
  idx_to_user : gmap nat Z;
  idx_to_recipe : gmap nat Z
}.

(** [None] is Python's [None]: the two tables are only set by [fit]. *)
Record HybridRecommender : Type := {
  cf_model : CollaborativeFilteringModel;
  cb_model : ContentBasedModel;
  cf_weight : Q;
  cb_weight : Q;
  recipes_df : option (list Recipe);
  interactions_df : option (list Interaction);
  id_mappings : option IdMappings
}.

Module Hybrid.

Local Open Scope Q_scope.

(** [x > 0] *)
Definition positive (x : Q) : bool := negb (Qle_bool x 0).

(** [cf_score / 5.0 if cf_score > 0 else 0] *)
Definition cf_score_norm (cf_score : Q) : Q :=
  if positive cf_score then cf_score / 5 else 0.

(** [cb_score if cb_score > 0 else 0] *)
Definition cb_score_norm (cb_score : Q) : Q :=
  if positive cb_score then cb_score else 0.

(** The body of the loop over [all_items], lines 245 to 253. *)
Definition hybrid_score (self : HybridRecommender)
    (cf_scores cb_scores : gmap Z Q) (item_id : Z) : Q :=
  let cf_score := get cf_scores item_id 0 in
  let cb_score := get cb_scores item_id 0 in
  cf_weight self * cf_score_norm cf_score + cb_weight self * cb_score_norm cb_score.

(** The loop itself: [hybrid_scores.items()] in insertion order. *)
Definition hybrid_scores (self : HybridRecommender)
    (cf_scores cb_scores : gmap Z Q) (rated_items : gset Z)
    (all_items : list Z) : list (Z * Q) :=
  omap (fun item_id =>
          if bool_decide (item_id ∉ rated_items)
          then Some (item_id, hybrid_score self cf_scores cb_scores item_id)
          else None)
       all_items.

(** Rows of the interaction table of one user. *)
Definition user_interactions (df : list Interaction) (user : Z) : list Interaction :=
  List.filter (fun r => bool_decide (user_id r = user)) df.

Definition rated_items (df : list Interaction) (user : Z) : gset Z :=
  list_to_set (recipe_id <$> user_interactions df user).

Definition liked_items (df : list Interaction) (user : Z) : list Z :=
  recipe_id <$> List.filter (fun r => Qle_bool 4 (rating r)) (user_interactions df user).

Section Recommend.

Variable sqrtQ : Q -> Q.

(** The candidate lists requested from the two sub-models. *)
Definition cf_recs (self : HybridRecommender) (df : list Interaction)
    (user : Z) (n : Z) : result (list (Z * Q)) :=
  CF.recommend_items (cf_model self) user (n * 3) (Some (rated_items df user)).

Definition cb_recs (self : HybridRecommender) (df : list Interaction)
    (user : Z) (n : Z) : result (list (Z * Q)) :=
  CB.recommend_based_on_profile sqrtQ (cb_model self) (liked_items df user) (n * 3).

(** [HybridRecommender.recommend].  Python walks the set [all_items] in the
    order of its hash table, the model in the order of [elements]; the sort
    is stable, so the two can differ in the order of candidates with equal
    scores, and in nothing else. *)
Definition recommend (self : HybridRecommender)
    (user : Z) (n_recommendations : Z) : result (list (Z * Q)) :=
  match interactions_df self with
  | None => Raise TypeError
  | Some df =>
      cf ← cf_recs self df user n_recommendations;
      let cf_scores : gmap Z Q := dict_of_pairs cf in
      cb ← cb_recs self df user n_recommendations;
      let cb_scores : gmap Z Q := dict_of_pairs cb in
      let all_items : gset Z := dom cf_scores ∪ dom cb_scores in
      let scores :=
        hybrid_scores self cf_scores cb_scores (rated_items df user)
                      (elements all_items) in
      Ok (slice_to (sort_desc snd scores) n_recommendations)
  end.

End Recommend.

End Hybrid.

(** ** Saving and loading a snapshot *)

Module Snapshot.

(** The Python values that [save_model] puts into its dictionaries. *)
Inductive pyval : Type :=
| PFloat (x : Q)
| PInt (n : nat)
| PArray (a : list (list Q))
| PIds (l : list Z)
| PEncode (d : gmap Z nat)
| PDecode (d : gmap nat Z)
| PMappings (m : option IdMappings).

(** A file written by [pickle.dump] of a dictionary or by [joblib.dump]
    of a vectorizer.  Both libraries give back the value they were given. *)
Inductive file : Type :=
| Pickle (d : gmap string pyval)
| Joblib (v : TfidfVectorizer).

(** The directory tree, as a map from paths to files. *)
Abbreviation fs := (gmap string file).

(** [model_path / name] *)
Definition joinpath (path name : string) : string :=
  String.append path (String.append "/" name).

(** [HybridRecommender.save_model]; creating the directory is not modelled. *)
Definition save_model (self : HybridRecommender) (path : string) (disk : fs) : fs :=
  let model_data : gmap string pyval :=
    <["id_mappings" := PMappings (id_mappings self)]>
    (<["cb_weight" := PFloat (cb_weight self)]>
    (<["cf_weight" := PFloat (cf_weight self)]> ∅)) in
  let disk := <[joinpath path "model_config.pkl" := Pickle model_data]> disk in
  let cf := cf_model self in
  let cf_data : gmap string pyval :=
    <["n_factors" := PInt (n_factors cf)]>
    (<["global_mean" := PFloat (global_mean cf)]>
    (<["item_id_to_idx" := PEncode (item_id_to_idx cf)]>
    (<["user_id_to_idx" := PEncode (user_id_to_idx cf)]>
    (<["item_idx_to_id" := PDecode (item_idx_to_id cf)]>
    (<["user_idx_to_id" := PDecode (user_idx_to_id cf)]>
    (<["item_factors" := PArray (item_factors cf)]>
    (<["user_factors" := PArray (user_factors cf)]> ∅))))))) in
  let disk := <[joinpath path "cf_model.pkl" := Pickle cf_data]> disk in
  let cb := cb_model self in
  let cb_data : gmap string pyval :=
    <["feature_matrix" := PArray (feature_matrix cb)]>
    (<["recipe_ids" := PIds (recipe_ids cb)]> ∅) in
  let disk := <[joinpath path "cb_model.pkl" := Pickle cb_data]> disk in
  let disk := <[joinpath path "tfidf_ingredients.pkl" := Joblib (tfidf_ingredients cb)]> disk in
  <[joinpath path "tfidf_tags.pkl" := Joblib (tfidf_tags cb)]> disk.

(** [pickle.load(open(name, 'rb'))] *)
Definition load_pickle (disk : fs) (name : string) : result (gmap string pyval) :=
  match disk !! name with
  | None => Raise OSError
  | Some (Pickle d) => Ok d
  | Some (Joblib _) => Raise TypeError
  end.

(** [joblib.load(name)] *)
Definition load_joblib (disk : fs) (name : string) : result TfidfVectorizer :=
  match disk !! name with
  | None => Raise OSError
  | Some (Joblib v) => Ok v
  | Some (Pickle _) => Raise TypeError
  end.

(** Reading a loaded value at the type of the attribute it is assigned to.
    Python would only notice a value of another type when it is used. *)
Definition as_float (v : pyval) : result Q :=
  match v with PFloat x => Ok x | _ => Raise TypeError end.
Definition as_int (v : pyval) : result nat :=
  match v with PInt n => Ok n | _ => Raise TypeError end.
Definition as_array (v : pyval) : result (list (list Q)) :=
  match v with PArray a => Ok a | _ => Raise TypeError end.
Definition as_ids (v : pyval) : result (list Z) :=
  match v with PIds l => Ok l | _ => Raise TypeError end.
Definition as_encode (v : pyval) : result (gmap Z nat) :=
  match v with PEncode d => Ok d | _ => Raise TypeError end.
Definition as_decode (v : pyval) : result (gmap nat Z) :=
  match v with PDecode d => Ok d | _ => Raise TypeError end.

(** [model_data.get('id_mappings')] *)
Definition get_mappings (d : gmap string pyval) : result (option IdMappings) :=
  match d !! "id_mappings" with
  | None => Ok None
  | Some (PMappings m) => Ok m
  | Some _ => Raise TypeError
  end.

(** [HybridRecommender.load_model].  The attributes that [cls()] sets and
    that are not assigned afterwards keep their initial [None]. *)
Definition load_model (path : string) (disk : fs) : result HybridRecommender :=
  model_data ← load_pickle disk (joinpath path "model_config.pkl");
  cfw ← getitem model_data "cf_weight" ≫= as_float;
  cbw ← getitem model_data "cb_weight" ≫= as_float;
  mappings ← get_mappings model_data;
  cf_data ← load_pickle disk (joinpath path "cf_model.pkl");
  uf ← getitem cf_data "user_factors" ≫= as_array;
  itf ← getitem cf_data "item_factors" ≫= as_array;
  u_dec ← getitem cf_data "user_idx_to_id" ≫= as_decode;
  i_dec ← getitem cf_data "item_idx_to_id" ≫= as_decode;
  u_enc ← getitem cf_data "user_id_to_idx" ≫= as_encode;
  i_enc ← getitem cf_data "item_id_to_idx" ≫= as_encode;
  gm ← getitem cf_data "global_mean" ≫= as_float;
  nf ← getitem cf_data "n_factors" ≫= as_int;
  cb_data ← load_pickle disk (joinpath path "cb_model.pkl");
  rids ← getitem cb_data "recipe_ids" ≫= as_ids;
  fm ← getitem cb_data "feature_matrix" ≫= as_array;
  t_ing ← load_joblib disk (joinpath path "tfidf_ingredients.pkl");
  t_tag ← load_joblib disk (joinpath path "tfidf_tags.pkl");
  Ok {| cf_model := {| n_factors := nf;
                       user_factors := uf;
                       item_factors := itf;
                       user_idx_to_id := u_dec;
                       item_idx_to_id := i_dec;
                       user_id_to_idx := u_enc;
                       item_id_to_idx := i_enc;
                       global_mean := gm |};
        cb_model := {| tfidf_ingredients := t_ing;
                       tfidf_tags := t_tag;
                       feature_matrix := fm;
                       recipe_ids := rids |};
        cf_weight := cfw;
        cb_weight := cbw;
        recipes_df := None;
        interactions_df := None;
        id_mappings := mappings |}.

End Snapshot.

(** ** The sparse user-item matrix *)

Module Preprocessor.

Local Open Scope Q_scope.

(** [np.unique]: the distinct values in ascending order; these are the
    [classes_] of a fitted [LabelEncoder]. *)
Fixpoint insert_unique (x : Z) (l : list Z) : list Z :=
  match l with
  | [] => [x]
  | y :: l' =>
      if (x <? y)%Z then x :: y :: l'
      else if (x =? y)%Z then y :: l'
      else y :: insert_unique x l'
  end.

Definition unique (l : list Z) : list Z := foldr insert_unique [] l.

(** [LabelEncoder.transform]: the position of each value in [classes_]. *)
Definition transform (classes : list Z) (y : list Z) : result (list nat) :=
  mapM (fun v => match list_index v classes with
                 | Some i => Ok i
                 | None => Raise ValueError
                 end) y.

(** The index that [transform] assigns to a value of [classes_]. *)
Definition encode (classes : list Z) (v : Z) : nat :=
  default 0%nat (list_index v classes).

(** [LabelEncoder.fit_transform] *)
Definition fit_transform (y : list Z) : result (list nat) :=
  transform (unique y) y.

(** [Series.nunique()] *)
Definition nunique (l : list nat) : nat := size (list_to_set l : gset nat).

(** A sparse matrix: its shape and its stored entries. *)
Record csr_matrix : Type := {
  shape : nat * nat;
  entries : gmap (nat * nat) Q
}.

(** [M[i, j]]: an entry that is not stored is zero. *)
Definition csr_get (M : csr_matrix) (i j : nat) : Q := get (entries M) (i, j) 0.

(** One step of the conversion from coordinate format: scipy adds the
    values that arrive at the same coordinates. *)
Definition add_entry (m : gmap (nat * nat) Q) (e : nat * nat * Q) : gmap (nat * nat) Q :=
  <[e.1 := get m e.1 0 + e.2]> m.

(** [csr_matrix((data, (row, col)), shape=shape)] *)
Definition csr_of_coo (data : list Q) (row col : list nat) (shp : nat * nat)
    : result csr_matrix :=
  if forallb (fun ij : nat * nat => (ij.1 <? shp.1)%nat && (ij.2 <? shp.2)%nat)
             (zip row col)
  then Ok {| shape := shp;
             entries := fold_left add_entry (zip (zip row col) data) ∅ |}
  else Raise ValueError.

(** [DataPreprocessor.create_user_item_matrix].  Before it returns, line 222
    prints the sparsity [1 - nnz / (n_users * n_recipes)], a division of two
    Python integers that raises when the matrix has no cell. *)
Definition create_user_item_matrix (interactions_df : list Interaction)
    : result csr_matrix :=
  user_idx ← fit_transform (user_id <$> interactions_df);
  recipe_idx ← fit_transform (recipe_id <$> interactions_df);
  let n_users := nunique user_idx in
  let n_recipes := nunique recipe_idx in
  sparse_matrix ← csr_of_coo (rating <$> interactions_df) user_idx recipe_idx
                             (n_users, n_recipes);
  if (n_users * n_recipes =? 0)%nat then Raise ZeroDivisionError
  else Ok sparse_matrix.

(** The rating of the last row of the table for a pair, if there is one. *)
Definition last_rating (interactions_df : list Interaction) (u r : Z) : option Q :=
  rating <$> last (List.filter
                     (fun x => bool_decide (user_id x = u) && bool_decide (recipe_id x = r))
                     interactions_df).

(** The sum of the ratings of all rows of the table for a pair. *)
Definition rating_sum (interactions_df : list Interaction) (u r : Z) : Q :=
  Np.sum (rating <$> List.filter
                       (fun x => bool_decide (user_id x = u) && bool_decide (recipe_id x = r))
                       interactions_df).

End Preprocessor.

(** ** The evaluation sample *)

Module Eval.

(** [x[i], x[j] = x[j], x[i]]; both positions exist whenever the generator
    keeps its bound, and nothing else is ever asked of [swap]. *)
Definition swap {A} (x : list A) (i j : nat) : list A :=
  match x !! i, x !! j with
  | Some a, Some b => <[i := b]> (<[j := a]> x)
  | _, _ => x
  end.

Section Sampling.

(** The state of numpy's global generator, and a draw of an integer in
    [[0, max]] from it. *)
Variable rng : Type.
Variable random_interval : rng -> nat -> nat * rng.

(** [RandomState.shuffle]: for [i] from [n - 1] down to [1], swap
    position [i] with a position drawn from [[0, i]]. *)
Fixpoint shuffle_from {A} (i : nat) (x : list A) (s : rng) : list A * rng :=
  match i with
  | 0 => (x, s)
  | S i' =>
      let (j, s') := random_interval s i in
      shuffle_from i' (swap x i j) s'
  end.

(** [RandomState.permutation(n)] *)
Definition permutation (n : nat) (s : rng) : list nat * rng :=
  shuffle_from (n - 1) (seq 0 n) s.

(** [np.random.choice(a, size, replace=False)] *)
Definition choice (a : list Z) (size : nat) (s : rng) : result (list Z) * rng :=
  if (length a <? size)%nat then (Raise ValueError, s)
  else
    let (perm, s') := permutation (length a) s in
    (mapM (index a) (take size perm), s').

(** Users with both train and test rows, lines 63 to 65. *)
Definition common_users (test_interactions train_interactions : list Interaction)
    : list Z :=
  let test_users : gset Z := list_to_set (user_id <$> test_interactions) in
  let train_users : gset Z := list_to_set (user_id <$> train_interactions) in
  elements (test_users ∩ train_users).

(** Those of them with at least two test rows, lines 68 to 72. *)
Definition valid_test_users (test_interactions train_interactions : list Interaction)
    : list Z :=
  List.filter
    (fun u => (2 <=? length (List.filter (fun r => bool_decide (user_id r = u))
                                         test_interactions))%nat)
    (common_users test_interactions train_interactions).

(** The sampling step of [evaluate_model_comprehensive], lines 77 and 78. *)
Definition sampled_users (test_interactions train_interactions : list Interaction)
    (s : rng) : result (list Z) * rng :=
  let valid := valid_test_users test_interactions train_interactions in
  let sample_size := Nat.min 500 (length valid) in
  choice valid sample_size s.

End Sampling.

End Eval.

(** ** Concrete snapshots *)

Module Sample.

Local Open Scope Q_scope.

Definition tfidf : TfidfVectorizer :=
  {| max_features := 1000; vocabulary_ := ∅; idf_ := [] |}.

(** One user (id 1) and three items (ids 10, 20, 30) with one latent factor.
    The codec also knows item 40, at index 3, for which the factor array has
    no row: a snapshot older than its item table. *)
Definition cf : CollaborativeFilteringModel :=
  {| n_factors := 1;
     user_factors := [[3]];
     item_factors := [[2]; [-3]; [2]];
     user_idx_to_id := {[ 0%nat := 1%Z ]};
     item_idx_to_id := {[ 0%nat := 10%Z; 1%nat := 20%Z; 2%nat := 30%Z ]};
     user_id_to_idx := {[ 1%Z := 0%nat ]};
     item_id_to_idx := {[ 10%Z := 0%nat; 20%Z := 1%nat; 30%Z := 2%nat; 40%Z := 3%nat ]};
     global_mean := 3 |}.

(** The same model with a codec that matches its arrays. *)
Definition cf_fitted : CollaborativeFilteringModel :=
  {| n_factors := 1;
     user_factors := [[3]];
     item_factors := [[2]; [-3]; [2]];
     user_idx_to_id := {[ 0%nat := 1%Z ]};
     item_idx_to_id := {[ 0%nat := 10%Z; 1%nat := 20%Z; 2%nat := 30%Z ]};
     user_id_to_idx := {[ 1%Z := 0%nat ]};
     item_id_to_idx := {[ 10%Z := 0%nat; 20%Z := 1%nat; 30%Z := 2%nat ]};
     global_mean := 3 |}.

(** Two recipes with the same feature row. *)
Definition cb_twins : ContentBasedModel :=
  {| tfidf_ingredients := tfidf;
     tfidf_tags := tfidf;
     feature_matrix := [[1; 0]; [1; 0]];
     recipe_ids := [10%Z; 20%Z] |}.

Definition cb : ContentBasedModel :=
  {| tfidf_ingredients := tfidf;
     tfidf_tags := tfidf;
     feature_matrix := [[1; 0]; [0; 1]; [3; 4]];
     recipe_ids := [10%Z; 20%Z; 30%Z] |}.

(** The recipes user 1 has rated. *)
Definition rated : gset Z := {[ 30%Z ]}.

(** User 1 has rated recipe 30 with three stars and nothing else. *)
Definition interactions : list Interaction :=
  [ {| user_id := 1; recipe_id := 30; rating := 3 |} ].

(** A recommender with the default weights of [__init__]. *)
Definition recommender : HybridRecommender :=
  {| cf_model := cf_fitted;
     cb_model := cb;
     cf_weight := 0.6;
     cb_weight := 0.4;
     recipes_df := None;
     interactions_df := Some interactions;
     id_mappings := None |}.

(** [HybridRecommender(cf_weight=0.5, cb_weight=0.25)] on the same data. *)
Definition recommender_half : HybridRecommender :=
  {| cf_model := cf_fitted;
     cb_model := cb;
     cf_weight := 0.5;
     cb_weight := 0.25;
     recipes_df := None;
     interactions_df := Some interactions;
     id_mappings := None |}.

(** Two ratings of the same recipe by the same user, and one other row. *)
Definition repeated : list Interaction :=
  [ {| user_id := 1; recipe_id := 30; rating := 3 |};
    {| user_id := 1; recipe_id := 30; rating := 4 |};
    {| user_id := 0; recipe_id := 7; rating := 5 |} ].

Definition recipes : list Recipe :=
  [ {| id := 10; ingredients := ["flour"; "egg"]; tags := ["quick"];
       n_ingredients := 2; n_steps := 3; minutes := 20;
       health_score := 50; calories := 300; protein := 10 |};
    {| id := 20; ingredients := ["rice"]; tags := ["vegan"];
       n_ingredients := 1; n_steps := 3; minutes := 45;
       health_score := 70; calories := 200; protein := 4 |} ].

(** A linear congruential generator standing for numpy's: its state is a
    number, and a draw from [[0, max]] is the next state reduced modulo
    [max + 1]. *)
Definition lcg (s : N) (max : nat) : nat * N :=
  let s' := ((s * 1103515245 + 12345) mod 2147483648)%N in
  (N.to_nat (s' mod N.of_nat (S max)), s').

(** One row for each of the users [1 .. k]. *)
Definition one_row_each (k : nat) : list Interaction :=
  (fun u => {| user_id := Z.of_nat u; recipe_id := 1; rating := 5 |}) <$> seq 1 k.

End Sample.

(** ** Ranking metrics of the evaluation harness *)

Module Metrics.

Local Open Scope Q_scope.

(** Python's [x / d]: a zero divisor raises [ZeroDivisionError], which is
    [None] here. *)
Definition divide (x d : Q) : option Q :=
  if Qeq_bool d 0 then None else Some (x / d).

(** The loop of [calculate_map_at_k] over [enumerate(recommendations[:k])],
    from given values of [num_hits] and [score]. *)
Fixpoint map_loop (relevant_items : gset Z) (recs : list (nat * (Z * Q)))
    (num_hits score : Q) : Q :=
  match recs with
  | [] => score
  | (i, (item_id, _)) :: rest =>
      if bool_decide (item_id ∈ relevant_items) then
        let num_hits := num_hits + 1 in
        map_loop relevant_items rest num_hits
                 (score + num_hits / (inject_Z (Z.of_nat i) + 1))
      else map_loop relevant_items rest num_hits score
  end.

(** [calculate_map_at_k] *)
Definition calculate_map_at_k (recommendations : list (Z * Q))
    (relevant_items : gset Z) (k : Z) : option Q :=
  if bool_decide (relevant_items = ∅) then Some 0
  else
    let score := map_loop relevant_items (enumerate (slice_to recommendations k)) 0 0 in
    divide score (inject_Z (Z.min (Z.of_nat (size relevant_items)) k)).

(** [len(set(recommended_items) & set(relevant_items))] *)
Definition hits (recommendations : list (Z * Q)) (relevant_items : gset Z) (k : Z) : nat :=
  let recommended_items := (slice_to recommendations k).*1 in
  size ((list_to_set recommended_items : gset Z) ∩ relevant_items).

(** [calculate_precision_at_k] *)
Definition calculate_precision_at_k (recommendations : list (Z * Q))
    (relevant_items : gset Z) (k : Z) : option Q :=
  match recommendations with
  | [] => Some 0
  | _ => divide (inject_Z (Z.of_nat (hits recommendations relevant_items k))) (inject_Z k)
  end.

(** [calculate_recall_at_k] *)
Definition calculate_recall_at_k (recommendations : list (Z * Q))
    (relevant_items : gset Z) (k : Z) : option Q :=
  if bool_decide (relevant_items = ∅) then Some 0
  else divide (inject_Z (Z.of_nat (hits recommendations relevant_items k)))
              (inject_Z (Z.of_nat (size relevant_items))).

End Metrics.

(** ** Cleaning the raw tables *)

Module Cleaning.

Local Open Scope Q_scope.

(** A row of [RAW_recipes.csv].  A list column holds the list that
    [ast.literal_eval] reads from the cell, or [None] for a cell that is
    missing, blank or does not parse. *)
Record RawRecipe : Type := {
  raw_id : Z;
  raw_minutes : Q;
  raw_ingredients : option (list string);
  raw_tags : option (list string);
  raw_steps : option (list string);
  raw_nutrition : option (list Q)
}.

(** [DataPreprocessor.parse_list_column] *)
Definition parse_list_column {A} (value : option (list A)) : list A :=
  default [] value.

(** [float(x[i]) if len(x) > i else 0], the body of the loop over
    [nutrition_cols]. *)
Definition nutrition_value (x : list Q) (i : nat) : Q := default 0 (x !! i).

Inductive time_label : Set := very_quick | quick | medium | long | very_long.

(** [pd.cut(minutes, bins=[0, 20, 45, 90, 1440, inf], labels=...)]: the bins
    are open on the left and closed on the right; a value in no bin has no
    label ([NaN]). *)
Definition time_category (minutes : Q) : option time_label :=
  if Qle_bool minutes 0 then None
  else if Qle_bool minutes 20 then Some very_quick
  else if Qle_bool minutes 45 then Some quick
  else if Qle_bool minutes 90 then Some medium
  else if Qle_bool minutes 1440 then Some long
  else Some very_long.

(** [DataPreprocessor._calculate_health_score], for one row. *)
Definition calculate_health_score (calories total_fat sugar protein : Q) : Q :=
  let calorie_score := 100 - Np.clip calories 0 1000 / 10 in
  let fat_score := 100 - Np.clip total_fat 0 100 in
  let sugar_score := 100 - Np.clip sugar 0 100 in
  let protein_score := Np.clip protein 0 100 in
  let health_score :=
    calorie_score * 0.3 + fat_score * 0.2 + sugar_score * 0.2 + protein_score * 0.3 in
  Np.clip health_score 0 100.

(** The columns that [preprocess_recipes] derives for one row, lines 80 to
    115; of the seven nutrition columns the record keeps the two that the
    models read. *)
Definition derive_columns (r : RawRecipe) : Recipe :=
  let ingredients := parse_list_column (raw_ingredients r) in
  let tags := parse_list_column (raw_tags r) in
  let steps := parse_list_column (raw_steps r) in
  let nutrition := parse_list_column (raw_nutrition r) in
  {| id := raw_id r;
     ingredients := ingredients;
     tags := tags;
     n_ingredients := inject_Z (Z.of_nat (length ingredients));
     n_steps := inject_Z (Z.of_nat (length steps));
     minutes := raw_minutes r;
     health_score :=
       calculate_health_score (nutrition_value nutrition 0) (nutrition_value nutrition 1)
                              (nutrition_value nutrition 2) (nutrition_value nutrition 4);
     calories := nutrition_value nutrition 0;
     protein := nutrition_value nutrition 4 |}.

Definition Qlt_bool (x y : Q) : bool := negb (Qle_bool y x).

(** The row filter of lines 118 to 123. *)
Definition valid_recipe (r : Recipe) : bool :=
  Qlt_bool 0 (n_ingredients r) && Qlt_bool 0 (n_steps r)
  && Qlt_bool 0 (minutes r) && Qlt_bool (minutes r) 1440.

(** [DataPreprocessor.preprocess_recipes] *)
Definition preprocess_recipes (recipes_df : list RawRecipe)
    (interactions_df : list Interaction) : list Recipe :=
  let recipes_df := derive_columns <$> recipes_df in
  let recipes_df := List.filter valid_recipe recipes_df in
  let interacted_recipes : gset Z := list_to_set (recipe_id <$> interactions_df) in
  List.filter (fun r => bool_decide (id r ∈ interacted_recipes)) recipes_df.

(** [DataPreprocessor.preprocess_interactions], without the date columns. *)
Definition preprocess_interactions (recipes_df : list Recipe)
    (interactions_df : list Interaction) : list Interaction :=
  let interactions_df :=
    List.filter (fun x => Qle_bool 1 (rating x) && Qle_bool (rating x) 5) interactions_df in
  let valid_recipes : gset Z := list_to_set (id <$> recipes_df) in
  List.filter (fun x => bool_decide (recipe_id x ∈ valid_recipes)) interactions_df.

Inductive season : Set := spring | summer | autumn | winter.

(** [DataPreprocessor._get_season] *)
Definition get_season (month : Z) : season :=
  if bool_decide (month ∈ [3; 4; 5]%Z) then spring
  else if bool_decide (month ∈ [6; 7; 8]%Z) then summer
  else if bool_decide (month ∈ [9; 10; 11]%Z) then autumn
  else winter.

(** [Series.value_counts()]: the distinct values with the number of their
    occurrences, most frequent first.  pandas does not fix the order of
    values that occur equally often; here they keep the order of the table. *)
Definition value_counts (l : list Z) : list (Z * nat) :=
  sort_desc (fun p : Z * nat => inject_Z (Z.of_nat p.2))
            ((fun v => (v, length (List.filter (Z.eqb v) l))) <$> remove_dups l).

(** [DataPreprocessor.load_data], from the rows of the two files, both of
    which are found. *)
Definition load_data (recipes_csv : list RawRecipe) (interactions_csv : list Interaction)
    (max_recipes min_interactions_per_user : nat) : list RawRecipe * list Interaction :=
  let recipes_df := take max_recipes recipes_csv in
  let recipe_ids : gset Z := list_to_set (raw_id <$> recipes_df) in
  let temp_interactions :=
    List.filter (fun x => bool_decide (recipe_id x ∈ recipe_ids)) interactions_csv in
  let user_counts := value_counts (user_id <$> temp_interactions) in
  let active_users :=
    (List.filter (fun p : Z * nat => (min_interactions_per_user <=? p.2)%nat) user_counts).*1 in
  let top_users : gset Z := list_to_set (slice_to user_counts 10000).*1 in
  (recipes_df,
   List.filter (fun x => bool_decide (user_id x ∈ top_users)) temp_interactions).

(** The four dictionaries of [id_mappings.pkl], lines 242 to 251 of
    [save_processed_data]; the two encoders are the ones that
    [create_user_item_matrix] has fitted on the table. *)
Definition id_mappings (interactions_df : list Interaction) : result IdMappings :=
  let user_classes := Preprocessor.unique (user_id <$> interactions_df) in
  let recipe_classes := Preprocessor.unique (recipe_id <$> interactions_df) in
  user_idx ← Preprocessor.transform user_classes user_classes;
  recipe_idx ← Preprocessor.transform recipe_classes recipe_classes;
  let user_mapping := zip user_classes user_idx in
  let recipe_mapping := zip recipe_classes recipe_idx in
  Ok {| user_to_idx := dict_of_pairs user_mapping;
        recipe_to_idx := dict_of_pairs recipe_mapping;
        idx_to_user := dict_of_pairs (prod_swap <$> user_mapping);
        idx_to_recipe := dict_of_pairs (prod_swap <$> recipe_mapping) |}.

End Cleaning.

(** ** The split into train and test rows *)

Module Split.

(** [int(n * 0.8)]: the product is rounded to a double and truncated, which
    is the integer part of [4 n / 5] for every length a table can have. *)
Definition split_point (n : nat) : nat := (4 * n / 5)%nat.

Section Shuffled.

(** [user_data.sample(frac=1, random_state=42)] *)
Variable sample : list Interaction -> list Interaction.

(** Users with ten rows or more, lines 222 and 223. *)
Definition users_with_enough_data (interactions_df : list Interaction) : list Z :=
  (List.filter (fun p : Z * nat => (10 <=? p.2)%nat)
               (Cleaning.value_counts (user_id <$> interactions_df))).*1.

Definition user_data (df : list Interaction) (user : Z) : list Interaction :=
  List.filter (fun x => bool_decide (user_id x = user)) df.

(** Lines 228 to 247 of [main]: the train rows and the test rows. *)
Definition train_test (interactions_df : list Interaction)
    : list Interaction * list Interaction :=
  let users := users_with_enough_data interactions_df in
  let filtered_interactions :=
    List.filter (fun x => bool_decide (user_id x ∈ users)) interactions_df in
  let parts :=
    (fun user =>
       let user_data_shuffled := sample (user_data filtered_interactions user) in
       let split_point := split_point (length user_data_shuffled) in
       (take split_point user_data_shuffled, drop split_point user_data_shuffled))
      <$> users in
  (concat parts.*1, concat parts.*2).

End Shuffled.

End Split.

(** ** Small raw tables *)

Module RawSample.

Local Open Scope Q_scope.

(** A complete row, a row without a nutrition cell, and a row that takes
    longer than a day. *)
Definition stew : Cleaning.RawRecipe :=
  {| Cleaning.raw_id := 10; Cleaning.raw_minutes := 30;
     Cleaning.raw_ingredients := Some ["beef"; "onion"]%string;
     Cleaning.raw_tags := Some ["dinner"]%string;
     Cleaning.raw_steps := Some ["brown"; "simmer"]%string;
     Cleaning.raw_nutrition := Some [200; 10; 5; 3; 20; 4; 6] |}.

Definition salad : Cleaning.RawRecipe :=
  {| Cleaning.raw_id := 20; Cleaning.raw_minutes := 10;
     Cleaning.raw_ingredients := Some ["lettuce"]%string;
     Cleaning.raw_tags := None;
     Cleaning.raw_steps := Some ["toss"]%string;
     Cleaning.raw_nutrition := None |}.

Definition cured_ham : Cleaning.RawRecipe :=
  {| Cleaning.raw_id := 30; Cleaning.raw_minutes := 2000;
     Cleaning.raw_ingredients := Some ["pork"; "salt"]%string;
     Cleaning.raw_tags := Some ["preserving"]%string;
     Cleaning.raw_steps := Some ["salt"; "hang"]%string;
     Cleaning.raw_nutrition := Some [900; 60; 0; 90; 50; 70; 0] |}.

Definition raw_recipes : list Cleaning.RawRecipe := [stew; salad; cured_ham].

(** Four rows of the interaction file; the second one has the rating 0. *)
Definition raw_interactions : list Interaction :=
  [ {| user_id := 1; recipe_id := 10; rating := 5 |};
    {| user_id := 1; recipe_id := 20; rating := 0 |};
    {| user_id := 2; recipe_id := 20; rating := 4 |};
    {| user_id := 3; recipe_id := 30; rating := 5 |} ].

(** A user with ten rows and a user with one row. *)
Definition ten_and_one : list Interaction :=
  ((fun r => {| user_id := 7; recipe_id := Z.of_nat r; rating := 4 |}) <$> seq 0 10)
  ++ [ {| user_id := 8; recipe_id := 3; rating := 5 |} ].

End RawSample.

(** * Part II. Properties *)

(** ** Python and numpy helpers *)

Section Helpers.

Local Open Scope Q_scope.

Lemma bind_Ok {A B} (a : A) (k : A -> result B) : (Ok a ≫= k) = k a.
Proof. reflexivity. Qed.

Lemma bind_Raise {A B} (e : exn) (k : A -> result B) : (Raise e ≫= k) = Raise e.
Proof. reflexivity. Qed.

Lemma bind_Ok_inv {A B} (r : result A) (k : A -> result B) (b : B) :
  (r ≫= k) = Ok b -> exists a, r = Ok a /\ k a = Ok b.
Proof. destruct r as [a|e]; [eauto | discriminate]. Qed.

Lemma dot_inner (u v : list Q) :
  length u = length v -> Np.dot u v = Ok (Np.inner u v).
Proof.
  revert v; induction u as [|x u IH]; intros [|y v] Hlen; try discriminate.
  - reflexivity.
  - injection Hlen as Hlen. cbn [Np.dot]. rewrite (IH v Hlen). reflexivity.
Qed.

Lemma clip_bounds (x lo hi : Q) : lo <= hi -> lo <= Np.clip x lo hi <= hi.
Proof.
  intros Hle. unfold Np.clip. split.
  - apply Q.min_glb; [apply Q.le_max_r | exact Hle].
  - apply Q.le_min_r.
Qed.

Lemma getitem_Some `{Countable K} {V} (d : gmap K V) (k : K) (v : V) :
  d !! k = Some v -> getitem d k = Ok v.
Proof. unfold getitem. intros ->. reflexivity. Qed.

Lemma index_Some {A} (a : list A) (i : nat) (x : A) :
  a !! i = Some x -> index a i = Ok x.
Proof. unfold index. intros ->. reflexivity. Qed.

Lemma index_None {A} (a : list A) (i : nat) :
  a !! i = None -> index a i = Raise IndexError.
Proof. unfold index. intros ->. reflexivity. Qed.

End Helpers.

(** ** Collaborative model: single predictions *)

Section Predict.

Local Open Scope Q_scope.

(** C3. For a user and an item that the codec knows, whose indices address
    rows of the factor arrays (rows of one length, as [fit] produces them),
    [predict] returns the global mean plus the product of the two rows,
    clipped to the rating scale; the value lies between 1 and 5. *)
Theorem predict_known_pair (self : CollaborativeFilteringModel)
    (user item : Z) (user_idx item_idx : nat) (user_vec item_vec : list Q) :
  user_id_to_idx self !! user = Some user_idx ->
  item_id_to_idx self !! item = Some item_idx ->
  user_factors self !! user_idx = Some user_vec ->
  item_factors self !! item_idx = Some item_vec ->
  length user_vec = length item_vec ->
  CF.predict self user item
    = Ok (Np.clip (global_mean self + Np.inner user_vec item_vec) 1 5)
  /\ 1 <= Np.clip (global_mean self + Np.inner user_vec item_vec) 1 5 <= 5.
Proof.
  intros Hu Hi Hurow Hirow Hlen. split.
  - unfold CF.predict.
    rewrite (getitem_Some _ _ _ Hu), bind_Ok.
    rewrite (getitem_Some _ _ _ Hi), bind_Ok.
    rewrite (index_Some _ _ _ Hurow), bind_Ok.
    rewrite (index_Some _ _ _ Hirow), bind_Ok.
    rewrite (dot_inner _ _ Hlen), bind_Ok.
    reflexivity.
  - apply clip_bounds. discriminate.
Qed.

Lemma predict_known_pair_witness :
  user_id_to_idx Sample.cf !! 1%Z = Some 0%nat
  /\ item_id_to_idx Sample.cf !! 20%Z = Some 1%nat
  /\ user_factors Sample.cf !! 0%nat = Some [3]
  /\ item_factors Sample.cf !! 1%nat = Some [-3]
  /\ length [3] = length [-3]
  /\ CF.predict Sample.cf 1 20 = Ok (Np.clip (3 + Np.inner [3] [-3]) 1 5)
  /\ 1 <= Np.clip (3 + Np.inner [3] [-3]) 1 5 <= 5.
Proof.
  do 5 (split; [reflexivity|]).
  apply (predict_known_pair Sample.cf 1 20 0 1 [3] [-3]); reflexivity.
Defined.

(** C7, as stated, fails: item 40 is known to the codec of [Sample.cf], its
    index 3 is outside the item factor array, and [predict] answers with the
    global mean instead of raising. *)
Lemma predict_stale_index_not_rejected :
  user_id_to_idx Sample.cf !! 1%Z = Some 0%nat
  /\ item_id_to_idx Sample.cf !! 40%Z = Some 3%nat
  /\ item_factors Sample.cf !! 3%nat = None
  /\ CF.predict Sample.cf 1 40 = Ok (global_mean Sample.cf)
  /\ ~ (exists e, CF.predict Sample.cf 1 40 = Raise e).
Proof.
  repeat split; try reflexivity.
  intros [e He]. vm_compute in He. discriminate He.
Qed.

(** C7, amended. When both ids are known to the codec and one of the two
    decoded indices is outside its factor array, the [IndexError] is caught
    and [predict] returns the global mean. *)
Theorem predict_stale_index_fallback (self : CollaborativeFilteringModel)
    (user item : Z) (user_idx item_idx : nat) :
  user_id_to_idx self !! user = Some user_idx ->
  item_id_to_idx self !! item = Some item_idx ->
  user_factors self !! user_idx = None \/ item_factors self !! item_idx = None ->
  CF.predict self user item = Ok (global_mean self).
Proof.
  intros Hu Hi Hout. unfold CF.predict.
  rewrite (getitem_Some _ _ _ Hu), bind_Ok.
  rewrite (getitem_Some _ _ _ Hi), bind_Ok.
  destruct (user_factors self !! user_idx) as [user_vec|] eqn:Hurow.
  - destruct Hout as [Hout|Hout]; [discriminate|].
    rewrite (index_Some _ _ _ Hurow), bind_Ok.
    rewrite (index_None _ _ Hout). reflexivity.
  - rewrite (index_None _ _ Hurow). reflexivity.
Qed.

Lemma predict_stale_index_fallback_witness :
  user_id_to_idx Sample.cf !! 1%Z = Some 0%nat
  /\ item_id_to_idx Sample.cf !! 40%Z = Some 3%nat
  /\ item_factors Sample.cf !! 3%nat = None
  /\ CF.predict Sample.cf 1 40 = Ok (global_mean Sample.cf).
Proof.
  do 3 (split; [reflexivity|]).
  apply (predict_stale_index_fallback Sample.cf 1 40 0 3);
    [reflexivity | reflexivity | right; reflexivity].
Defined.

End Predict.

(** ** Slices and stable sorting *)

Section Sorting.

Local Open Scope Q_scope.

Lemma slice_bound_nonneg (len : nat) (n : Z) :
  (0 <= n)%Z -> slice_bound len n = Z.to_nat n.
Proof.
  intros Hn. unfold slice_bound.
  destruct (Z.leb_spec 0 n) as [_|Hneg]; [reflexivity | lia].
Qed.

Lemma slice_to_length {A} (l : list A) (n : Z) :
  (0 <= n)%Z -> (Z.of_nat (length (slice_to l n)) <= n)%Z.
Proof.
  intros Hn. unfold slice_to.
  rewrite slice_bound_nonneg by exact Hn. rewrite length_take. lia.
Qed.

Lemma slice_to_sublist {A} (l : list A) (n : Z) : slice_to l n `sublist_of` l.
Proof. apply sublist_take. Qed.

Lemma insert_desc_perm {A} (key : A -> Q) (x : A) (l : list A) :
  insert_desc key x l ≡ₚ x :: l.
Proof.
  induction l as [|y l IH]; cbn [insert_desc]; [reflexivity|].
  destruct (Qle_bool (key y) (key x)); [reflexivity|].
  rewrite IH. apply Permutation_swap.
Qed.

Lemma sort_desc_perm {A} (key : A -> Q) (l : list A) : sort_desc key l ≡ₚ l.
Proof.
  induction l as [|x l IH]; cbn [sort_desc]; [reflexivity|].
  rewrite insert_desc_perm, IH. reflexivity.
Qed.

Lemma sort_desc_elem_of {A} (key : A -> Q) (l : list A) (x : A) :
  x ∈ sort_desc key l <-> x ∈ l.
Proof. rewrite (sort_desc_perm key l). reflexivity. Qed.

Lemma rank_before_head (x y : nat * Q) (l : list (nat * Q)) :
  Qle_bool y.2 x.2 = true ->
  Forall (CF.rank_before y) l ->
  Forall (fun z => (x.1 < z.1)%nat) (y :: l) ->
  Forall (CF.rank_before x) (y :: l).
Proof.
  intros Hyx Hy Hidx. apply Qle_bool_iff in Hyx.
  rewrite !Forall_forall in *. intros z Hz.
  assert (Hzx : z.2 <= x.2).
  { apply elem_of_cons in Hz as [->|Hz]; [exact Hyx|].
    destruct (Hy z Hz) as [Hlt|[Heq _]].
    - apply Qlt_le_weak. eapply Qlt_le_trans; eauto.
    - rewrite Heq. exact Hyx. }
  unfold CF.rank_before.
  destruct (Qlt_le_dec z.2 x.2) as [Hlt|Hge]; [left; exact Hlt|].
  right. split; [apply Qle_antisym; assumption | apply Hidx, Hz].
Qed.

Lemma insert_desc_ranked (x : nat * Q) (l : list (nat * Q)) :
  StronglySorted CF.rank_before l ->
  Forall (fun z => (x.1 < z.1)%nat) l ->
  StronglySorted CF.rank_before (insert_desc snd x l).
Proof.
  induction l as [|y l IH]; intros Hs Hidx; cbn [insert_desc].
  - repeat constructor.
  - apply StronglySorted_cons in Hs as [Hy Hs].
    destruct (Qle_bool y.2 x.2) eqn:Hyx.
    + apply StronglySorted_cons. split.
      * apply rank_before_head; assumption.
      * apply StronglySorted_cons. split; assumption.
    + apply StronglySorted_cons. split.
      * rewrite (insert_desc_perm snd x l). constructor; [|exact Hy].
        left. apply Qnot_le_lt. intros Hle.
        apply Qle_bool_iff in Hle. congruence.
      * apply IH; [exact Hs|]. by apply Forall_cons in Hidx as [_ ?].
Qed.

(** Sorting a list whose indices ascend yields a ranking: this is where the
    stability of the sort breaks ties by index. *)
Lemma sort_desc_ranked (l : list (nat * Q)) :
  StronglySorted (fun a b => (a.1 < b.1)%nat) l ->
  StronglySorted CF.rank_before (sort_desc snd l).
Proof.
  induction l as [|x l IH]; intros Hs; cbn [sort_desc].
  - constructor.
  - apply StronglySorted_cons in Hs as [Hx Hs].
    apply insert_desc_ranked; [apply IH, Hs|].
    rewrite (sort_desc_perm snd l). exact Hx.
Qed.

Lemma insert_desc_Forall2 {A B} (P : A -> B -> Prop) (ka : A -> Q) (kb : B -> Q)
    (a : A) (b : B) (l : list A) (k : list B) :
  (forall a b, P a b -> ka a = kb b) ->
  P a b -> Forall2 P l k ->
  Forall2 P (insert_desc ka a l) (insert_desc kb b k).
Proof.
  intros Hkey Hab Hlk. induction Hlk as [|a' b' l k Hab' Hlk IH]; cbn [insert_desc].
  - repeat constructor. exact Hab.
  - rewrite (Hkey _ _ Hab), (Hkey _ _ Hab').
    destruct (Qle_bool (kb b') (kb b)); repeat constructor; assumption.
Qed.

Lemma sort_desc_Forall2 {A B} (P : A -> B -> Prop) (ka : A -> Q) (kb : B -> Q)
    (l : list A) (k : list B) :
  (forall a b, P a b -> ka a = kb b) ->
  Forall2 P l k -> Forall2 P (sort_desc ka l) (sort_desc kb k).
Proof.
  intros Hkey Hlk. induction Hlk; cbn [sort_desc]; [constructor|].
  apply insert_desc_Forall2; assumption.
Qed.

Lemma StronglySorted_sublist_of {A} (R : A -> A -> Prop) (l k : list A) :
  l `sublist_of` k -> StronglySorted R k -> StronglySorted R l.
Proof.
  induction 1 as [|x l k Hsub IH|x l k Hsub IH]; intros Hs.
  - constructor.
  - apply StronglySorted_cons in Hs as [Hx Hs].
    apply StronglySorted_cons. split; [|auto].
    rewrite Forall_forall in *. intros y Hy. apply Hx.
    eapply elem_of_sublist; eauto.
  - apply StronglySorted_cons in Hs as [_ Hs]. auto.
Qed.

Lemma enumerate_from_fst {A} (i : nat) (l : list A) :
  (enumerate_from i l).*1 = seq i (length l).
Proof.
  revert i; induction l as [|x l IH]; intros i; cbn; [reflexivity|].
  by rewrite IH.
Qed.

Lemma enumerate_from_ascending {A} (i : nat) (l : list A) :
  StronglySorted (fun a b : nat * A => (a.1 < b.1)%nat) (enumerate_from i l).
Proof.
  revert i; induction l as [|x l IH]; intros i; cbn [enumerate_from].
  - constructor.
  - apply StronglySorted_cons. split; [|apply IH].
    rewrite Forall_forall. intros [j y] Hj. cbn.
    assert (Hin : j ∈ (enumerate_from (S i) l).*1).
    { apply list_elem_of_fmap. exists (j, y). split; [reflexivity | exact Hj]. }
    rewrite enumerate_from_fst in Hin. apply elem_of_seq in Hin. lia.
Qed.

End Sorting.

(** ** Collaborative model: rankings *)

Section Ranking.

Local Open Scope Q_scope.

Lemma excluded_false (exclude_items : option (gset Z)) (s : gset Z) (item_id : Z) :
  CF.excluded exclude_items item_id = false ->
  exclude_items = Some s -> item_id ∉ s.
Proof.
  intros Hex ->. cbn in Hex. intros Hin.
  apply andb_false_iff in Hex as [Hex|Hex]; apply bool_decide_eq_false in Hex.
  - apply Hex. set_solver.
  - contradiction.
Qed.

(** The loop keeps a subsequence of the scored indices, decodes each kept
    index, and keeps no excluded item. *)
Lemma collect_Ok (idx_to_id : gmap nat Z) (exclude_items : option (gset Z))
    (scored : list (nat * Q)) (recs : list (Z * Q)) :
  CF.collect idx_to_id exclude_items scored = Ok recs ->
  exists kept,
    kept `sublist_of` scored
    /\ Forall2 (CF.decodes idx_to_id) recs kept
    /\ Forall (fun p => CF.excluded exclude_items p.1 = false) recs.
Proof.
  revert recs; induction scored as [|[idx score] scored IH]; intros recs Hc.
  - injection Hc as <-. exists []. repeat constructor.
  - cbn [CF.collect] in Hc.
    apply bind_Ok_inv in Hc as (item_id & Hid & Hc).
    apply bind_Ok_inv in Hc as (rest & Hrest & Hc).
    destruct (IH rest Hrest) as (kept & Hsub & Hdec & Hex).
    unfold getitem in Hid.
    destruct (idx_to_id !! idx) as [item_id'|] eqn:Hlook; [|discriminate].
    injection Hid as ->.
    destruct (CF.excluded exclude_items item_id) eqn:Hexcl; injection Hc as <-.
    + exists kept. split; [by apply sublist_cons | by split].
    + exists ((idx, score) :: kept). split; [by apply sublist_skip|]. split.
      * constructor; [by split | exact Hdec].
      * constructor; [exact Hexcl | exact Hex].
Qed.

Lemma collect_total (idx_to_id : gmap nat Z) (exclude_items : option (gset Z))
    (scored : list (nat * Q)) :
  Forall (fun ir => is_Some (idx_to_id !! ir.1)) scored ->
  exists recs, CF.collect idx_to_id exclude_items scored = Ok recs.
Proof.
  induction 1 as [|[idx score] scored [item_id Hid] _ [rest IH]].
  - by exists [].
  - cbn [CF.collect]. cbn in Hid.
    rewrite (getitem_Some _ _ _ Hid), bind_Ok, IH, bind_Ok.
    destruct (CF.excluded exclude_items item_id); eauto.
Qed.

Lemma dot_mv_total (M : list (list Q)) (v : list Q) :
  Forall (fun row => length row = length v) M ->
  exists dots, Np.dot_mv M v = Ok dots /\ length dots = length M.
Proof.
  induction 1 as [|row M Hrow _ (dots & IH & Hlen)].
  - by exists [].
  - exists (Np.inner row v :: dots). unfold Np.dot_mv in *. cbn [mapM].
    rewrite (dot_inner _ _ Hrow), bind_Ok, IH. split; [reflexivity|].
    cbn. by rewrite Hlen.
Qed.

Lemma enumerate_indices {A} (l : list A) (ir : nat * A) :
  ir ∈ enumerate l -> (ir.1 < length l)%nat.
Proof.
  intros Hin.
  assert (Hfst : ir.1 ∈ (enumerate l).*1).
  { apply list_elem_of_fmap. by exists ir. }
  unfold enumerate in Hfst. rewrite enumerate_from_fst in Hfst.
  apply elem_of_seq in Hfst. lia.
Qed.

Lemma rank_before_le (a b : nat * Q) : CF.rank_before a b -> b.2 <= a.2.
Proof.
  intros [Hlt|[Heq _]]; [by apply Qlt_le_weak | rewrite Heq; apply Qle_refl].
Qed.

(** A ranking lists its scores in non-increasing order. *)
Lemma ranking_scores_descending (idx_to_id : gmap nat Z)
    (recs : list (Z * Q)) (ranked : list (nat * Q)) :
  Forall2 (CF.decodes idx_to_id) recs ranked ->
  StronglySorted CF.rank_before ranked ->
  StronglySorted (fun p q : Z * Q => q.2 <= p.2) recs.
Proof.
  induction 1 as [|p ir recs ranked [_ Hscore] Hdec IH]; intros Hs; [constructor|].
  apply StronglySorted_cons in Hs as [Hir Hs].
  apply StronglySorted_cons. split; [|by apply IH].
  clear IH Hs. induction Hdec as [|q jr recs ranked [_ Hq] _ IH]; [constructor|].
  apply Forall_cons in Hir as [Hjr Hir]. constructor; [|by apply IH].
  rewrite Hscore, Hq. by apply rank_before_le.
Qed.

(** C4. For a requested count [n >= 0]: an unknown user gets the empty list;
    every list that [recommend_items] returns has at most [n] entries, holds
    no item of the exclusion set, has its scores in non-increasing order, and
    is the decoding of a ranking of item indices, in which equal scores come
    by increasing index; and on a fitted model the call does return a list. *)
Theorem recommend_items_ranking (self : CollaborativeFilteringModel)
    (user : Z) (n : Z) (exclude_items : option (gset Z)) :
  (0 <= n)%Z ->
  (user_id_to_idx self !! user = None ->
     CF.recommend_items self user n exclude_items = Ok [])
  /\ (forall recs,
        CF.recommend_items self user n exclude_items = Ok recs ->
        (Z.of_nat (length recs) <= n)%Z
        /\ (forall s p, exclude_items = Some s -> p ∈ recs -> p.1 ∉ s)
        /\ StronglySorted (fun p q : Z * Q => q.2 <= p.2) recs
        /\ exists ranked,
             StronglySorted CF.rank_before ranked
             /\ Forall2 (CF.decodes (item_idx_to_id self)) recs ranked)
  /\ (CF.fitted self ->
        exists recs, CF.recommend_items self user n exclude_items = Ok recs).
Proof.
  intros Hn. unfold CF.recommend_items. split; [|split].
  - intros ->. reflexivity.
  - intros recs Hrec.
    destruct (user_id_to_idx self !! user) as [user_idx|].
    2:{ injection Hrec as <-. split; [cbn; lia|]. split; [|split].
        - intros s p _ Hp. by apply elem_of_nil in Hp.
        - constructor.
        - exists []. split; constructor. }
    apply bind_Ok_inv in Hrec as (user_vector & _ & Hrec).
    apply bind_Ok_inv in Hrec as (dots & _ & Hrec).
    apply bind_Ok_inv in Hrec as (recommendations & Hcollect & Hrec).
    injection Hrec as <-.
    apply collect_Ok in Hcollect as (kept & Hsub & Hdec & Hex).
    split; [by apply slice_to_length|]. split.
    + intros s p Hs Hp.
      pose proof (elem_of_sublist _ _ _ Hp (slice_to_sublist _ _)) as Hp'.
      apply sort_desc_elem_of in Hp'.
      rewrite Forall_forall in Hex. eapply excluded_false; eauto.
    + assert (Hranked : StronglySorted CF.rank_before
                            (slice_to (sort_desc snd kept) n)).
      { eapply StronglySorted_sublist_of; [apply slice_to_sublist|].
        apply sort_desc_ranked.
        eapply StronglySorted_sublist_of; [exact Hsub|].
        apply enumerate_from_ascending. }
      assert (Hdecoded : Forall2 (CF.decodes (item_idx_to_id self))
                           (slice_to (sort_desc snd recommendations) n)
                           (slice_to (sort_desc snd kept) n)).
      { assert (Hsorted : Forall2 (CF.decodes (item_idx_to_id self))
                            (sort_desc snd recommendations) (sort_desc snd kept)).
        { apply sort_desc_Forall2; [|exact Hdec]. by intros a b [_ ?]. }
        unfold slice_to. rewrite (Forall2_length _ _ _ Hsorted).
        by apply Forall2_take. }
      split; [exact (ranking_scores_descending _ _ _ Hdecoded Hranked)|].
      by exists (slice_to (sort_desc snd kept) n).
  - intros [Hurows Hirows Huidx _ Hids].
    destruct (user_id_to_idx self !! user) as [user_idx|] eqn:Hu; [|eauto].
    destruct (lookup_lt_is_Some_2 _ _ (Huidx _ _ Hu)) as [user_vector Hrow].
    rewrite (index_Some _ _ _ Hrow), bind_Ok.
    destruct (dot_mv_total (item_factors self) user_vector) as (dots & -> & Hlen).
    { rewrite Forall_forall in Hurows, Hirows |- *. intros row Hin.
      rewrite (Hirows row Hin). symmetry. apply Hurows.
      eapply list_elem_of_lookup_2; eauto. }
    rewrite bind_Ok.
    destruct (collect_total (item_idx_to_id self) exclude_items
                (enumerate (map (fun d => global_mean self + d) dots)))
      as [recs ->]; [|rewrite bind_Ok; eauto].
    rewrite Forall_forall. intros ir Hin. apply Hids.
    apply enumerate_indices in Hin. rewrite length_map in Hin. lia.
Qed.

Lemma sample_cf_fitted : CF.fitted Sample.cf_fitted.
Proof.
  split; cbn.
  - repeat constructor.
  - repeat constructor.
  - intros u i Hu. apply lookup_singleton_Some in Hu as [_ <-]. lia.
  - intros r i Hr.
    destruct (decide (r = 10%Z)) as [->|]; [vm_compute in Hr; injection Hr as <-; lia|].
    destruct (decide (r = 20%Z)) as [->|]; [vm_compute in Hr; injection Hr as <-; lia|].
    destruct (decide (r = 30%Z)) as [->|]; [vm_compute in Hr; injection Hr as <-; lia|].
    rewrite !lookup_insert_ne in Hr by congruence.
    rewrite lookup_singleton_ne in Hr by congruence. discriminate Hr.
  - intros i Hi. destruct i as [|[|[|i]]]; [by eexists..|lia].
Qed.

Lemma recommend_items_ranking_witness :
  (0 <= 2)%Z
  /\ (user_id_to_idx Sample.cf_fitted !! 1%Z = None ->
        CF.recommend_items Sample.cf_fitted 1 2 (Some Sample.rated) = Ok [])
  /\ (forall recs,
        CF.recommend_items Sample.cf_fitted 1 2 (Some Sample.rated) = Ok recs ->
        (Z.of_nat (length recs) <= 2)%Z
        /\ (forall s p, Some Sample.rated = Some s -> p ∈ recs -> p.1 ∉ s)
        /\ StronglySorted (fun p q : Z * Q => q.2 <= p.2) recs
        /\ exists ranked,
             StronglySorted CF.rank_before ranked
             /\ Forall2 (CF.decodes (item_idx_to_id Sample.cf_fitted)) recs ranked)
  /\ (CF.fitted Sample.cf_fitted ->
        exists recs,
          CF.recommend_items Sample.cf_fitted 1 2 (Some Sample.rated) = Ok recs).
Proof.
  split; [lia|].
  apply (recommend_items_ranking Sample.cf_fitted 1 2 (Some Sample.rated)). lia.
Defined.

(** A negative count is outside the theorem: the slice then counts from the
    end, and of three candidates two are returned for [n = -1]. *)
Example recommend_items_negative_count :
  exists s10 s30,
    CF.recommend_items Sample.cf_fitted 1 (-1) None = Ok [(10%Z, s10); (30%Z, s30)].
Proof. eexists _, _. vm_compute. reflexivity. Qed.

End Ranking.

(** ** Content model: similar items *)

Section Similar.

Local Open Scope Q_scope.

Lemma Qle_bool_refl (x : Q) : Qle_bool x x = true.
Proof. apply Qle_bool_iff, Qle_refl. Qed.

(** C5 does not hold of the code.  Recipes 10 and 20 of [Sample.cb_twins]
    have the same feature row, so their similarities to recipe 10 are equal
    whatever the square root returns; the descending order then starts with
    recipe 20, the slice [[1:n+1]] drops it, and the query item itself is
    returned. *)
Theorem get_similar_items_returns_query_item (sqrtQ : Q -> Q) :
  CB.get_similar_items sqrtQ Sample.cb_twins 10 1
    = Ok [(10%Z, CB.cos sqrtQ [1; 0] [1; 0])].
Proof.
  unfold CB.get_similar_items, CB.get_similar_items_with, Sample.cb_twins;
    cbn [recipe_ids feature_matrix].
  change (list_index 10 [10%Z; 20%Z]) with (Some 0%nat).
  cbn [index lookup list_lookup mbind result_bind CB.cosine_similarity map].
  unfold Np.argsort, enumerate.
  cbn [enumerate_from sort_asc insert_asc snd].
  rewrite Qle_bool_refl. reflexivity.
Qed.

(** The defect does not depend on how the sort orders equal values: whatever
    order [argsort] gives the two equal similarities, one of the two twins
    gets itself as its most similar recipe. *)
Lemma get_similar_items_twins_any_order (sqrtQ : Q -> Q)
    (argsort : list Q -> list nat) :
  let c := CB.cos sqrtQ [1; 0] [1; 0] in
  argsort [c; c] ≡ₚ [0; 1]%nat ->
  CB.get_similar_items_with sqrtQ argsort Sample.cb_twins 10 1 = Ok [(10%Z, c)]
  \/ CB.get_similar_items_with sqrtQ argsort Sample.cb_twins 20 1 = Ok [(20%Z, c)].
Proof.
  intros c Hperm.
  assert (Horder : argsort [c; c] = [0; 1]%nat \/ argsort [c; c] = [1; 0]%nat).
  { pose proof (Permutation_length Hperm) as Hlen.
    destruct (argsort [c; c]) as [|i [|j [|k order]]]; try discriminate Hlen.
    assert (Hi : i ∈ [0; 1]%nat) by (rewrite <- Hperm; by left).
    assert (Hj : j ∈ [0; 1]%nat) by (rewrite <- Hperm; right; by left).
    assert (Hnd : NoDup [i; j]) by (rewrite Hperm; apply (NoDup_seq 0 2)).
    apply NoDup_cons in Hnd as [Hij _]. rewrite list_elem_of_singleton in Hij.
    rewrite !elem_of_cons, elem_of_nil in Hi, Hj.
    destruct Hi as [->|[->|[]]], Hj as [->|[->|[]]]; try done; auto. }
  unfold CB.get_similar_items_with, Sample.cb_twins; cbn [recipe_ids feature_matrix].
  change (list_index 10 [10%Z; 20%Z]) with (Some 0%nat).
  change (list_index 20 [10%Z; 20%Z]) with (Some 1%nat).
  cbn [index lookup list_lookup mbind result_bind CB.cosine_similarity map].
  fold c. destruct Horder as [-> | ->]; [left | right]; reflexivity.
Qed.

(** The same run with a square root that computes: both similarities are 1. *)
Example get_similar_items_twins :
  CB.get_similar_items Np.sqrt_floor Sample.cb_twins 10 1 = Ok [(10%Z, 1)]
  /\ CB.cosine_similarity Np.sqrt_floor [1; 0] (feature_matrix Sample.cb_twins) = [1; 1].
Proof. split; reflexivity. Qed.

End Similar.

(** ** Hybrid fusion *)

Section Fusion.

Local Open Scope Q_scope.

(** *** Dictionaries built from candidate lists *)

Lemma fold_insert_lookup_Some `{Countable K} {V} (l : list (K * V))
    (acc : gmap K V) (k : K) (v : V) :
  fold_left (fun d p => <[p.1 := p.2]> d) l acc !! k = Some v ->
  (k, v) ∈ l \/ acc !! k = Some v.
Proof.
  revert acc; induction l as [|[k' v'] l IH]; intros acc Hlook; cbn in Hlook.
  - by right.
  - destruct (IH _ Hlook) as [Hin|Hacc].
    + left. by apply elem_of_cons; right.
    + destruct (decide (k' = k)) as [->|Hne].
      * rewrite lookup_insert_eq in Hacc. injection Hacc as ->.
        left. apply elem_of_cons. by left.
      * rewrite lookup_insert_ne in Hacc by done. by right.
Qed.

Lemma fold_insert_lookup_None `{Countable K} {V} (l : list (K * V))
    (acc : gmap K V) (k : K) :
  k ∉ l.*1 -> acc !! k = None ->
  fold_left (fun d p => <[p.1 := p.2]> d) l acc !! k = None.
Proof.
  revert acc; induction l as [|[k' v'] l IH]; intros acc Hnot Hacc; cbn.
  - exact Hacc.
  - cbn in Hnot. apply not_elem_of_cons in Hnot as [Hne Hnot].
    apply IH; [exact Hnot|]. by rewrite lookup_insert_ne.
Qed.

Lemma dict_of_pairs_Some `{Countable K} {V} (l : list (K * V)) (k : K) (v : V) :
  dict_of_pairs l !! k = Some v -> (k, v) ∈ l.
Proof.
  intros Hlook. apply fold_insert_lookup_Some in Hlook as [?|Hempty]; [done|].
  by rewrite lookup_empty in Hempty.
Qed.

Lemma dict_of_pairs_None `{Countable K} {V} (l : list (K * V)) (k : K) :
  k ∉ l.*1 -> dict_of_pairs l !! k = None.
Proof. intros Hnot. apply fold_insert_lookup_None; [exact Hnot | apply lookup_empty]. Qed.

Lemma fold_insert_dom (l : list (Z * Q)) (acc : gmap Z Q) :
  dom (fold_left (fun d p => <[p.1 := p.2]> d) l acc) = list_to_set l.*1 ∪ dom acc.
Proof.
  revert acc; induction l as [|[k v] l IH]; intros acc; cbn.
  - by rewrite (left_id_L ∅ (∪)).
  - rewrite IH, dom_insert_L. apply set_eq. intros x.
    rewrite !elem_of_union. tauto.
Qed.

(** The keys of the dictionary are the candidates of the list. *)
Lemma dict_of_pairs_dom (l : list (Z * Q)) :
  dom (dict_of_pairs l) = list_to_set l.*1.
Proof.
  unfold dict_of_pairs.
  by rewrite fold_insert_dom, dom_empty_L, (right_id_L ∅ (∪)).
Qed.

(** An item that a sub-model did not propose scores 0 for that sub-model. *)
Lemma get_absent (l : list (Z * Q)) (item : Z) :
  item ∉ l.*1 -> get (dict_of_pairs l) item 0 = 0.
Proof. intros Hnot. unfold get. by rewrite dict_of_pairs_None. Qed.

(** *** The two normalisations *)

Lemma positive_true (x : Q) : Hybrid.positive x = true <-> 0 < x.
Proof.
  unfold Hybrid.positive. rewrite negb_true_iff. split.
  - intros Hb. apply Qnot_le_lt. intros Hle.
    apply Qle_bool_iff in Hle. congruence.
  - intros Hlt. destruct (Qle_bool x 0) eqn:Hb; [|reflexivity].
    apply Qle_bool_iff in Hb. exfalso. exact (Qlt_not_le _ _ Hlt Hb).
Qed.

Lemma positive_false (x : Q) : Hybrid.positive x = false <-> x <= 0.
Proof.
  unfold Hybrid.positive. rewrite negb_false_iff. apply Qle_bool_iff.
Qed.

Lemma cf_score_norm_positive (x : Q) : 0 < x -> Hybrid.cf_score_norm x = x / 5.
Proof.
  intros Hx. unfold Hybrid.cf_score_norm.
  by rewrite (proj2 (positive_true x) Hx).
Qed.

Lemma cf_score_norm_nonpositive (x : Q) : x <= 0 -> Hybrid.cf_score_norm x = 0.
Proof.
  intros Hx. unfold Hybrid.cf_score_norm.
  by rewrite (proj2 (positive_false x) Hx).
Qed.

Lemma cb_score_norm_clamp (x : Q) : Hybrid.cb_score_norm x == Qmax x 0.
Proof.
  unfold Hybrid.cb_score_norm. destruct (Hybrid.positive x) eqn:Hp.
  - apply positive_true in Hp. symmetry. apply Q.max_l. by apply Qlt_le_weak.
  - apply positive_false in Hp. symmetry. by apply Q.max_r.
Qed.

(** *** The loop over the union of the candidates *)

Lemma hybrid_scores_elem_of (self : HybridRecommender)
    (cf_scores cb_scores : gmap Z Q) (rated : gset Z) (all_items : list Z)
    (item : Z) (score : Q) :
  (item, score) ∈ Hybrid.hybrid_scores self cf_scores cb_scores rated all_items
  <-> item ∈ all_items /\ (item ∉ rated)
      /\ score = Hybrid.hybrid_score self cf_scores cb_scores item.
Proof.
  unfold Hybrid.hybrid_scores. rewrite list_elem_of_omap. split.
  - intros (x & Hx & Hsome). case_bool_decide; [|discriminate].
    injection Hsome as -> ->. done.
  - intros (Hin & Hnot & ->). exists item. split; [done|].
    by rewrite bool_decide_eq_true_2.
Qed.

End Fusion.

Section FusionBounds.

Local Open Scope Q_scope.

(** What a successful call of [recommend] has computed. *)
Lemma recommend_Ok_inv (sqrtQ : Q -> Q) (self : HybridRecommender)
    (user : Z) (n : Z) (recs : list (Z * Q)) :
  Hybrid.recommend sqrtQ self user n = Ok recs ->
  exists df cf cb,
    interactions_df self = Some df
    /\ Hybrid.cf_recs self df user n = Ok cf
    /\ Hybrid.cb_recs sqrtQ self df user n = Ok cb
    /\ recs = slice_to
                (sort_desc snd
                   (Hybrid.hybrid_scores self (dict_of_pairs cf) (dict_of_pairs cb)
                      (Hybrid.rated_items df user)
                      (elements (dom (dict_of_pairs cf : gmap Z Q)
                                 ∪ dom (dict_of_pairs cb : gmap Z Q)))))
                n.
Proof.
  unfold Hybrid.recommend. intros Hrec.
  destruct (interactions_df self) as [df|]; [|discriminate].
  apply bind_Ok_inv in Hrec as (cf & Hcf & Hrec).
  apply bind_Ok_inv in Hrec as (cb & Hcb & Hrec).
  injection Hrec as <-. by exists df, cf, cb.
Qed.

Lemma get_dict_bound (l : list (Z * Q)) (item : Z) (bound : Q) :
  0 <= bound -> Forall (fun p => p.2 <= bound) l ->
  get (dict_of_pairs l) item 0 <= bound.
Proof.
  intros Hb Hl. unfold get.
  destruct (dict_of_pairs l !! item) as [v|] eqn:Hlook; [|exact Hb].
  apply dict_of_pairs_Some in Hlook. rewrite Forall_forall in Hl.
  exact (Hl _ Hlook).
Qed.

Lemma cf_score_norm_bounds (x : Q) :
  0 <= Hybrid.cf_score_norm x /\ (x <= 5 -> Hybrid.cf_score_norm x <= 1).
Proof.
  unfold Hybrid.cf_score_norm. destruct (Hybrid.positive x) eqn:Hp.
  - apply positive_true in Hp.
    assert (H5 : x / 5 == x * (1 # 5)) by reflexivity.
    rewrite H5. split; [|intros Hx]; lra.
  - split; [|intros _]; lra.
Qed.

Lemma cb_score_norm_bounds (x : Q) :
  0 <= Hybrid.cb_score_norm x /\ (x <= 1 -> Hybrid.cb_score_norm x <= 1).
Proof.
  unfold Hybrid.cb_score_norm. destruct (Hybrid.positive x) eqn:Hp.
  - apply positive_true in Hp. split; [|intros Hx]; lra.
  - split; [|intros _]; lra.
Qed.

(** The part of the unit interval that the fusion does keep: with weights
    that are not negative no score is negative, and a score stays below 1
    when moreover the weights sum to at most 1 and the candidates come with
    collaborative scores of at most 5 and content scores of at most 1.  The
    code clips neither. *)
Lemma recommend_scores_bounds (sqrtQ : Q -> Q) (self : HybridRecommender)
    (user : Z) (n : Z) (recs : list (Z * Q)) :
  0 <= cf_weight self -> 0 <= cb_weight self ->
  Hybrid.recommend sqrtQ self user n = Ok recs ->
  Forall (fun p => 0 <= p.2) recs
  /\ (cf_weight self + cb_weight self <= 1 ->
      (forall df cf, interactions_df self = Some df ->
         Hybrid.cf_recs self df user n = Ok cf -> Forall (fun p => p.2 <= 5) cf) ->
      (forall df cb, interactions_df self = Some df ->
         Hybrid.cb_recs sqrtQ self df user n = Ok cb -> Forall (fun p => p.2 <= 1) cb) ->
      Forall (fun p => p.2 <= 1) recs).
Proof.
  intros Hwcf Hwcb Hrec.
  apply recommend_Ok_inv in Hrec as (df & cf & cb & Hdf & Hcf & Hcb & ->).
  split; [|intros Hsum Hcf5 Hcb1]; apply Forall_forall; intros [item score] Hin;
    pose proof (elem_of_sublist _ _ _ Hin (slice_to_sublist _ _)) as Hin';
    apply sort_desc_elem_of, hybrid_scores_elem_of in Hin' as (_ & _ & ->);
    cbn [snd]; unfold Hybrid.hybrid_score.
  - pose proof (cf_score_norm_bounds (get (dict_of_pairs cf) item 0)) as [Hcf0 _].
    pose proof (cb_score_norm_bounds (get (dict_of_pairs cb) item 0)) as [Hcb0 _].
    nra.
  - pose proof (cf_score_norm_bounds (get (dict_of_pairs cf) item 0)) as [Hcf0 Hcf1].
    pose proof (cb_score_norm_bounds (get (dict_of_pairs cb) item 0)) as [Hcb0 Hcb1'].
    specialize (Hcf1 (get_dict_bound cf item 5 ltac:(lra) (Hcf5 df cf Hdf Hcf))).
    specialize (Hcb1' (get_dict_bound cb item 1 ltac:(lra) (Hcb1 df cb Hdf Hcb))).
    nra.
Qed.

End FusionBounds.

Section FusionClaims.

Local Open Scope Q_scope.

(** C1, as stated, fails twice.  On [Sample.recommender], which has the
    default weights, recipe 20 is a collaborative candidate with the negative
    score -6 and no content score; the code gives it the hybrid score 0, not
    [0.6 * (-6 / 5) + 0.4 * 0].  And [Sample.recommender_half] is a
    recommender whose weights sum to 3/4. *)
Lemma fusion_not_raw_fifth_nor_unit_weights :
  (exists s10 s20,
      Hybrid.cf_recs Sample.recommender Sample.interactions 1 5
        = Ok [(10%Z, s10); (20%Z, s20)]
      /\ s20 == -6
      /\ Hybrid.cb_recs Np.sqrt_floor Sample.recommender Sample.interactions 1 5 = Ok []
      /\ exists h10 h20,
           Hybrid.recommend Np.sqrt_floor Sample.recommender 1 5
             = Ok [(10%Z, h10); (20%Z, h20)]
           /\ h20 == 0
           /\ ~ h20 == cf_weight Sample.recommender * (s20 / 5)
                       + cb_weight Sample.recommender * 0)
  /\ ~ cf_weight Sample.recommender_half + cb_weight Sample.recommender_half == 1.
Proof.
  split.
  - eexists _, _. split; [vm_compute; reflexivity|].
    split; [reflexivity|]. split; [reflexivity|].
    eexists _, _. split; [vm_compute; reflexivity|].
    split; [reflexivity|]. intros Heq. vm_compute in Heq. discriminate Heq.
  - intros Heq. vm_compute in Heq. discriminate Heq.
Qed.

(** C1, amended.  Let [cf] and [cb] be the candidate lists of the two
    sub-models for a user.  The score that the loop of [recommend] computes
    for an item is [w_cf * cf_norm + w_cb * cb_norm]; the loop stores it for
    every item of the union of the candidates that the user has not rated,
    [recommend] returns the first [n] entries of the descending sort of what
    was stored, and every returned pair is a candidate with that score.
    Here [cf_norm] is the collaborative score divided by 5 when that score is
    positive and 0 otherwise, [cb_norm] is the content score with negatives
    clamped to 0, and an item that a sub-model did not propose counts 0 for
    it.  The weights are the two configured numbers; the defaults 0.6 and
    0.4 sum to 1. *)
Theorem recommend_fusion_score (sqrtQ : Q -> Q) (self : HybridRecommender)
    (df : list Interaction) (user : Z) (n : Z) (cf cb : list (Z * Q)) :
  interactions_df self = Some df ->
  Hybrid.cf_recs self df user n = Ok cf ->
  Hybrid.cb_recs sqrtQ self df user n = Ok cb ->
  let cf_scores : gmap Z Q := dict_of_pairs cf in
  let cb_scores : gmap Z Q := dict_of_pairs cb in
  let rated := Hybrid.rated_items df user in
  let fused item :=
    cf_weight self * Hybrid.cf_score_norm (get cf_scores item 0)
    + cb_weight self * Hybrid.cb_score_norm (get cb_scores item 0) in
  let scores :=
    Hybrid.hybrid_scores self cf_scores cb_scores rated
                         (elements (dom cf_scores ∪ dom cb_scores)) in
  Hybrid.recommend sqrtQ self user n = Ok (slice_to (sort_desc snd scores) n)
  /\ (forall item, Hybrid.hybrid_score self cf_scores cb_scores item = fused item)
  /\ (forall item, item ∈ cf.*1 \/ item ∈ cb.*1 -> item ∉ rated ->
        (item, fused item) ∈ scores)
  /\ (forall item score,
        (item, score) ∈ slice_to (sort_desc snd scores) n ->
        (item ∈ cf.*1 \/ item ∈ cb.*1) /\ score = fused item)
  /\ (forall x, (0 < x -> Hybrid.cf_score_norm x = x / 5)
                /\ (x <= 0 -> Hybrid.cf_score_norm x = 0)
                /\ Hybrid.cb_score_norm x == Qmax x 0)
  /\ (forall item, (item ∉ cf.*1 -> get cf_scores item 0 = 0)
                   /\ (item ∉ cb.*1 -> get cb_scores item 0 = 0))
  /\ 0.6 + 0.4 == 1.
Proof.
  intros Hdf Hcf Hcb cf_scores cb_scores rated fused scores.
  subst cf_scores cb_scores rated scores; cbn zeta.
  assert (Hdom : forall (l : list (Z * Q)) item,
             item ∈ dom (dict_of_pairs l : gmap Z Q) <-> item ∈ l.*1).
  { intros l item. by rewrite dict_of_pairs_dom, elem_of_list_to_set. }
  split; [|split; [|split; [|split; [|split; [|split]]]]].
  - unfold Hybrid.recommend. rewrite Hdf, Hcf, bind_Ok, Hcb, bind_Ok. reflexivity.
  - reflexivity.
  - intros item Hin Hnot. apply hybrid_scores_elem_of. split; [|by split].
    apply elem_of_elements, elem_of_union. by rewrite !Hdom.
  - intros item score Hin.
    pose proof (elem_of_sublist _ _ _ Hin (slice_to_sublist _ _)) as Hin'.
    apply sort_desc_elem_of, hybrid_scores_elem_of in Hin' as (Hin' & _ & ->).
    apply elem_of_elements, elem_of_union in Hin'. rewrite !Hdom in Hin'.
    by split.
  - intros x. split; [apply cf_score_norm_positive|].
    split; [apply cf_score_norm_nonpositive | apply cb_score_norm_clamp].
  - intros item. split; apply get_absent.
  - reflexivity.
Qed.

End FusionClaims.

Section FusionRuns.

Local Open Scope Q_scope.

Lemma recommend_fusion_score_witness :
  interactions_df Sample.recommender = Some Sample.interactions
  /\ Hybrid.cf_recs Sample.recommender Sample.interactions 1 5
       = Ok [(10%Z, 3 + (2 * 3 + 0)); (20%Z, 3 + (-3 * 3 + 0))]
  /\ Hybrid.cb_recs Np.sqrt_floor Sample.recommender Sample.interactions 1 5 = Ok []
  /\ Hybrid.recommend Np.sqrt_floor Sample.recommender 1 5
       = Ok (slice_to
               (sort_desc snd
                  (Hybrid.hybrid_scores Sample.recommender
                     (dict_of_pairs [(10%Z, 3 + (2 * 3 + 0)); (20%Z, 3 + (-3 * 3 + 0))])
                     (dict_of_pairs [])
                     (Hybrid.rated_items Sample.interactions 1)
                     (elements
                        (dom (dict_of_pairs
                                [(10%Z, 3 + (2 * 3 + 0)); (20%Z, 3 + (-3 * 3 + 0))]
                              : gmap Z Q)
                         ∪ dom (dict_of_pairs [] : gmap Z Q)))))
               5).
Proof.
  split; [reflexivity|]. split; [reflexivity|]. split; [reflexivity|].
  exact (proj1 (recommend_fusion_score Np.sqrt_floor Sample.recommender
                  Sample.interactions 1 5 _ _ eq_refl eq_refl eq_refl)).
Defined.

(** C2 does not hold of the code.  The collaborative candidates carry the
    unclipped score [global_mean + dot], which is 9 for recipe 10 of
    [Sample.recommender]; divided by 5 and weighted by 0.6 it gives the
    hybrid score 1.08, whatever the content model computes. *)
Theorem recommend_score_above_one (sqrtQ : Q -> Q) :
  exists s10 s20,
    Hybrid.recommend sqrtQ Sample.recommender 1 5 = Ok [(10%Z, s10); (20%Z, s20)]
    /\ s10 == 1.08
    /\ 1 < s10.
Proof.
  eexists _, _. split; [vm_compute; reflexivity|]. split; reflexivity.
Qed.

End FusionRuns.

(** ** Snapshots *)

Section Roundtrip.

Import Snapshot.

Lemma joinpath_inj (path a b : string) :
  joinpath path a = joinpath path b -> a = b.
Proof.
  unfold joinpath. induction path as [|c path IH]; cbn; intros Heq.
  - by injection Heq.
  - injection Heq as Heq. auto.
Qed.

Lemma joinpath_ne (path a b : string) : a <> b -> joinpath path a <> joinpath path b.
Proof. intros Hne Heq. apply Hne. exact (joinpath_inj _ _ _ Heq). Qed.

(** Reading back one of the five files that [save_model] has written. *)
Ltac saved_file :=
  unfold save_model, load_pickle, load_joblib;
  repeat (rewrite lookup_insert_ne by (apply joinpath_ne; discriminate));
  rewrite lookup_insert_eq.

Lemma saved_config (self : HybridRecommender) (path : string) (disk : fs) :
  load_pickle (save_model self path disk) (joinpath path "model_config.pkl")
  = Ok (<["id_mappings" := PMappings (id_mappings self)]>
        (<["cb_weight" := PFloat (cb_weight self)]>
        (<["cf_weight" := PFloat (cf_weight self)]> ∅))).
Proof. by saved_file. Qed.

Lemma saved_cf (self : HybridRecommender) (path : string) (disk : fs) :
  load_pickle (save_model self path disk) (joinpath path "cf_model.pkl")
  = Ok (<["n_factors" := PInt (n_factors (cf_model self))]>
        (<["global_mean" := PFloat (global_mean (cf_model self))]>
        (<["item_id_to_idx" := PEncode (item_id_to_idx (cf_model self))]>
        (<["user_id_to_idx" := PEncode (user_id_to_idx (cf_model self))]>
        (<["item_idx_to_id" := PDecode (item_idx_to_id (cf_model self))]>
        (<["user_idx_to_id" := PDecode (user_idx_to_id (cf_model self))]>
        (<["item_factors" := PArray (item_factors (cf_model self))]>
        (<["user_factors" := PArray (user_factors (cf_model self))]> ∅)))))))).
Proof. by saved_file. Qed.

Lemma saved_cb (self : HybridRecommender) (path : string) (disk : fs) :
  load_pickle (save_model self path disk) (joinpath path "cb_model.pkl")
  = Ok (<["feature_matrix" := PArray (feature_matrix (cb_model self))]>
        (<["recipe_ids" := PIds (recipe_ids (cb_model self))]> ∅)).
Proof. by saved_file. Qed.

Lemma saved_tfidf_ingredients (self : HybridRecommender) (path : string) (disk : fs) :
  load_joblib (save_model self path disk) (joinpath path "tfidf_ingredients.pkl")
  = Ok (tfidf_ingredients (cb_model self)).
Proof. by saved_file. Qed.

Lemma saved_tfidf_tags (self : HybridRecommender) (path : string) (disk : fs) :
  load_joblib (save_model self path disk) (joinpath path "tfidf_tags.pkl")
  = Ok (tfidf_tags (cb_model self)).
Proof. by saved_file. Qed.

(** What [load_model] rebuilds from a directory written by [save_model]:
    everything but the two tables. *)
Lemma load_saved (self : HybridRecommender) (path : string) (disk : fs) :
  load_model path (save_model self path disk)
  = Ok {| cf_model := cf_model self;
          cb_model := cb_model self;
          cf_weight := cf_weight self;
          cb_weight := cb_weight self;
          recipes_df := None;
          interactions_df := None;
          id_mappings := id_mappings self |}.
Proof.
  unfold load_model.
  rewrite saved_config, saved_cf, saved_cb, saved_tfidf_ingredients, saved_tfidf_tags.
  destruct self as [[] [] ? ? ? ? ?]. reflexivity.
Qed.

(** C8. Loading what [save_model] wrote succeeds and gives a recommender
    with the same collaborative model, so [predict] and [recommend_items]
    answer every query as before; the content model, the weights and the
    codec come back unchanged as well. *)
Theorem save_load_same_answers (self : HybridRecommender) (path : string) (disk : fs) :
  exists loaded,
    load_model path (save_model self path disk) = Ok loaded
    /\ (forall user item,
          CF.predict (cf_model loaded) user item = CF.predict (cf_model self) user item)
    /\ (forall user n exclude_items,
          CF.recommend_items (cf_model loaded) user n exclude_items
          = CF.recommend_items (cf_model self) user n exclude_items)
    /\ cf_model loaded = cf_model self
    /\ cb_model loaded = cb_model self
    /\ cf_weight loaded = cf_weight self
    /\ cb_weight loaded = cb_weight self
    /\ id_mappings loaded = id_mappings self.
Proof.
  eexists. split; [apply load_saved|]. cbn. repeat split.
Qed.

(** The interaction table is not part of the snapshot: [recommend] on a
    loaded recommender stops at its first line. *)
Lemma recommend_after_load (sqrtQ : Q -> Q) (self loaded : HybridRecommender)
    (path : string) (disk : fs) (user n : Z) :
  load_model path (save_model self path disk) = Ok loaded ->
  Hybrid.recommend sqrtQ loaded user n = Raise TypeError.
Proof. rewrite load_saved. intros [= <-]. reflexivity. Qed.

End Roundtrip.

(** ** Content model: the z-score step of [fit] *)

Section ZScore.

Local Open Scope Q_scope.

Variable sqrtQ : Q -> Q.
Hypothesis sqrtQ_nonneg : forall x, 0 <= sqrtQ x.

Lemma true_divide_positive (x d : Q) : 0 < d -> CB.true_divide x d = Some (x / d).
Proof.
  intros Hd. unfold CB.true_divide.
  destruct (Qeq_bool d 0) eqn:Hz; [|reflexivity].
  apply Qeq_bool_iff in Hz. rewrite Hz in Hd. by apply Qlt_irrefl in Hd.
Qed.

Lemma std_nonneg (l : list Q) : 0 <= CB.std sqrtQ l.
Proof. apply sqrtQ_nonneg. Qed.

Lemma zscore_denominators_positive (X : list (list Q)) :
  Forall (fun d => 0 < d) (CB.zscore_denominators sqrtQ X).
Proof.
  unfold CB.zscore_denominators, CB.std_axis0.
  rewrite !Forall_fmap. apply Forall_forall. intros j _. cbn.
  pose proof (std_nonneg (CB.column j X)) as Hstd.
  apply Qlt_le_trans with (y := 0 + 1e-8); [reflexivity|].
  apply Qplus_le_l. exact Hstd.
Qed.

Lemma zscore_total (X : list (list Q)) : is_Some (CB.zscore sqrtQ X).
Proof.
  unfold CB.zscore. apply mapM_is_Some, Forall_forall. intros row _. cbn.
  apply mapM_is_Some, Forall_forall. intros [[x m] d] Hin. cbn.
  apply elem_of_zip_r in Hin.
  pose proof (zscore_denominators_positive X) as Hpos.
  rewrite Forall_forall in Hpos.
  rewrite (true_divide_positive _ _ (Hpos d Hin)). by eexists.
Qed.

(** C10. For every item table, each denominator of the z-score step is a
    column's standard deviation plus [1e-8] and is strictly positive, so
    every division of the step has a value; and [fit] returns a model
    whenever the two vectorizers do. *)
Theorem zscore_never_divides_by_zero
    (tfidf_fit_transform :
       TfidfVectorizer -> list (list string) -> result (TfidfVectorizer * list (list Q)))
    (self : ContentBasedModel) (recipes_df : list Recipe) :
  let X := CB.numerical_features recipes_df in
  CB.zscore_denominators sqrtQ X = map (fun s => s + 1e-8) (CB.std_axis0 sqrtQ X)
  /\ Forall (fun d => 0 < d) (CB.zscore_denominators sqrtQ X)
  /\ is_Some (CB.zscore sqrtQ X)
  /\ (forall ing tag,
        tfidf_fit_transform (tfidf_ingredients self) (ingredients <$> recipes_df) = Ok ing ->
        tfidf_fit_transform (tfidf_tags self) (tags <$> recipes_df) = Ok tag ->
        exists fitted, CB.fit sqrtQ tfidf_fit_transform self recipes_df = Ok fitted).
Proof.
  intros X. split; [reflexivity|]. split; [apply zscore_denominators_positive|].
  split; [apply zscore_total|].
  intros ing tag Hing Htag. unfold CB.fit.
  rewrite Hing, bind_Ok, Htag, bind_Ok.
  destruct (zscore_total X) as [numerical Hz]. fold X. rewrite Hz. by eexists.
Qed.

End ZScore.

Lemma sqrt_floor_nonneg (x : Q) : (0 <= Np.sqrt_floor x)%Q.
Proof.
  unfold Np.sqrt_floor, Qle. cbn.
  pose proof (Z.sqrt_nonneg (Qnum (Qred x))). lia.
Qed.

Lemma zscore_never_divides_by_zero_witness :
  (forall x, 0 <= Np.sqrt_floor x)%Q
  /\ Forall (fun d => 0 < d)%Q
       (CB.zscore_denominators Np.sqrt_floor (CB.numerical_features Sample.recipes))
  /\ is_Some (CB.zscore Np.sqrt_floor (CB.numerical_features Sample.recipes)).
Proof.
  split; [exact sqrt_floor_nonneg|].
  pose proof (zscore_never_divides_by_zero Np.sqrt_floor sqrt_floor_nonneg
                (fun v _ => Ok (v, [])) Sample.cb Sample.recipes) as (_ & Hpos & Hsome & _).
  split; [exact Hpos | exact Hsome].
Defined.

(** ** The sparse user-item matrix *)

Section Matrix.

Import Preprocessor.
Local Open Scope Q_scope.

(** *** The label encoder *)

Lemma insert_unique_elem_of (x y : Z) (l : list Z) :
  y ∈ insert_unique x l <-> y = x \/ y ∈ l.
Proof.
  induction l as [|z l IH]; cbn [insert_unique].
  - rewrite list_elem_of_singleton, elem_of_nil. tauto.
  - destruct (Z.ltb_spec x z) as [Hlt|Hge].
    + rewrite elem_of_cons. tauto.
    + destruct (Z.eqb_spec x z) as [->|Hne].
      * rewrite !elem_of_cons. tauto.
      * rewrite !elem_of_cons, IH. tauto.
Qed.

Lemma insert_unique_sorted (x : Z) (l : list Z) :
  StronglySorted Z.lt l -> StronglySorted Z.lt (insert_unique x l).
Proof.
  induction l as [|z l IH]; intros Hs; cbn [insert_unique].
  - repeat constructor.
  - apply StronglySorted_cons in Hs as Hzl. destruct Hzl as [Hz Hl].
    destruct (Z.ltb_spec x z) as [Hlt|Hge].
    + apply StronglySorted_cons. split; [|exact Hs].
      constructor; [exact Hlt|].
      rewrite Forall_forall in Hz |- *. intros w Hw. specialize (Hz w Hw). lia.
    + destruct (Z.eqb_spec x z) as [->|Hne]; [exact Hs|].
      apply StronglySorted_cons. split; [|by apply IH].
      rewrite Forall_forall in Hz |- *. intros w Hw.
      apply insert_unique_elem_of in Hw as [->|Hw]; [lia | by apply Hz].
Qed.

Lemma unique_elem_of (x : Z) (l : list Z) : x ∈ unique l <-> x ∈ l.
Proof.
  induction l as [|y l IH]; cbn; [reflexivity|].
  rewrite insert_unique_elem_of, elem_of_cons, IH. tauto.
Qed.

Lemma unique_sorted (l : list Z) : StronglySorted Z.lt (unique l).
Proof.
  induction l as [|y l IH]; cbn; [constructor|]. by apply insert_unique_sorted.
Qed.

Lemma unique_NoDup (l : list Z) : NoDup (unique l).
Proof.
  generalize (unique_sorted l). generalize (unique l). clear l.
  induction 1 as [|x l _ IH Hx]; constructor; [|exact IH].
  intros Hin. rewrite Forall_forall in Hx. specialize (Hx x Hin). lia.
Qed.

Lemma list_index_lookup (x : Z) (l : list Z) (i : nat) :
  list_index x l = Some i -> l !! i = Some x.
Proof.
  revert i; induction l as [|y l IH]; intros i Hi; cbn in Hi; [discriminate|].
  destruct (decide (y = x)) as [->|Hne].
  - by injection Hi as <-.
  - destruct (list_index x l) as [j|]; [|discriminate].
    injection Hi as <-. by apply IH.
Qed.

Lemma list_index_elem_of (x : Z) (l : list Z) :
  x ∈ l -> is_Some (list_index x l).
Proof.
  induction l as [|y l IH]; intros Hin; [by apply elem_of_nil in Hin|].
  cbn. destruct (decide (y = x)); [by eexists|].
  apply elem_of_cons in Hin as [?|Hin]; [congruence|].
  destruct (IH Hin) as [j ->]. by eexists.
Qed.

Lemma list_index_NoDup (x : Z) (l : list Z) (i : nat) :
  NoDup l -> l !! i = Some x -> list_index x l = Some i.
Proof.
  intros Hnd Hi. destruct (list_index_elem_of x l) as [j Hj].
  { eapply list_elem_of_lookup_2; eauto. }
  rewrite Hj. f_equal.
  eapply NoDup_lookup; eauto using list_index_lookup.
Qed.

(** The encoding of two values differs unless the values are equal. *)
Lemma list_index_inj (x y : Z) (l : list Z) (i : nat) :
  list_index x l = Some i -> list_index y l = Some i -> x = y.
Proof.
  intros Hx%list_index_lookup Hy%list_index_lookup. congruence.
Qed.

Lemma transform_seen (classes y : list Z) :
  y ⊆ classes -> transform classes y = Ok (encode classes <$> y).
Proof.
  unfold transform. induction y as [|v y IH]; intros Hsub; [reflexivity|].
  cbn [mapM fmap list_fmap].
  destruct (list_index_elem_of v classes) as [i Hi].
  { apply Hsub. by left. }
  unfold encode at 1. rewrite Hi, bind_Ok, IH; [reflexivity|].
  intros w Hw. apply Hsub. by right.
Qed.

Lemma fit_transform_encode (y : list Z) :
  fit_transform y = Ok (encode (unique y) <$> y).
Proof.
  apply transform_seen. intros v Hv. by apply unique_elem_of.
Qed.

Lemma encode_lt (y : list Z) (v : Z) :
  v ∈ y -> (encode (unique y) v < length (unique y))%nat.
Proof.
  intros Hv. destruct (list_index_elem_of v (unique y)) as [i Hi].
  { by apply unique_elem_of. }
  unfold encode. rewrite Hi. cbn.
  apply list_index_lookup in Hi. eapply lookup_lt_Some; eauto.
Qed.

(** The encoder uses every index below the number of classes. *)
Lemma nunique_encode (y : list Z) :
  nunique (encode (unique y) <$> y) = length (unique y).
Proof.
  unfold nunique.
  assert (Hset : (list_to_set (encode (unique y) <$> y) : gset nat)
                 = list_to_set (seq 0 (length (unique y)))).
  { apply set_eq. intros i. rewrite !elem_of_list_to_set, elem_of_seq. split.
    - intros (v & -> & Hv)%list_elem_of_fmap.
      pose proof (encode_lt y v Hv). lia.
    - intros [_ Hi]. destruct (lookup_lt_is_Some_2 (unique y) i Hi) as [v Hv].
      apply list_elem_of_fmap. exists v. split.
      + unfold encode. by rewrite (list_index_NoDup v _ i (unique_NoDup y) Hv).
      + apply unique_elem_of. eapply list_elem_of_lookup_2; eauto. }
  rewrite Hset, size_list_to_set by apply NoDup_seq. apply length_seq.
Qed.

(** *** Entries that share their coordinates are added *)

Lemma get_add_entry (m : gmap (nat * nat) Q) (e : nat * nat * Q) (k : nat * nat) :
  get (add_entry m e) k 0 = if decide (e.1 = k) then get m k 0 + e.2 else get m k 0.
Proof.
  unfold add_entry, get. destruct (decide (e.1 = k)) as [<-|Hne].
  - by rewrite lookup_insert_eq.
  - by rewrite lookup_insert_ne.
Qed.

(** The value stored for one pair of coordinates. *)
Lemma get_fold_add_entry (es : list (nat * nat * Q)) (acc : gmap (nat * nat) Q)
    (k : nat * nat) :
  get (fold_left add_entry es acc) k 0
  == get acc k 0 + Np.sum (snd <$> List.filter (fun e => bool_decide (e.1 = k)) es).
Proof.
  revert acc; induction es as [|e es IH]; intros acc; cbn [fold_left List.filter].
  - unfold Np.sum. cbn [fmap list_fmap foldr]. by rewrite Qplus_0_r.
  - rewrite IH, get_add_entry.
    destruct (decide (e.1 = k)) as [Heq|Hne].
    + rewrite bool_decide_eq_true_2 by done.
      unfold Np.sum. cbn [fmap list_fmap foldr]. ring.
    + rewrite bool_decide_eq_false_2 by done. reflexivity.
Qed.

(** The coordinate list that [create_user_item_matrix] hands to scipy. *)
Lemma coo_of_table (f g : Interaction -> nat) (df : list Interaction) :
  zip (zip (f <$> df) (g <$> df)) (rating <$> df)
  = (fun x => (f x, g x, rating x)) <$> df.
Proof. induction df as [|x df IH]; cbn; [reflexivity | by rewrite IH]. Qed.

Lemma coo_in_range (f g : Interaction -> nat) (df : list Interaction) (shp : nat * nat) :
  (forall x, x ∈ df -> (f x < shp.1)%nat /\ (g x < shp.2)%nat) ->
  forallb (fun ij : nat * nat => (ij.1 <? shp.1)%nat && (ij.2 <? shp.2)%nat)
          (zip (f <$> df) (g <$> df)) = true.
Proof.
  induction df as [|x df IH]; intros Hin; [reflexivity|].
  cbn [fmap list_fmap zip_with forallb fst snd].
  destruct (Hin x) as [Hf Hg]; [by left|].
  rewrite (proj2 (Nat.ltb_lt _ _) Hf), (proj2 (Nat.ltb_lt _ _) Hg).
  cbn [andb]. apply IH. intros y Hy. apply Hin. by right.
Qed.

(** A table with a row has a class in each of its columns. *)
Lemma unique_nonempty (f : Interaction -> Z) (df : list Interaction) :
  df <> [] -> (0 < length (unique (f <$> df)))%nat.
Proof.
  destruct df as [|x df]; [done|]. intros _.
  assert (Hx : f x ∈ unique (f <$> x :: df)).
  { apply unique_elem_of. cbn. by left. }
  destruct (unique (f <$> x :: df)); [by apply elem_of_nil in Hx | cbn; lia].
Qed.

(** The matrix that the builder returns for a table with a row, in closed
    form. *)
Lemma create_user_item_matrix_Ok (df : list Interaction) :
  let users := unique (user_id <$> df) in
  let recipes := unique (recipe_id <$> df) in
  df <> [] ->
  create_user_item_matrix df
  = Ok {| shape := (length users, length recipes);
          entries :=
            fold_left add_entry
              ((fun x => (encode users (user_id x), encode recipes (recipe_id x), rating x))
                 <$> df) ∅ |}.
Proof.
  intros users recipes Hne. unfold create_user_item_matrix.
  rewrite !fit_transform_encode, !bind_Ok, !nunique_encode.
  fold users recipes. rewrite <- !list_fmap_compose.
  unfold csr_of_coo. rewrite coo_in_range, coo_of_table.
  - rewrite bind_Ok.
    pose proof (unique_nonempty user_id df Hne) as Hu.
    pose proof (unique_nonempty recipe_id df Hne) as Hr. fold users in Hu. fold recipes in Hr.
    destruct (Nat.eqb_spec (length users * length recipes) 0) as [Hz|_]; [nia | reflexivity].
  - intros x Hx. cbn. split; apply encode_lt, list_elem_of_fmap; by exists x.
Qed.

(** On a table without rows the builder gets as far as the sparsity of line
    222 and fails there, dividing by the 0 cells of the matrix. *)
Lemma create_user_item_matrix_empty :
  create_user_item_matrix [] = Raise ZeroDivisionError.
Proof. reflexivity. Qed.

Lemma create_user_item_matrix_raises (df : list Interaction) :
  create_user_item_matrix df = Raise ZeroDivisionError <-> df = [].
Proof.
  split; [|intros ->; apply create_user_item_matrix_empty].
  intros Hraise. destruct df as [|x df]; [reflexivity|].
  rewrite create_user_item_matrix_Ok in Hraise by done. discriminate Hraise.
Qed.

Lemma rating_sum_encoded (users recipes : list Z) (df : list Interaction)
    (u r : Z) (i j : nat) :
  (forall x, x ∈ df -> user_id x ∈ users /\ recipe_id x ∈ recipes) ->
  list_index u users = Some i ->
  list_index r recipes = Some j ->
  Np.sum (snd <$> List.filter (fun e => bool_decide (e.1 = (i, j)))
                    ((fun x => (encode users (user_id x),
                                encode recipes (recipe_id x), rating x)) <$> df))
  = rating_sum df u r.
Proof.
  intros Hseen Hu Hr. unfold rating_sum.
  assert (Hall : forall x, x ∈ df ->
            bool_decide ((encode users (user_id x), encode recipes (recipe_id x)) = (i, j))
            = bool_decide (user_id x = u) && bool_decide (recipe_id x = r)).
  { intros x Hx. destruct (Hseen x Hx) as [Hxu Hxr].
    destruct (list_index_elem_of _ _ Hxu) as [i' Hi'].
    destruct (list_index_elem_of _ _ Hxr) as [j' Hj'].
    unfold encode. rewrite Hi', Hj'. cbn [default].
    destruct (decide (user_id x = u)) as [Heu|Hneu].
    - destruct (decide (recipe_id x = r)) as [Her|Hner].
      + assert (i' = i) as -> by congruence. assert (j' = j) as -> by congruence.
        by rewrite !bool_decide_eq_true_2.
      + rewrite (bool_decide_eq_false_2 (recipe_id x = r)) by done.
        rewrite andb_false_r. apply bool_decide_eq_false_2. intros [= -> ->].
        apply Hner. eapply list_index_inj; eauto.
    - rewrite (bool_decide_eq_false_2 (user_id x = u)) by done.
      apply bool_decide_eq_false_2. intros [= -> ->].
      apply Hneu. eapply list_index_inj; eauto. }
  clear Hseen Hu Hr. induction df as [|x df IH]; [reflexivity|].
  cbn [fmap list_fmap List.filter fst].
  rewrite <- (Hall x) by (by left).
  specialize (IH (fun y Hy => Hall y (list_elem_of_further _ _ _ Hy))).
  destruct (bool_decide _).
  - cbn [fmap list_fmap snd]. unfold Np.sum in *. cbn [foldr]. f_equal. exact IH.
  - exact IH.
Qed.

End Matrix.

Section MatrixClaims.

Import Preprocessor.
Local Open Scope Q_scope.

(** C6, as stated, fails.  In [Sample.repeated] user 1 rates recipe 30 twice,
    first 3 and then 4; both ids get index 1, and the matrix holds 7 at
    (1, 1), not the last rating 4. *)
Lemma matrix_repeated_pair_is_summed :
  exists M,
    create_user_item_matrix Sample.repeated = Ok M
    /\ list_index 1 (unique (user_id <$> Sample.repeated)) = Some 1%nat
    /\ list_index 30 (unique (recipe_id <$> Sample.repeated)) = Some 1%nat
    /\ last_rating Sample.repeated 1 30 = Some 4
    /\ csr_get M 1 1 == 7
    /\ ~ csr_get M 1 1 == 4.
Proof.
  eexists. split; [vm_compute; reflexivity|].
  repeat (split; [reflexivity|]).
  intros Heq. vm_compute in Heq. discriminate Heq.
Qed.

(** C6, amended.  The builder returns a matrix, and at the position of a
    user and a recipe of the table it holds the sum of all ratings that the
    table supplies for that pair. *)
Theorem matrix_entry_is_rating_sum (df : list Interaction) (u r : Z) (i j : nat) :
  list_index u (unique (user_id <$> df)) = Some i ->
  list_index r (unique (recipe_id <$> df)) = Some j ->
  exists M,
    create_user_item_matrix df = Ok M
    /\ csr_get M i j == rating_sum df u r.
Proof.
  intros Hu Hr.
  assert (Hne : df <> []) by (intros ->; discriminate Hu).
  eexists. split; [by apply create_user_item_matrix_Ok|].
  unfold csr_get. cbn [entries].
  rewrite get_fold_add_entry.
  rewrite (rating_sum_encoded _ _ df u r i j); [| |exact Hu|exact Hr].
  - unfold get. rewrite lookup_empty. ring.
  - intros x Hx. split; apply unique_elem_of, list_elem_of_fmap; by exists x.
Qed.

Lemma matrix_entry_is_rating_sum_witness :
  list_index 1 (unique (user_id <$> Sample.repeated)) = Some 1%nat
  /\ list_index 30 (unique (recipe_id <$> Sample.repeated)) = Some 1%nat
  /\ exists M,
       create_user_item_matrix Sample.repeated = Ok M
       /\ csr_get M 1 1 == rating_sum Sample.repeated 1 30.
Proof.
  split; [reflexivity|]. split; [reflexivity|].
  apply (matrix_entry_is_rating_sum Sample.repeated 1 30 1 1); reflexivity.
Defined.

End MatrixClaims.

(** ** The evaluation sample *)

Section SamplingClaims.

Variable rng : Type.
Variable random_interval : rng -> nat -> nat * rng.

Lemma insert_swap_head {A} (l : list A) (j : nat) (a b : A) :
  l !! j = Some b -> b :: <[j := a]> l ≡ₚ a :: l.
Proof.
  intros Hj. rewrite insert_take_drop by (eapply lookup_lt_Some; eauto).
  rewrite <- (take_drop_middle l j b Hj) at 3.
  rewrite <- !Permutation_middle. apply Permutation_swap.
Qed.

Lemma swap_perm {A} (x : list A) (i j : nat) : Eval.swap x i j ≡ₚ x.
Proof.
  unfold Eval.swap.
  destruct (x !! i) as [a|] eqn:Hi; [|reflexivity].
  destruct (x !! j) as [b|] eqn:Hj; [|reflexivity].
  revert i j Hi Hj; induction x as [|h x IH]; intros [|i] [|j] Hi Hj;
    try discriminate; cbn in Hi, Hj |- *.
  - by injection Hi as ->; injection Hj as ->.
  - injection Hi as ->. by apply insert_swap_head.
  - injection Hj as ->. by apply insert_swap_head.
  - f_equiv. by apply IH.
Qed.

Lemma shuffle_from_perm {A} (i : nat) (x : list A) (s : rng) :
  (Eval.shuffle_from rng random_interval i x s).1 ≡ₚ x.
Proof.
  revert x s; induction i as [|i IH]; intros x s; cbn [Eval.shuffle_from].
  - reflexivity.
  - destruct (random_interval s (S i)) as [j s']. rewrite IH. apply swap_perm.
Qed.

Lemma permutation_perm (n : nat) (s : rng) :
  (Eval.permutation rng random_interval n s).1 ≡ₚ seq 0 n.
Proof. apply shuffle_from_perm. Qed.

(** Reading an array at distinct positions in range. *)
Lemma mapM_index {A} (a : list A) (idx : list nat) :
  Forall (fun i => (i < length a)%nat) idx ->
  exists l, mapM (index a) idx = Ok l /\ Forall2 (fun i v => a !! i = Some v) idx l.
Proof.
  induction 1 as [|i idx Hi _ (l & IH & Hl)].
  - exists []. split; [reflexivity | constructor].
  - destruct (lookup_lt_is_Some_2 a i Hi) as [v Hv].
    exists (v :: l). cbn [mapM]. rewrite (index_Some _ _ _ Hv), bind_Ok, IH.
    split; [reflexivity | by constructor].
Qed.

Lemma lookups_NoDup {A} (a : list A) (idx : list nat) (l : list A) :
  NoDup a -> NoDup idx -> Forall2 (fun i v => a !! i = Some v) idx l -> NoDup l.
Proof.
  intros Ha Hidx Hl. induction Hl as [|i v idx l Hv Hl IH]; [constructor|].
  apply NoDup_cons in Hidx as [Hi Hidx]. constructor; [|by apply IH].
  intros Hin. apply Hi.
  apply list_elem_of_lookup in Hin as [p Hp].
  destruct (Forall2_lookup_r _ _ _ _ _ Hl Hp) as (i' & Hi' & Hv').
  rewrite (NoDup_lookup a i i' v Ha Hv Hv').
  eapply list_elem_of_lookup_2; eauto.
Qed.

Lemma lookups_subseteq {A} (a : list A) (idx : list nat) (l : list A) :
  Forall2 (fun i v => a !! i = Some v) idx l -> l ⊆ a.
Proof.
  intros Hl v Hin. apply list_elem_of_lookup in Hin as [p Hp].
  destruct (Forall2_lookup_r _ _ _ _ _ Hl Hp) as (i & _ & Hv).
  eapply list_elem_of_lookup_2; eauto.
Qed.

(** [choice] without replacement: as many distinct elements as asked for. *)
Lemma choice_spec (a : list Z) (size : nat) (s : rng) :
  NoDup a -> (size <= length a)%nat ->
  exists l s',
    Eval.choice rng random_interval a size s = (Ok l, s')
    /\ length l = size /\ NoDup l /\ l ⊆ a.
Proof.
  intros Ha Hsize. unfold Eval.choice.
  destruct (Nat.ltb_spec (length a) size) as [Hlt|_]; [lia|].
  pose proof (permutation_perm (length a) s) as Hperm.
  destruct (Eval.permutation rng random_interval (length a) s) as [perm s'].
  cbn [fst] in Hperm.
  assert (Hnd : NoDup (take size perm)).
  { apply (sublist_NoDup _ perm); [|apply sublist_take].
    rewrite Hperm. apply NoDup_seq. }
  assert (Hrange : Forall (fun i => (i < length a)%nat) (take size perm)).
  { apply Forall_take. rewrite Hperm. apply Forall_forall.
    intros i Hi. apply elem_of_seq in Hi. lia. }
  destruct (mapM_index a _ Hrange) as (l & Hl & Hlook).
  exists l, s'. rewrite Hl. split; [reflexivity|]. split; [|split].
  - rewrite <- (Forall2_length _ _ _ Hlook), length_take.
    rewrite (Permutation_length Hperm), length_seq. lia.
  - eapply lookups_NoDup; eauto.
  - eapply lookups_subseteq; eauto.
Qed.

Lemma filter_sublist {A} (f : A -> bool) (l : list A) : List.filter f l `sublist_of` l.
Proof.
  induction l as [|x l IH]; cbn; [constructor|].
  destruct (f x); by constructor.
Qed.

Lemma valid_test_users_NoDup (test train : list Interaction) :
  NoDup (Eval.valid_test_users test train).
Proof.
  unfold Eval.valid_test_users, Eval.common_users.
  eapply sublist_NoDup; [|apply filter_sublist]. apply NoDup_elements.
Qed.


End SamplingClaims.



(** * Part III. Further properties of the same code *)

(** ** [predict] on unknown ids and on a fitted model *)

Section PredictTotal.

Local Open Scope Q_scope.

(** Cold start of [predict]: when the codec does not know the user or does
    not know the item, the [KeyError] is caught and the global mean is
    returned as it is, without clipping. *)
Theorem predict_unknown_id (self : CollaborativeFilteringModel) (user item : Z) :
  user_id_to_idx self !! user = None \/ item_id_to_idx self !! item = None ->
  CF.predict self user item = Ok (global_mean self).
Proof.
  intros Hunknown. unfold CF.predict, getitem.
  destruct (user_id_to_idx self !! user) as [user_idx|]; [|reflexivity].
  destruct Hunknown as [Hu|Hi]; [discriminate|].
  rewrite Hi. reflexivity.
Qed.

Lemma predict_unknown_id_witness :
  (user_id_to_idx Sample.cf !! 1%Z = None \/ item_id_to_idx Sample.cf !! 99%Z = None)
  /\ CF.predict Sample.cf 1 99 = Ok (global_mean Sample.cf).
Proof.
  split; [right; reflexivity|].
  apply (predict_unknown_id Sample.cf 1 99). right. reflexivity.
Defined.

Lemma fitted_rows (self : CollaborativeFilteringModel) (user item : Z)
    (user_idx item_idx : nat) :
  CF.fitted self ->
  user_id_to_idx self !! user = Some user_idx ->
  item_id_to_idx self !! item = Some item_idx ->
  exists user_vec item_vec,
    user_factors self !! user_idx = Some user_vec
    /\ item_factors self !! item_idx = Some item_vec
    /\ length user_vec = length item_vec.
Proof.
  intros [Hurows Hirows Huidx Hiidx _] Hu Hi.
  destruct (lookup_lt_is_Some_2 _ _ (Huidx _ _ Hu)) as [user_vec Hurow].
  destruct (lookup_lt_is_Some_2 _ _ (Hiidx _ _ Hi)) as [item_vec Hirow].
  exists user_vec, item_vec. split; [exact Hurow|]. split; [exact Hirow|].
  rewrite Forall_forall in Hurows, Hirows.
  rewrite (Hurows user_vec), (Hirows item_vec);
    [reflexivity | eapply list_elem_of_lookup_2; eauto..].
Qed.

Lemma predict_rows (self : CollaborativeFilteringModel) (user item : Z)
    (user_idx item_idx : nat) (user_vec item_vec : list Q) :
  user_id_to_idx self !! user = Some user_idx ->
  item_id_to_idx self !! item = Some item_idx ->
  user_factors self !! user_idx = Some user_vec ->
  item_factors self !! item_idx = Some item_vec ->
  length user_vec = length item_vec ->
  CF.predict self user item
  = Ok (Np.clip (global_mean self + Np.inner user_vec item_vec) 1 5).
Proof.
  intros Hu Hi Hurow Hirow Hlen. unfold CF.predict.
  rewrite (getitem_Some _ _ _ Hu), bind_Ok, (getitem_Some _ _ _ Hi), bind_Ok.
  rewrite (index_Some _ _ _ Hurow), bind_Ok, (index_Some _ _ _ Hirow), bind_Ok.
  by rewrite (dot_inner _ _ Hlen), bind_Ok.
Qed.

(** On a fitted model [predict] raises nothing: every query gets a number,
    the global mean when an id is unknown and a rating between 1 and 5
    when both are known. *)
Theorem predict_total_on_fitted (self : CollaborativeFilteringModel) (user item : Z) :
  CF.fitted self ->
  exists p,
    CF.predict self user item = Ok p
    /\ (p = global_mean self
        \/ (is_Some (user_id_to_idx self !! user)
            /\ is_Some (item_id_to_idx self !! item)
            /\ 1 <= p <= 5)).
Proof.
  intros Hfit.
  destruct (user_id_to_idx self !! user) as [user_idx|] eqn:Hu.
  2:{ exists (global_mean self). split; [|by left].
      unfold CF.predict, getitem. by rewrite Hu. }
  destruct (item_id_to_idx self !! item) as [item_idx|] eqn:Hi.
  2:{ exists (global_mean self). split; [|by left].
      unfold CF.predict, getitem. by rewrite Hu, Hi. }
  destruct (fitted_rows self user item _ _ Hfit Hu Hi)
    as (user_vec & item_vec & Hurow & Hirow & Hlen).
  eexists. split; [by eapply predict_rows|].
  right. split; [by eexists|]. split; [by eexists|].
  apply clip_bounds. discriminate.
Qed.

Lemma predict_total_on_fitted_witness :
  CF.fitted Sample.cf_fitted
  /\ exists p,
       CF.predict Sample.cf_fitted 1 20 = Ok p
       /\ (p = global_mean Sample.cf_fitted
           \/ (is_Some (user_id_to_idx Sample.cf_fitted !! 1%Z)
               /\ is_Some (item_id_to_idx Sample.cf_fitted !! 20%Z)
               /\ 1 <= p <= 5)).
Proof.
  split; [exact sample_cf_fitted|].
  apply (predict_total_on_fitted Sample.cf_fitted 1 20 sample_cf_fitted).
Defined.

End PredictTotal.

(** ** Rankings and single predictions agree *)

Section RankPredict.

Local Open Scope Q_scope.

Lemma dot_Ok_inv (u v : list Q) (d : Q) :
  Np.dot u v = Ok d -> d = Np.inner u v /\ length u = length v.
Proof.
  revert v d; induction u as [|x u IH]; intros [|y v] d Hd; try discriminate.
  - by injection Hd as <-.
  - cbn [Np.dot] in Hd. apply bind_Ok_inv in Hd as (r & Hr & Hd).
    injection Hd as <-. destruct (IH _ _ Hr) as [-> Hlen].
    split; [reflexivity | cbn; by rewrite Hlen].
Qed.

Lemma mapM_Ok_inv {A B} (f : A -> result B) (l : list A) (k : list B) :
  mapM f l = Ok k -> Forall2 (fun x y => f x = Ok y) l k.
Proof.
  revert k; induction l as [|x l IH]; intros k Hk.
  - injection Hk as <-. constructor.
  - cbn [mapM] in Hk. apply bind_Ok_inv in Hk as (y & Hy & Hk).
    apply bind_Ok_inv in Hk as (ys & Hys & Hk). injection Hk as <-.
    constructor; [exact Hy | by apply IH].
Qed.

Lemma enumerate_from_elem_of {A} (j i : nat) (l : list A) (x : A) :
  (i, x) ∈ enumerate_from j l -> exists k, i = (j + k)%nat /\ l !! k = Some x.
Proof.
  revert j; induction l as [|y l IH]; intros j Hin; cbn in Hin.
  - by apply elem_of_nil in Hin.
  - apply elem_of_cons in Hin as [[= -> ->]|Hin].
    + exists 0%nat. split; [lia | reflexivity].
    + destruct (IH _ Hin) as (k & -> & Hk). exists (S k). split; [lia | exact Hk].
Qed.

Lemma enumerate_elem_of {A} (i : nat) (l : list A) (x : A) :
  (i, x) ∈ enumerate l -> l !! i = Some x.
Proof.
  intros Hin. by apply enumerate_from_elem_of in Hin as (k & -> & Hk).
Qed.

Lemma Forall2_elem_of_l {A B} (P : A -> B -> Prop) (l : list A) (k : list B) (x : A) :
  Forall2 P l k -> x ∈ l -> exists y, y ∈ k /\ P x y.
Proof.
  intros Hlk Hin. apply list_elem_of_lookup in Hin as [i Hi].
  destruct (Forall2_lookup_l _ _ _ _ _ Hlk Hi) as (y & Hy & HP).
  exists y. split; [eapply list_elem_of_lookup_2; eauto | exact HP].
Qed.

Lemma inner_comm (u v : list Q) : Np.inner u v == Np.inner v u.
Proof.
  unfold Np.inner, Np.sum. revert v; induction u as [|x u IH]; intros [|y v];
    cbn; try reflexivity.
  rewrite (IH v). ring.
Qed.

Lemma clip_Qeq (x y lo hi : Q) : x == y -> Np.clip x lo hi == Np.clip y lo hi.
Proof. intros Hxy. unfold Np.clip. by rewrite Hxy. Qed.

(** Where a returned score of [recommend_items] comes from: the index of the
    item and its factor row. *)
Lemma recommend_items_score (self : CollaborativeFilteringModel)
    (user : Z) (n : Z) (exclude_items : option (gset Z))
    (recs : list (Z * Q)) (item : Z) (score : Q) :
  CF.recommend_items self user n exclude_items = Ok recs ->
  (item, score) ∈ recs ->
  exists user_idx user_vec idx row,
    user_id_to_idx self !! user = Some user_idx
    /\ user_factors self !! user_idx = Some user_vec
    /\ item_idx_to_id self !! idx = Some item
    /\ item_factors self !! idx = Some row
    /\ length row = length user_vec
    /\ score = global_mean self + Np.inner row user_vec.
Proof.
  unfold CF.recommend_items. intros Hrec Hin.
  destruct (user_id_to_idx self !! user) as [user_idx|];
    [|injection Hrec as <-; by apply elem_of_nil in Hin].
  apply bind_Ok_inv in Hrec as (user_vec & Hurow & Hrec).
  apply bind_Ok_inv in Hrec as (dots & Hdots & Hrec).
  apply bind_Ok_inv in Hrec as (recommendations & Hcollect & Hrec).
  injection Hrec as <-.
  unfold index in Hurow.
  destruct (user_factors self !! user_idx) as [uv|] eqn:Hu; [|discriminate].
  injection Hurow as ->.
  pose proof (elem_of_sublist _ _ _ Hin (slice_to_sublist _ _)) as Hin'.
  apply sort_desc_elem_of in Hin'.
  apply collect_Ok in Hcollect as (kept & Hsub & Hdec & _).
  destruct (Forall2_elem_of_l _ _ _ _ Hdec Hin') as ([idx sc] & Hkept & Hid & Hsc).
  cbn in Hid, Hsc. subst sc.
  pose proof (elem_of_sublist _ _ _ Hkept Hsub) as Hscored.
  apply enumerate_elem_of in Hscored.
  rewrite list_lookup_fmap in Hscored.
  destruct (dots !! idx) as [d|] eqn:Hd; [|discriminate].
  injection Hscored as <-.
  apply mapM_Ok_inv in Hdots.
  destruct (Forall2_lookup_r _ _ _ _ _ Hdots Hd) as (row & Hrow & Hdot).
  apply dot_Ok_inv in Hdot as [-> Hlen].
  by exists user_idx, user_vec, idx, row.
Qed.

(** A caller that asks [predict] about an item of a ranking gets the score of
    the ranking clipped to the rating scale, provided the codec sends the
    item back to the index it was decoded from. *)
Theorem predict_clips_ranked_score (self : CollaborativeFilteringModel)
    (user : Z) (n : Z) (exclude_items : option (gset Z))
    (recs : list (Z * Q)) (item : Z) (score : Q) :
  CF.recommend_items self user n exclude_items = Ok recs ->
  (item, score) ∈ recs ->
  (forall idx, item_idx_to_id self !! idx = Some item ->
               item_id_to_idx self !! item = Some idx) ->
  exists p, CF.predict self user item = Ok p /\ p == Np.clip score 1 5.
Proof.
  intros Hrec Hin Hcodec.
  destruct (recommend_items_score _ _ _ _ _ _ _ Hrec Hin)
    as (user_idx & user_vec & idx & row & Hu & Hurow & Hid & Hrow & Hlen & ->).
  eexists. split.
  - eapply predict_rows; eauto.
  - apply clip_Qeq. by rewrite (inner_comm user_vec row).
Qed.

Lemma predict_clips_ranked_score_witness :
  CF.recommend_items Sample.cf_fitted 1 2 (Some Sample.rated)
    = Ok [(10%Z, 3 + (2 * 3 + 0)); (20%Z, 3 + (-3 * 3 + 0))]
  /\ (20%Z, 3 + (-3 * 3 + 0)) ∈ [(10%Z, 3 + (2 * 3 + 0)); (20%Z, 3 + (-3 * 3 + 0))]
  /\ (forall idx, item_idx_to_id Sample.cf_fitted !! idx = Some 20%Z ->
                  item_id_to_idx Sample.cf_fitted !! 20%Z = Some idx)
  /\ exists p, CF.predict Sample.cf_fitted 1 20 = Ok p
               /\ p == Np.clip (3 + (-3 * 3 + 0)) 1 5.
Proof.
  assert (Hcodec : forall idx, item_idx_to_id Sample.cf_fitted !! idx = Some 20%Z ->
                               item_id_to_idx Sample.cf_fitted !! 20%Z = Some idx).
  { intros [|[|[|idx]]] Hidx; [discriminate Hidx | reflexivity | discriminate Hidx |].
    unfold Sample.cf_fitted in Hidx; cbn [item_idx_to_id] in Hidx.
    rewrite !lookup_insert_ne, lookup_singleton_ne in Hidx by lia.
    discriminate Hidx. }
  split; [reflexivity|]. split; [right; left|]. split; [exact Hcodec|].
  apply (predict_clips_ranked_score Sample.cf_fitted 1 2 (Some Sample.rated)
           [(10%Z, 3 + (2 * 3 + 0)); (20%Z, 3 + (-3 * 3 + 0))] 20 (3 + (-3 * 3 + 0)));
    [reflexivity | right; left | exact Hcodec].
Defined.

End RankPredict.

(** ** Sorted output in general *)

Section SortedOutput.

Local Open Scope Q_scope.

Lemma insert_desc_sorted {A} (key : A -> Q) (x : A) (l : list A) :
  StronglySorted (fun a b => key b <= key a) l ->
  StronglySorted (fun a b => key b <= key a) (insert_desc key x l).
Proof.
  induction l as [|y l IH]; intros Hs; cbn [insert_desc].
  - repeat constructor.
  - apply StronglySorted_cons in Hs as Hyl. destruct Hyl as [Hy Hl].
    destruct (Qle_bool (key y) (key x)) eqn:Hyx.
    + apply Qle_bool_iff in Hyx. apply StronglySorted_cons. split; [|exact Hs].
      constructor; [exact Hyx|].
      rewrite Forall_forall in Hy |- *. intros z Hz.
      eapply Qle_trans; [apply Hy, Hz | exact Hyx].
    + apply StronglySorted_cons. split; [|by apply IH].
      rewrite (insert_desc_perm key x l). constructor; [|exact Hy].
      apply Qlt_le_weak, Qnot_le_lt. intros Hle.
      apply Qle_bool_iff in Hle. congruence.
Qed.

Lemma sort_desc_sorted {A} (key : A -> Q) (l : list A) :
  StronglySorted (fun a b => key b <= key a) (sort_desc key l).
Proof.
  induction l as [|x l IH]; cbn [sort_desc]; [constructor|].
  by apply insert_desc_sorted.
Qed.

Lemma insert_asc_perm {A} (key : A -> Q) (x : A) (l : list A) :
  insert_asc key x l ≡ₚ x :: l.
Proof.
  induction l as [|y l IH]; cbn [insert_asc]; [reflexivity|].
  destruct (Qle_bool (key x) (key y)); [reflexivity|].
  rewrite IH. apply Permutation_swap.
Qed.

Lemma sort_asc_perm {A} (key : A -> Q) (l : list A) : sort_asc key l ≡ₚ l.
Proof.
  induction l as [|x l IH]; cbn [sort_asc]; [reflexivity|].
  by rewrite insert_asc_perm, IH.
Qed.

Lemma insert_asc_sorted {A} (key : A -> Q) (x : A) (l : list A) :
  StronglySorted (fun a b => key a <= key b) l ->
  StronglySorted (fun a b => key a <= key b) (insert_asc key x l).
Proof.
  induction l as [|y l IH]; intros Hs; cbn [insert_asc].
  - repeat constructor.
  - apply StronglySorted_cons in Hs as Hyl. destruct Hyl as [Hy Hl].
    destruct (Qle_bool (key x) (key y)) eqn:Hxy.
    + apply Qle_bool_iff in Hxy. apply StronglySorted_cons. split; [|exact Hs].
      constructor; [exact Hxy|].
      rewrite Forall_forall in Hy |- *. intros z Hz.
      eapply Qle_trans; [exact Hxy | apply Hy, Hz].
    + apply StronglySorted_cons. split; [|by apply IH].
      rewrite (insert_asc_perm key x l). constructor; [|exact Hy].
      apply Qlt_le_weak, Qnot_le_lt. intros Hle.
      apply Qle_bool_iff in Hle. congruence.
Qed.

Lemma sort_asc_sorted {A} (key : A -> Q) (l : list A) :
  StronglySorted (fun a b => key a <= key b) (sort_asc key l).
Proof.
  induction l as [|x l IH]; cbn [sort_asc]; [constructor|].
  by apply insert_asc_sorted.
Qed.

(** The first [n] of a descending sort: at most [n] entries of the list, in
    non-increasing order of the key. *)
Lemma top_n_spec {A} (key : A -> Q) (l : list A) (n : Z) :
  (0 <= n)%Z ->
  (Z.of_nat (length (slice_to (sort_desc key l) n)) <= n)%Z
  /\ (forall x, x ∈ slice_to (sort_desc key l) n -> x ∈ l)
  /\ StronglySorted (fun a b => key b <= key a) (slice_to (sort_desc key l) n).
Proof.
  intros Hn. split; [by apply slice_to_length|]. split.
  - intros x Hx. apply (sort_desc_elem_of key).
    exact (elem_of_sublist _ _ _ Hx (slice_to_sublist _ _)).
  - eapply StronglySorted_sublist_of; [apply slice_to_sublist|].
    apply sort_desc_sorted.
Qed.

Lemma list_index_None (x : Z) (l : list Z) : x ∉ l -> list_index x l = None.
Proof.
  intros Hnot. destruct (list_index x l) as [i|] eqn:Hi; [|reflexivity].
  exfalso. apply Hnot. apply list_index_lookup in Hi.
  eapply list_elem_of_lookup_2; eauto.
Qed.

Lemma list_index_lt (x : Z) (l : list Z) (i : nat) :
  list_index x l = Some i -> (i < length l)%nat.
Proof. intros Hi%list_index_lookup. eapply lookup_lt_Some; eauto. Qed.

Lemma filter_elem_of {A} (f : A -> bool) (l : list A) (x : A) :
  x ∈ List.filter f l <-> x ∈ l /\ f x = true.
Proof. rewrite !list_elem_of_In. apply filter_In. Qed.

End SortedOutput.

(** ** Content model: profile recommendations *)

Section Profile.

Local Open Scope Q_scope.

Variable sqrtQ : Q -> Q.

(** [recommend_based_on_profile]: with no liked item, or with liked items
    that are all unknown to the model, the answer is the empty list; every
    list it returns has at most [n] entries (for [n >= 0]), holds only
    recipes of the model that are not among the liked ones, and comes in
    non-increasing order of similarity; and the call returns whenever the
    feature matrix has a row for every recipe id. *)
Theorem profile_recommendations_spec (self : ContentBasedModel)
    (liked : list Z) (n : Z) :
  (0 <= n)%Z ->
  (liked = [] \/ Forall (fun item => item ∉ recipe_ids self) liked ->
     CB.recommend_based_on_profile sqrtQ self liked n = Ok [])
  /\ (forall recs,
        CB.recommend_based_on_profile sqrtQ self liked n = Ok recs ->
        (Z.of_nat (length recs) <= n)%Z
        /\ (forall p, p ∈ recs -> (p.1 ∉ liked) /\ p.1 ∈ recipe_ids self)
        /\ StronglySorted (fun p q : Z * Q => q.2 <= p.2) recs)
  /\ ((length (recipe_ids self) <= length (feature_matrix self))%nat ->
        exists recs, CB.recommend_based_on_profile sqrtQ self liked n = Ok recs).
Proof.
  intros Hn. unfold CB.recommend_based_on_profile. split; [|split].
  - intros [->|Hunknown]; [reflexivity|].
    destruct liked as [|item liked]; [reflexivity|].
    assert (Hnone : forall l, Forall (fun item => item ∉ recipe_ids self) l ->
              omap (fun item_id => list_index item_id (recipe_ids self)) l = []).
    { induction 1 as [|x l Hx _ IH]; [reflexivity|].
      cbn [omap list_omap]. cbv beta. by rewrite (list_index_None _ _ Hx). }
    by rewrite (Hnone _ Hunknown).
  - intros recs Hrec.
    assert (Hcases : recs = []
              \/ exists sims, recs = slice_to
                   (sort_desc snd
                      (List.filter (fun p : Z * Q => bool_decide (p.1 ∉ liked))
                                   (zip (recipe_ids self) sims))) n).
    { destruct liked as [|item liked]; [left; by injection Hrec|].
      destruct (omap _ (item :: liked)) as [|i idx]; [left; by injection Hrec|].
      apply bind_Ok_inv in Hrec as (rows & _ & Hrec). injection Hrec as <-.
      right. by eexists. }
    destruct Hcases as [->|[sims ->]].
    + split; [cbn; lia|]. split; [|constructor].
      intros p Hp. by apply elem_of_nil in Hp.
    + destruct (top_n_spec snd
                  (List.filter (fun p : Z * Q => bool_decide (p.1 ∉ liked))
                               (zip (recipe_ids self) sims)) n Hn)
        as (Hlen & Hin & Hsorted).
      split; [exact Hlen|]. split; [|exact Hsorted].
      intros p Hp. apply Hin, filter_elem_of in Hp as [Hzip Hliked].
      apply bool_decide_eq_true in Hliked. split; [exact Hliked|].
      destruct p as [rid s]. by apply elem_of_zip_l in Hzip.
  - intros Hrows. destruct liked as [|item liked]; [by eexists|].
    destruct (omap _ (item :: liked)) as [|i idx] eqn:Hidx; [by eexists|].
    destruct (mapM_index (feature_matrix self) (i :: idx)) as (rows & -> & _);
      [|rewrite bind_Ok; by eexists].
    rewrite <- Hidx. apply Forall_forall. intros j Hj.
    apply list_elem_of_omap in Hj as (x & _ & Hx).
    apply list_index_lt in Hx. lia.
Qed.

End Profile.

Lemma profile_recommendations_spec_witness :
  (0 <= 2)%Z
  /\ (forall recs,
        CB.recommend_based_on_profile Np.sqrt_floor Sample.cb [10%Z] 2 = Ok recs ->
        (Z.of_nat (length recs) <= 2)%Z
        /\ (forall p, p ∈ recs -> (p.1 ∉ [10%Z]) /\ p.1 ∈ recipe_ids Sample.cb)
        /\ StronglySorted (fun p q : Z * Q => (q.2 <= p.2)%Q) recs)
  /\ exists recs, CB.recommend_based_on_profile Np.sqrt_floor Sample.cb [10%Z] 2 = Ok recs.
Proof.
  split; [lia|].
  destruct (profile_recommendations_spec Np.sqrt_floor Sample.cb [10%Z] 2)
    as (_ & Hspec & Htotal); [lia|].
  split; [exact Hspec | apply Htotal; cbn; lia].
Defined.


(** ** Content model: similar items *)

Section SimilarSpec.

Local Open Scope Q_scope.

Variable sqrtQ : Q -> Q.

Lemma fmap_rev {A B} (f : A -> B) (l : list A) : f <$> rev l = rev (f <$> l).
Proof.
  induction l as [|x l IH]; [reflexivity|].
  cbn [rev fmap list_fmap]. by rewrite fmap_app, IH.
Qed.

Lemma elem_of_rev {A} (x : A) (l : list A) : x ∈ rev l <-> x ∈ l.
Proof. rewrite !list_elem_of_In. symmetry. apply in_rev. Qed.

Lemma fmap_slice {A B} (f : A -> B) (l : list A) (start stop : Z) :
  f <$> slice l start stop = slice (f <$> l) start stop.
Proof. unfold slice. by rewrite fmap_drop, fmap_take, length_fmap. Qed.

Lemma slice_sublist {A} (l : list A) (start stop : Z) : slice l start stop `sublist_of` l.
Proof.
  unfold slice. etransitivity; [apply sublist_drop | apply sublist_take].
Qed.

Lemma slice_from_1 {A} (l : list A) (stop : Z) :
  slice l 1 stop `sublist_of` drop 1 l.
Proof.
  unfold slice. rewrite (slice_bound_nonneg _ 1) by lia.
  change (Z.to_nat 1) with 1%nat.
  generalize (slice_bound (length l) stop). intros k.
  destruct l as [|x l]; [by rewrite take_nil|].
  destruct k; cbn; [apply sublist_nil_l | apply sublist_take].
Qed.

Lemma slice_1_length {A} (l : list A) (n : Z) :
  (0 <= n)%Z -> (Z.of_nat (length (slice l 1 (n + 1))) <= n)%Z.
Proof.
  intros Hn. unfold slice. rewrite length_drop, length_take.
  rewrite (slice_bound_nonneg _ (n + 1)) by lia.
  rewrite (slice_bound_nonneg _ 1) by lia. lia.
Qed.

Lemma StronglySorted_rev {A} (R : A -> A -> Prop) (l : list A) :
  StronglySorted R l -> StronglySorted (fun a b => R b a) (rev l).
Proof.
  induction 1 as [|x l _ IH Hx]; cbn [rev]; [constructor|].
  apply StronglySorted_app. split; [|split; [exact IH | repeat constructor]].
  intros a b Ha Hb. apply list_elem_of_singleton in Hb as ->.
  rewrite Forall_forall in Hx. apply Hx.
  exact (proj1 (elem_of_rev _ _) Ha).
Qed.

Lemma StronglySorted_Forall2_key {A B} (ka : A -> Q) (kb : B -> Q)
    (l : list A) (k : list B) :
  Forall2 (fun a b => kb b = ka a) l k ->
  StronglySorted (fun x y => ka y <= ka x) l ->
  StronglySorted (fun x y => kb y <= kb x) k.
Proof.
  induction 1 as [|a b l k Hab Hlk IH]; intros Hs; [constructor|].
  apply StronglySorted_cons in Hs as [Ha Hs].
  apply StronglySorted_cons. split; [|by apply IH].
  clear IH Hs. induction Hlk as [|a' b' l k Hab' _ IH]; [constructor|].
  apply Forall_cons in Ha as [Ha' Ha]. constructor; [|by apply IH].
  by rewrite Hab, Hab'.
Qed.

(** The pairs behind [argsort]: a rearrangement of the enumerated values in
    ascending order. *)
Lemma argsort_pairs (a : list Q) :
  Np.argsort a = (sort_asc snd (enumerate a)).*1
  /\ sort_asc snd (enumerate a) ≡ₚ enumerate a
  /\ StronglySorted (fun x y : nat * Q => x.2 <= y.2) (sort_asc snd (enumerate a)).
Proof.
  split; [reflexivity|]. split; [apply sort_asc_perm | apply sort_asc_sorted].
Qed.

(** What [get_similar_items] returns, in terms of the sorted pairs. *)
Lemma get_similar_items_Ok_inv (self : ContentBasedModel) (item : Z) (n : Z)
    (recs : list (Z * Q)) (item_idx : nat) :
  list_index item (recipe_ids self) = Some item_idx ->
  CB.get_similar_items sqrtQ self item n = Ok recs ->
  exists item_vector,
    feature_matrix self !! item_idx = Some item_vector
    /\ Forall2 (fun (iv : nat * Q) (r : Z * Q) =>
                  recipe_ids self !! iv.1 = Some r.1 /\ r.2 = iv.2)
         (slice (rev (sort_asc snd
                        (enumerate (CB.cosine_similarity sqrtQ item_vector
                                      (feature_matrix self))))) 1 (n + 1))
         recs.
Proof.
  intros Hidx. unfold CB.get_similar_items, CB.get_similar_items_with.
  rewrite Hidx. intros Hrec.
  apply bind_Ok_inv in Hrec as (item_vector & Hrow & Hrec).
  unfold index in Hrow.
  destruct (feature_matrix self !! item_idx) as [v|]; [|discriminate].
  injection Hrow as ->. exists item_vector. split; [reflexivity|].
  set (sims := CB.cosine_similarity sqrtQ item_vector (feature_matrix self)) in *.
  unfold Np.argsort in Hrec. rewrite <- fmap_rev, <- fmap_slice in Hrec.
  apply mapM_Ok_inv in Hrec. apply Forall2_fmap_l in Hrec.
  assert (Hpairs : Forall (fun iv : nat * Q => sims !! iv.1 = Some iv.2)
                     (slice (rev (sort_asc snd (enumerate sims))) 1 (n + 1))).
  { apply Forall_forall. intros [i v] Hin. cbn.
    apply enumerate_elem_of. rewrite <- (sort_asc_perm snd (enumerate sims)).
    apply (proj1 (elem_of_rev _ _)).
    exact (elem_of_sublist _ _ _ Hin (slice_sublist _ _ _)). }
  revert Hpairs. induction Hrec as [|iv r l k Hr _ IH]; intros Hpairs; [constructor|].
  apply Forall_cons in Hpairs as [Hiv Hpairs]. constructor; [|by apply IH].
  cbn in Hr. apply bind_Ok_inv in Hr as (rid & Hrid & Hr).
  apply bind_Ok_inv in Hr as (s & Hs & Hr). injection Hr as <-. cbn.
  unfold index in Hrid, Hs. rewrite Hiv in Hs. injection Hs as <-.
  destruct (recipe_ids self !! iv.1); [|discriminate]. by injection Hrid as ->.
Qed.

(** [get_similar_items]: an unknown recipe gets the empty list; every list
    returned has at most [n] entries (for [n >= 0]), holds recipes of the
    model only, and comes in non-increasing order of similarity; and the call
    returns whenever the feature matrix has exactly one row per recipe id. *)
Theorem similar_items_spec (self : ContentBasedModel) (item : Z) (n : Z) :
  (0 <= n)%Z ->
  (item ∉ recipe_ids self -> CB.get_similar_items sqrtQ self item n = Ok [])
  /\ (forall recs,
        CB.get_similar_items sqrtQ self item n = Ok recs ->
        (Z.of_nat (length recs) <= n)%Z
        /\ (forall p, p ∈ recs -> p.1 ∈ recipe_ids self)
        /\ StronglySorted (fun p q : Z * Q => q.2 <= p.2) recs)
  /\ (length (recipe_ids self) = length (feature_matrix self) ->
        exists recs, CB.get_similar_items sqrtQ self item n = Ok recs).
Proof.
  intros Hn. split; [|split].
  - intros Hnot. unfold CB.get_similar_items, CB.get_similar_items_with.
    by rewrite (list_index_None _ _ Hnot).
  - intros recs Hrec.
    destruct (list_index item (recipe_ids self)) as [item_idx|] eqn:Hidx.
    2:{ unfold CB.get_similar_items, CB.get_similar_items_with in Hrec.
        rewrite Hidx in Hrec. injection Hrec as <-.
        split; [cbn; lia|]. split; [|constructor].
        intros p Hp. by apply elem_of_nil in Hp. }
    destruct (get_similar_items_Ok_inv _ _ _ _ _ Hidx Hrec) as (v & _ & Hpairs).
    split; [|split].
    + rewrite <- (Forall2_length _ _ _ Hpairs). by apply slice_1_length.
    + intros p Hp. apply list_elem_of_lookup in Hp as [i Hi].
      destruct (Forall2_lookup_r _ _ _ _ _ Hpairs Hi) as (iv & _ & Hrid & _).
      eapply list_elem_of_lookup_2; eauto.
    + eapply (StronglySorted_Forall2_key snd snd); [|].
      * eapply Forall2_impl; [exact Hpairs|]. by intros iv r [_ ?].
      * eapply StronglySorted_sublist_of; [apply slice_sublist|].
        apply (StronglySorted_rev (fun x y : nat * Q => x.2 <= y.2)).
        apply sort_asc_sorted.
  - intros Hlen. unfold CB.get_similar_items, CB.get_similar_items_with.
    destruct (list_index item (recipe_ids self)) as [item_idx|] eqn:Hidx; [|by eexists].
    destruct (lookup_lt_is_Some_2 (feature_matrix self) item_idx) as [v Hv].
    { rewrite <- Hlen. by eapply list_index_lt. }
    rewrite (index_Some _ _ _ Hv), bind_Ok.
    set (sims := CB.cosine_similarity sqrtQ v (feature_matrix self)).
    assert (Hsims : length sims = length (recipe_ids self)).
    { unfold sims, CB.cosine_similarity. by rewrite length_map. }
    assert (Hrange : Forall (fun i => (i < length sims)%nat)
                       (slice (rev (Np.argsort sims)) 1 (n + 1))).
    { apply Forall_forall. intros i Hi.
      pose proof (elem_of_sublist _ _ _ Hi (slice_sublist _ _ _)) as Hi'.
      apply (proj1 (elem_of_rev _ _)) in Hi'.
      unfold Np.argsort in Hi'. rewrite (sort_asc_perm snd) in Hi'.
      unfold enumerate in Hi'. rewrite enumerate_from_fst in Hi'.
      apply elem_of_seq in Hi'. lia. }
    induction Hrange as [|i idx Hi _ [recs IH]]; [by eexists|].
    cbn [mapM].
    destruct (lookup_lt_is_Some_2 (recipe_ids self) i) as [rid Hrid]; [lia|].
    destruct (lookup_lt_is_Some_2 sims i Hi) as [s Hs].
    rewrite (index_Some _ _ _ Hrid), bind_Ok, (index_Some _ _ _ Hs), bind_Ok.
    rewrite bind_Ok, IH. by eexists.
Qed.

End SimilarSpec.

Lemma similar_items_spec_witness :
  (0 <= 2)%Z
  /\ (forall recs,
        CB.get_similar_items Np.sqrt_floor Sample.cb 30 2 = Ok recs ->
        (Z.of_nat (length recs) <= 2)%Z
        /\ (forall p, p ∈ recs -> p.1 ∈ recipe_ids Sample.cb)
        /\ StronglySorted (fun p q : Z * Q => (q.2 <= p.2)%Q) recs)
  /\ exists recs, CB.get_similar_items Np.sqrt_floor Sample.cb 30 2 = Ok recs.
Proof.
  split; [lia|].
  destruct (similar_items_spec Np.sqrt_floor Sample.cb 30 2) as (_ & Hspec & Htotal); [lia|].
  split; [exact Hspec | by apply Htotal].
Defined.

Section SimilarNoTies.

Local Open Scope Q_scope.

Variable sqrtQ : Q -> Q.

(** When no other recipe is as similar to the query recipe as the query
    recipe is to itself, and the recipe ids are distinct, the query recipe
    is not in the list that [get_similar_items] returns: dropping the first
    position of the descending order then does exclude it. *)
Theorem similar_items_excludes_query_without_ties (self : ContentBasedModel)
    (item : Z) (n : Z) (item_idx : nat) (v : list Q) (recs : list (Z * Q)) :
  NoDup (recipe_ids self) ->
  list_index item (recipe_ids self) = Some item_idx ->
  feature_matrix self !! item_idx = Some v ->
  (forall j row, j <> item_idx -> feature_matrix self !! j = Some row ->
                 CB.cos sqrtQ v row < CB.cos sqrtQ v v) ->
  CB.get_similar_items sqrtQ self item n = Ok recs ->
  item ∉ recs.*1.
Proof.
  intros Hnd Hidx Hv Hstrict Hrec.
  destruct (get_similar_items_Ok_inv sqrtQ _ _ _ _ _ Hidx Hrec) as (v' & Hv' & Hpairs).
  rewrite Hv in Hv'. injection Hv' as <-.
  set (sims := CB.cosine_similarity sqrtQ v (feature_matrix self)) in *.
  set (P := sort_asc snd (enumerate sims)) in *.
  assert (Hsims : forall j x, (j, x) ∈ rev P -> sims !! j = Some x).
  { intros j x Hin. apply enumerate_elem_of.
    rewrite <- (sort_asc_perm snd (enumerate sims)).
    exact (proj1 (elem_of_rev _ _) Hin). }
  assert (Hself : sims !! item_idx = Some (CB.cos sqrtQ v v)).
  { unfold sims, CB.cosine_similarity. by rewrite list_lookup_fmap, Hv. }
  assert (Hin : (item_idx, CB.cos sqrtQ v v) ∈ rev P).
  { apply elem_of_rev. unfold P. rewrite (sort_asc_perm snd).
    clear -Hself. unfold enumerate.
    assert (Hgen : forall (l : list Q) k i x,
              l !! i = Some x -> ((k + i)%nat, x) ∈ enumerate_from k l).
    { induction l as [|y l IH]; intros k [|i] x Hl; try discriminate; cbn.
      - injection Hl as ->. rewrite Nat.add_0_r. by left.
      - right. replace (k + S i)%nat with (S k + i)%nat by lia. by apply IH. }
    exact (Hgen _ 0%nat _ _ Hself). }
  assert (Hdesc : StronglySorted (fun a b : nat * Q => b.2 <= a.2) (rev P)).
  { apply (StronglySorted_rev (fun x y : nat * Q => x.2 <= y.2)), sort_asc_sorted. }
  assert (Hndidx : NoDup (rev P).*1).
  { rewrite fmap_rev. apply NoDup_ListNoDup, NoDup_rev, NoDup_ListNoDup.
    unfold P. rewrite (sort_asc_perm snd). unfold enumerate.
    rewrite enumerate_from_fst. apply NoDup_seq. }
  pose proof (slice_from_1 (rev P) (n + 1)) as Hsub.
  destruct (rev P) as [|z T] eqn:HrevP; [by apply elem_of_nil in Hin|].
  cbn [drop] in Hsub.
  assert (Hz : z = (item_idx, CB.cos sqrtQ v v)).
  { apply elem_of_cons in Hin as [Hin|Hin]; [done|].
    exfalso. destruct z as [j x].
    apply StronglySorted_cons in Hdesc as [Hz _].
    rewrite Forall_forall in Hz. specialize (Hz _ Hin). cbn in Hz.
    pose proof (Hsims j x ltac:(by left)) as Hj.
    cbn [fmap list_fmap fst] in Hndidx. apply NoDup_cons in Hndidx as [Hjnot _].
    assert (Hne : j <> item_idx).
    { intros ->. apply Hjnot. apply list_elem_of_fmap.
      by exists (item_idx, CB.cos sqrtQ v v). }
    unfold sims, CB.cosine_similarity in Hj. rewrite list_lookup_fmap in Hj.
    destruct (feature_matrix self !! j) as [row|] eqn:Hrow; [|discriminate].
    injection Hj as <-. pose proof (Hstrict j row Hne Hrow) as Hlt.
    exact (Qlt_not_le _ _ Hlt Hz). }
  subst z. cbn [fmap list_fmap fst] in Hndidx.
  apply NoDup_cons in Hndidx as [Hidxnot _].
  intros Hitem. apply list_elem_of_fmap in Hitem as ([rid s] & Hrid & Hr).
  cbn in Hrid. subst rid. apply list_elem_of_lookup in Hr as [i Hi].
  destruct (Forall2_lookup_r _ _ _ _ _ Hpairs Hi) as ([j x] & Hjx & Hlook & _).
  cbn in Hlook. apply Hidxnot.
  apply list_index_lookup in Hidx.
  rewrite <- (NoDup_lookup _ _ _ _ Hnd Hlook Hidx).
  apply list_elem_of_fmap. exists (j, x). split; [reflexivity|].
  eapply elem_of_sublist; [|exact Hsub]. eapply list_elem_of_lookup_2; eauto.
Qed.

End SimilarNoTies.

Lemma similar_items_excludes_query_without_ties_witness :
  NoDup (recipe_ids Sample.cb)
  /\ list_index 10 (recipe_ids Sample.cb) = Some 0%nat
  /\ feature_matrix Sample.cb !! 0%nat = Some [1; 0]%Q
  /\ (forall j row, j <> 0%nat -> feature_matrix Sample.cb !! j = Some row ->
                    (CB.cos Np.sqrt_floor [1; 0] row < CB.cos Np.sqrt_floor [1; 0] [1; 0])%Q)
  /\ exists recs,
       CB.get_similar_items Np.sqrt_floor Sample.cb 10 2 = Ok recs
       /\ 10%Z ∉ recs.*1.
Proof.
  assert (Hnd : NoDup (recipe_ids Sample.cb)).
  { apply (bool_decide_unpack _). vm_compute. exact I. }
  assert (Hstrict : forall j row, j <> 0%nat -> feature_matrix Sample.cb !! j = Some row ->
            (CB.cos Np.sqrt_floor [1; 0] row < CB.cos Np.sqrt_floor [1; 0] [1; 0])%Q).
  { intros [|[|[|j]]] row Hj Hrow; [done|..]; try discriminate Hrow;
      injection Hrow as <-; reflexivity. }
  split; [exact Hnd|]. split; [reflexivity|]. split; [reflexivity|].
  split; [exact Hstrict|].
  eexists. split; [vm_compute; reflexivity|].
  apply (similar_items_excludes_query_without_ties Np.sqrt_floor Sample.cb 10 2 0 [1; 0]%Q
           _ Hnd);
    [reflexivity | reflexivity | exact Hstrict | vm_compute; reflexivity].
Defined.

(** ** Hybrid fusion: what [recommend] returns *)

Section RecommendOutput.

Local Open Scope Q_scope.

Variable sqrtQ : Q -> Q.

Lemma hybrid_scores_ids (self : HybridRecommender) (cf_scores cb_scores : gmap Z Q)
    (rated : gset Z) (all_items : list Z) :
  (Hybrid.hybrid_scores self cf_scores cb_scores rated all_items).*1
    `sublist_of` all_items.
Proof.
  unfold Hybrid.hybrid_scores. induction all_items as [|item l IH]; [constructor|].
  cbn [omap list_omap]. cbv beta. case_bool_decide; cbn; by constructor.
Qed.

Lemma rated_items_elem_of (df : list Interaction) (user : Z) (x : Interaction) :
  x ∈ df -> user_id x = user -> recipe_id x ∈ Hybrid.rated_items df user.
Proof.
  intros Hx Hu. unfold Hybrid.rated_items, Hybrid.user_interactions.
  apply elem_of_list_to_set, list_elem_of_fmap. exists x. split; [reflexivity|].
  apply filter_elem_of. split; [exact Hx | by apply bool_decide_eq_true].
Qed.

(** Every list that [recommend] returns has at most [n] entries (for
    [n >= 0]), names no recipe twice, comes in non-increasing order of the
    hybrid score, and holds no recipe that the user has a row for in the
    interaction table. *)
Theorem recommend_output_spec (self : HybridRecommender) (user : Z) (n : Z)
    (recs : list (Z * Q)) :
  (0 <= n)%Z ->
  Hybrid.recommend sqrtQ self user n = Ok recs ->
  (Z.of_nat (length recs) <= n)%Z
  /\ NoDup recs.*1
  /\ StronglySorted (fun p q : Z * Q => q.2 <= p.2) recs
  /\ (forall df x, interactions_df self = Some df ->
        x ∈ df -> user_id x = user -> recipe_id x ∉ recs.*1).
Proof.
  intros Hn Hrec.
  apply recommend_Ok_inv in Hrec as (df & cf & cb & Hdf & _ & _ & ->).
  set (scores := Hybrid.hybrid_scores _ _ _ _ _).
  destruct (top_n_spec snd scores n Hn) as (Hlen & Hin & Hsorted).
  split; [exact Hlen|]. split; [|split; [exact Hsorted|]].
  - apply (sublist_NoDup _ (sort_desc snd scores).*1);
      [|apply fmap_sublist, slice_to_sublist].
    rewrite (sort_desc_perm snd scores).
    apply (sublist_NoDup _ (elements (dom (dict_of_pairs cf : gmap Z Q)
                                     ∪ dom (dict_of_pairs cb : gmap Z Q))));
      [apply NoDup_elements | apply hybrid_scores_ids].
  - intros df' x Hdf' Hx Hu Hmem. rewrite Hdf in Hdf'. injection Hdf' as <-.
    apply list_elem_of_fmap in Hmem as ([item s] & Hitem & Hp). cbn in Hitem.
    apply Hin, hybrid_scores_elem_of in Hp as (_ & Hnot & _).
    apply Hnot. subst item. by apply rated_items_elem_of.
Qed.

Lemma filter_none {A} (f : A -> bool) (l : list A) :
  (forall x, x ∈ l -> f x = false) -> List.filter f l = [].
Proof.
  induction l as [|x l IH]; intros Hall; [reflexivity|]. cbn.
  rewrite (Hall x) by (by left). apply IH. intros y Hy. apply Hall. by right.
Qed.

(** Cold start of [recommend]: for a user whom the collaborative codec does
    not know and who has no rating of 4 or more in the interaction table,
    both sub-models propose nothing and the result is the empty list. *)
Theorem recommend_cold_start (self : HybridRecommender) (df : list Interaction)
    (user : Z) (n : Z) :
  interactions_df self = Some df ->
  user_id_to_idx (cf_model self) !! user = None ->
  (forall x, x ∈ df -> user_id x = user -> rating x < 4) ->
  Hybrid.recommend sqrtQ self user n = Ok [].
Proof.
  intros Hdf Hunknown Hnolike. unfold Hybrid.recommend. rewrite Hdf.
  unfold Hybrid.cf_recs, CF.recommend_items. rewrite Hunknown, bind_Ok.
  assert (Hliked : Hybrid.liked_items df user = []).
  { unfold Hybrid.liked_items. rewrite filter_none; [reflexivity|].
    intros x Hx. apply filter_elem_of in Hx as [Hx Hu].
    apply bool_decide_eq_true in Hu.
    destruct (Qle_bool 4 (rating x)) eqn:Hle; [|reflexivity].
    apply Qle_bool_iff in Hle. exfalso.
    exact (Qlt_not_le _ _ (Hnolike x Hx Hu) Hle). }
  unfold Hybrid.cb_recs. rewrite Hliked. cbn [CB.recommend_based_on_profile].
  rewrite bind_Ok. unfold dict_of_pairs. cbn [fold_left].
  rewrite dom_empty_L, (left_id_L ∅ (∪)), elements_empty.
  unfold Hybrid.hybrid_scores, slice_to. cbn [omap list_omap sort_desc length].
  by rewrite take_nil.
Qed.

End RecommendOutput.

Lemma recommend_output_spec_witness :
  (0 <= 5)%Z
  /\ exists recs,
       Hybrid.recommend Np.sqrt_floor Sample.recommender 1 5 = Ok recs
       /\ (Z.of_nat (length recs) <= 5)%Z
       /\ NoDup recs.*1
       /\ StronglySorted (fun p q : Z * Q => (q.2 <= p.2)%Q) recs
       /\ (forall df x, interactions_df Sample.recommender = Some df ->
             x ∈ df -> user_id x = 1%Z -> recipe_id x ∉ recs.*1).
Proof.
  split; [lia|]. eexists. split; [vm_compute; reflexivity|].
  apply (recommend_output_spec Np.sqrt_floor Sample.recommender 1 5); [lia|].
  vm_compute. reflexivity.
Defined.

Lemma recommend_cold_start_witness :
  interactions_df Sample.recommender = Some Sample.interactions
  /\ user_id_to_idx (cf_model Sample.recommender) !! 7%Z = None
  /\ (forall x, x ∈ Sample.interactions -> user_id x = 7%Z -> (rating x < 4)%Q)
  /\ Hybrid.recommend Np.sqrt_floor Sample.recommender 7 5 = Ok [].
Proof.
  assert (Hnolike : forall x, x ∈ Sample.interactions -> user_id x = 7%Z -> (rating x < 4)%Q).
  { intros x Hx Hu. apply list_elem_of_singleton in Hx as ->. reflexivity. }
  split; [reflexivity|]. split; [reflexivity|]. split; [exact Hnolike|].
  apply (recommend_cold_start Np.sqrt_floor Sample.recommender Sample.interactions 7 5);
    [reflexivity | reflexivity | exact Hnolike].
Defined.

(** ** A loaded recommender has no interaction table *)

Section Loaded.

Import Snapshot.

Ltac bind_inv H :=
  repeat (let x := fresh "x" in let Hx := fresh "Hx" in
          apply bind_Ok_inv in H as (x & Hx & H)).

(** Whatever the directory holds, a recommender that [load_model] returns
    has no recipe table and no interaction table, and [recommend] on it
    raises [TypeError] for every user: the snapshot serves [predict] and
    [recommend_items] only. *)
Theorem loaded_recommender_cannot_recommend (sqrtQ : Q -> Q) (path : string)
    (disk : fs) (loaded : HybridRecommender) (user n : Z) :
  load_model path disk = Ok loaded ->
  interactions_df loaded = None
  /\ recipes_df loaded = None
  /\ Hybrid.recommend sqrtQ loaded user n = Raise TypeError.
Proof.
  unfold load_model. intros Hload. bind_inv Hload. injection Hload as <-.
  repeat split.
Qed.

End Loaded.

Lemma loaded_recommender_cannot_recommend_witness :
  Snapshot.load_model "models" (Snapshot.save_model Sample.recommender "models" ∅)
    = Ok {| cf_model := cf_model Sample.recommender;
            cb_model := cb_model Sample.recommender;
            cf_weight := cf_weight Sample.recommender;
            cb_weight := cb_weight Sample.recommender;
            recipes_df := None;
            interactions_df := None;
            id_mappings := id_mappings Sample.recommender |}
  /\ Hybrid.recommend Np.sqrt_floor
       {| cf_model := cf_model Sample.recommender;
          cb_model := cb_model Sample.recommender;
          cf_weight := cf_weight Sample.recommender;
          cb_weight := cb_weight Sample.recommender;
          recipes_df := None;
          interactions_df := None;
          id_mappings := id_mappings Sample.recommender |} 1 5 = Raise TypeError.
Proof.
  split; [apply load_saved|].
  exact (proj2 (proj2 (loaded_recommender_cannot_recommend Np.sqrt_floor "models"
                         (Snapshot.save_model Sample.recommender "models" ∅) _ 1 5
                         (load_saved Sample.recommender "models" ∅)))).
Defined.

Lemma recommend_scores_bounds_witness :
  (0 <= cf_weight Sample.recommender)%Q
  /\ (0 <= cb_weight Sample.recommender)%Q
  /\ exists recs,
       Hybrid.recommend Np.sqrt_floor Sample.recommender 1 5 = Ok recs
       /\ Forall (fun p => (0 <= p.2)%Q) recs.
Proof.
  split; [discriminate|]. split; [discriminate|].
  eexists. split; [vm_compute; reflexivity|].
  refine (proj1 (recommend_scores_bounds Np.sqrt_floor Sample.recommender 1 5 _ _ _ _));
    [discriminate | discriminate | vm_compute; reflexivity].
Defined.

(** ** The label encoder and the shape of the matrix *)

Section Encoder.

Import Preprocessor.
Local Open Scope Q_scope.

Lemma StronglySorted_lookup {A} (R : A -> A -> Prop) (l : list A) (i j : nat) (a b : A) :
  StronglySorted R l -> (i < j)%nat -> l !! i = Some a -> l !! j = Some b -> R a b.
Proof.
  intros Hs. revert i j. induction Hs as [|x l _ IH Hx]; intros i j Hij Hi Hj.
  - discriminate.
  - destruct j as [|j]; [lia|]. cbn in Hj. destruct i as [|i].
    + injection Hi as <-. rewrite Forall_forall in Hx. apply Hx.
      eapply list_elem_of_lookup_2; eauto.
    + cbn in Hi. apply (IH i j); [lia | done | done].
Qed.

Lemma encode_lookup (y : list Z) (v : Z) :
  v ∈ y -> unique y !! encode (unique y) v = Some v.
Proof.
  intros Hv. destruct (list_index_elem_of v (unique y)) as [i Hi];
    [by apply unique_elem_of|].
  unfold encode. rewrite Hi. cbn. by apply list_index_lookup.
Qed.

(** The label encoder numbers the distinct values in ascending order: the
    index of a value of the column is below the number of classes and
    decodes to the value again, every index below the number of classes is
    the index of the class it holds, and a smaller value gets a smaller
    index (the indices do not follow the order of first appearance). *)
Theorem label_encoder_round_trip (y : list Z) (u v : Z) :
  u ∈ y -> v ∈ y ->
  fit_transform y = Ok (encode (unique y) <$> y)
  /\ unique y !! encode (unique y) u = Some u
  /\ (encode (unique y) u < length (unique y))%nat
  /\ (forall i c, unique y !! i = Some c -> encode (unique y) c = i)
  /\ ((u < v)%Z <-> (encode (unique y) u < encode (unique y) v)%nat)
  /\ (encode (unique y) u = encode (unique y) v -> u = v).
Proof.
  intros Hu Hv.
  pose proof (encode_lookup y u Hu) as Hlu.
  pose proof (encode_lookup y v Hv) as Hlv.
  split; [apply fit_transform_encode|]. split; [exact Hlu|].
  split; [by apply encode_lt|]. split; [|split].
  - intros i c Hc. unfold encode.
    by rewrite (list_index_NoDup c _ i (unique_NoDup y) Hc).
  - split.
    + intros Huv.
      destruct (Nat.lt_trichotomy (encode (unique y) u) (encode (unique y) v))
        as [Hlt|[Heq|Hgt]]; [exact Hlt | |].
      * rewrite Heq, Hlv in Hlu. injection Hlu as ->. lia.
      * pose proof (StronglySorted_lookup _ _ _ _ _ _ (unique_sorted y) Hgt Hlv Hlu). lia.
    + intros Hlt. exact (StronglySorted_lookup _ _ _ _ _ _ (unique_sorted y) Hlt Hlu Hlv).
  - intros Heq. rewrite Heq, Hlv in Hlu. by injection Hlu.
Qed.

Lemma label_encoder_round_trip_witness :
  30%Z ∈ [30; 7; 30]%Z /\ 7%Z ∈ [30; 7; 30]%Z
  /\ fit_transform [30; 7; 30]%Z = Ok (encode (unique [30; 7; 30]%Z) <$> [30; 7; 30]%Z)
  /\ ((7 < 30)%Z <-> (encode (unique [30; 7; 30]%Z) 7 < encode (unique [30; 7; 30]%Z) 30)%nat).
Proof.
  assert (H30 : 30%Z ∈ [30; 7; 30]%Z) by (by left).
  assert (H7 : 7%Z ∈ [30; 7; 30]%Z) by (right; by left).
  split; [exact H30|]. split; [exact H7|].
  destruct (label_encoder_round_trip [30; 7; 30]%Z 7 30 H7 H30)
    as (Hfit & _ & _ & _ & Hord & _).
  split; [exact Hfit | exact Hord].
Defined.

Lemma fold_add_entry_dom (es : list (nat * nat * Q)) (acc : gmap (nat * nat) Q) :
  dom (fold_left add_entry es acc) = list_to_set es.*1 ∪ dom acc.
Proof.
  revert acc; induction es as [|e es IH]; intros acc; cbn.
  - by rewrite (left_id_L ∅ (∪)).
  - rewrite IH. unfold add_entry. rewrite dom_insert_L.
    apply set_eq. intros x. rewrite !elem_of_union. tauto.
Qed.

(** [create_user_item_matrix] raises [ZeroDivisionError] on a table without
    rows, and only there.  For a table with a row it returns a matrix that
    has one row per distinct user and one column per distinct recipe of the
    table; its stored coordinates are exactly the encoded pairs of the rows
    of the table, all within the shape; and a position for which the table
    has no row reads as 0. *)
Theorem matrix_shape_and_support (df : list Interaction) :
  let users := unique (user_id <$> df) in
  let recipes := unique (recipe_id <$> df) in
  let coords x := (encode users (user_id x), encode recipes (recipe_id x)) in
  (create_user_item_matrix df = Raise ZeroDivisionError <-> df = [])
  /\ (df <> [] ->
      exists M,
        create_user_item_matrix df = Ok M
        /\ shape M = (length users, length recipes)
        /\ (forall k, is_Some (entries M !! k) <-> exists x, x ∈ df /\ coords x = k)
        /\ (forall k, is_Some (entries M !! k) ->
              (k.1 < (shape M).1)%nat /\ (k.2 < (shape M).2)%nat)
        /\ (forall i j, (forall x, x ∈ df -> coords x <> (i, j)) -> csr_get M i j = 0)).
Proof.
  intros users recipes coords. split; [apply create_user_item_matrix_raises|].
  intros Hne. eexists. split; [by apply create_user_item_matrix_Ok|].
  cbn [shape entries]. fold users recipes.
  assert (Hsupport : forall k,
            is_Some (fold_left add_entry
                       ((fun x => (encode users (user_id x),
                                   encode recipes (recipe_id x), rating x)) <$> df)
                       ∅ !! k)
            <-> exists x, x ∈ df /\ coords x = k).
  { intros k. rewrite <- elem_of_dom, fold_add_entry_dom, dom_empty_L.
    rewrite (right_id_L ∅ (∪)), elem_of_list_to_set, <- list_fmap_compose.
    rewrite list_elem_of_fmap. split; intros (x & Hk & Hx); exists x; by split. }
  split; [reflexivity|]. split; [exact Hsupport|]. split.
  - intros k (x & Hx & <-)%Hsupport. unfold coords. cbn.
    split; apply encode_lt, list_elem_of_fmap; by exists x.
  - intros i j Habsent. unfold csr_get, get. cbn [entries].
    destruct (fold_left _ _ _ !! (i, j)) as [v|] eqn:Hlook; [|reflexivity].
    exfalso. destruct (proj1 (Hsupport (i, j))) as (x & Hx & Hk); [by eexists|].
    exact (Habsent x Hx Hk).
Qed.

End Encoder.

Lemma matrix_shape_and_support_witness :
  Sample.repeated <> []
  /\ exists M,
       Preprocessor.create_user_item_matrix Sample.repeated = Ok M
       /\ Preprocessor.shape M
          = (length (Preprocessor.unique (user_id <$> Sample.repeated)),
             length (Preprocessor.unique (recipe_id <$> Sample.repeated))).
Proof.
  assert (Hne : Sample.repeated <> []) by discriminate.
  split; [exact Hne|].
  destruct (proj2 (matrix_shape_and_support Sample.repeated) Hne) as (M & HM & Hshape & _).
  exists M. by split.
Defined.

(** ** The sampled users are eligible *)

Section SampledEligible.

Variable rng : Type.
Variable random_interval : rng -> nat -> nat * rng.

(** Every user that the sampling step draws has rows in the train table and
    at least two rows in the test table; the test [len(user_test) < 2] in the
    loop over the sample therefore never skips a user. *)
Theorem sampled_users_are_eligible (test train : list Interaction) (s s' : rng)
    (sampled : list Z) (u : Z) :
  Eval.sampled_users rng random_interval test train s = (Ok sampled, s') ->
  u ∈ sampled ->
  u ∈ user_id <$> train
  /\ u ∈ user_id <$> test
  /\ (2 <= length (List.filter (fun r => bool_decide (user_id r = u)) test))%nat.
Proof.
  unfold Eval.sampled_users. intros Hsample Hu.
  destruct (choice_spec rng random_interval (Eval.valid_test_users test train)
              (Nat.min 500 (length (Eval.valid_test_users test train))) s)
    as (l & s'' & Hchoice & _ & _ & Hsub);
    [apply valid_test_users_NoDup | lia |].
  rewrite Hchoice in Hsample. injection Hsample as -> ->.
  apply Hsub in Hu. unfold Eval.valid_test_users, Eval.common_users in Hu.
  apply filter_elem_of in Hu as [Hcommon Hcount].
  apply elem_of_elements, elem_of_intersection in Hcommon as [Htest Htrain].
  apply elem_of_list_to_set in Htest, Htrain.
  split; [exact Htrain|]. split; [exact Htest|]. by apply Nat.leb_le.
Qed.

End SampledEligible.

Lemma sampled_users_are_eligible_witness :
  let test := Sample.one_row_each 3 ++ Sample.one_row_each 3 in
  let train := Sample.one_row_each 3 in
  Eval.sampled_users N Sample.lcg test train 1%N = (Ok [1%Z; 2%Z; 3%Z], 377401575%N)
  /\ 2%Z ∈ [1%Z; 2%Z; 3%Z]
  /\ (2 <= length (List.filter (fun r => bool_decide (user_id r = 2%Z)) test))%nat.
Proof.
  intros test train.
  assert (Hrun : Eval.sampled_users N Sample.lcg test train 1%N
                 = (Ok [1%Z; 2%Z; 3%Z], 377401575%N)) by (vm_compute; reflexivity).
  assert (Hin : 2%Z ∈ [1%Z; 2%Z; 3%Z]) by (right; by left).
  split; [exact Hrun|]. split; [exact Hin|].
  exact (proj2 (proj2 (sampled_users_are_eligible N Sample.lcg test train 1%N _ _ 2%Z
                         Hrun Hin))).
Defined.

(** ** Ranking metrics *)

Section MetricBounds.

Local Open Scope Q_scope.

Lemma size_list_to_set_le (l : list Z) : (size (list_to_set l : gset Z) <= length l)%nat.
Proof.
  induction l as [|x l IH]; cbn [list_to_set length].
  - by rewrite size_empty.
  - rewrite size_union_alt, size_singleton.
    pose proof (subseteq_size (list_to_set l ∖ {[x]}) (list_to_set l : gset Z)
                  ltac:(apply subseteq_difference_l; reflexivity)).
    lia.
Qed.

Lemma inject_nat_le (a b : nat) :
  (a <= b)%nat -> inject_Z (Z.of_nat a) <= inject_Z (Z.of_nat b).
Proof. intros Hab. rewrite <- Zle_Qle. lia. Qed.

Lemma inject_Z_pos (k : Z) : (0 < k)%Z -> 0 < inject_Z k.
Proof. intros Hk. unfold Qlt. cbn. lia. Qed.

Lemma inject_Z_nonneg (k : Z) : (0 <= k)%Z -> 0 <= inject_Z k.
Proof. intros Hk. unfold Qle. cbn. lia. Qed.

Lemma divide_Some (x d : Q) : 0 < d -> Metrics.divide x d = Some (x / d).
Proof.
  intros Hd. unfold Metrics.divide.
  destruct (Qeq_bool d 0) eqn:Hz; [|reflexivity].
  apply Qeq_bool_iff in Hz. rewrite Hz in Hd. by apply Qlt_irrefl in Hd.
Qed.

Lemma divide_zero (x : Q) : Metrics.divide x (inject_Z 0) = None.
Proof. reflexivity. Qed.

Lemma ratio_unit (x d : Q) : 0 <= x -> x <= d -> 0 < d -> 0 <= x / d <= 1.
Proof.
  intros Hx Hxd Hd. split.
  - apply Qle_shift_div_l; [exact Hd|]. by rewrite Qmult_0_l.
  - apply Qle_shift_div_r; [exact Hd|]. by rewrite Qmult_1_l.
Qed.

Lemma hits_le_k (recommendations : list (Z * Q)) (relevant_items : gset Z) (k : Z) :
  (0 <= k)%Z -> (Z.of_nat (Metrics.hits recommendations relevant_items k) <= k)%Z.
Proof.
  intros Hk. unfold Metrics.hits.
  pose proof (subseteq_size
                ((list_to_set (slice_to recommendations k).*1 : gset Z) ∩ relevant_items)
                (list_to_set (slice_to recommendations k).*1)
                ltac:(apply intersection_subseteq_l)) as Hsub.
  pose proof (size_list_to_set_le (slice_to recommendations k).*1) as Hlen.
  rewrite length_fmap in Hlen.
  pose proof (slice_to_length recommendations k Hk). lia.
Qed.

Lemma hits_le_relevant (recommendations : list (Z * Q)) (relevant_items : gset Z) (k : Z) :
  (Metrics.hits recommendations relevant_items k <= size relevant_items)%nat.
Proof. unfold Metrics.hits. apply subseteq_size, intersection_subseteq_r. Qed.

Lemma size_pos (X : gset Z) : X <> ∅ -> (0 < size X)%nat.
Proof.
  intros Hne. destruct (size X) eqn:Hsize; [|lia].
  apply size_empty_inv in Hsize. exfalso. apply Hne. by apply leibniz_equiv.
Qed.

(** [calculate_precision_at_k] for a cut-off [k > 0] returns a number
    between 0 and 1: the hits are counted among at most [k] recommendations
    and divided by [k], also when fewer than [k] were given. *)
Theorem precision_at_k_unit (recommendations : list (Z * Q))
    (relevant_items : gset Z) (k : Z) :
  (0 < k)%Z ->
  exists p,
    Metrics.calculate_precision_at_k recommendations relevant_items k = Some p
    /\ 0 <= p <= 1
    /\ (recommendations <> [] ->
        p * inject_Z k == inject_Z (Z.of_nat (Metrics.hits recommendations relevant_items k))).
Proof.
  intros Hk. unfold Metrics.calculate_precision_at_k.
  assert (Hkq : 0 < inject_Z k) by (by apply inject_Z_pos).
  destruct recommendations as [|r recommendations].
  - exists 0. split; [reflexivity|]. split; [split; discriminate|]. by intros [].
  - rewrite (divide_Some _ _ Hkq). eexists. split; [reflexivity|]. split.
    + apply ratio_unit; [|  |exact Hkq].
      * apply inject_Z_nonneg. lia.
      * rewrite <- Zle_Qle. apply hits_le_k. lia.
    + intros _. field. intros Hz. rewrite Hz in Hkq. by apply Qlt_irrefl in Hkq.
Qed.

Lemma precision_at_k_unit_witness :
  (0 < 2)%Z
  /\ exists p,
       Metrics.calculate_precision_at_k [(10%Z, 1); (20%Z, 0)] {[ 20%Z; 30%Z ]} 2 = Some p
       /\ 0 <= p <= 1.
Proof.
  split; [lia|].
  destruct (precision_at_k_unit [(10%Z, 1); (20%Z, 0)] {[ 20%Z; 30%Z ]} 2 ltac:(lia))
    as (p & Hp & Hunit & _).
  exists p. by split.
Defined.

(** [calculate_recall_at_k] never divides by zero and returns a number
    between 0 and 1, for every list, every set and every cut-off. *)
Theorem recall_at_k_unit (recommendations : list (Z * Q))
    (relevant_items : gset Z) (k : Z) :
  exists r,
    Metrics.calculate_recall_at_k recommendations relevant_items k = Some r
    /\ 0 <= r <= 1
    /\ (relevant_items = ∅ -> r = 0)
    /\ r * inject_Z (Z.of_nat (size relevant_items))
       == inject_Z (Z.of_nat (Metrics.hits recommendations relevant_items k)).
Proof.
  unfold Metrics.calculate_recall_at_k. case_bool_decide as Hempty.
  - exists 0. split; [reflexivity|]. split; [split; discriminate|].
    split; [done|]. unfold Metrics.hits. subst relevant_items.
    rewrite (right_absorb_L ∅ (∩)), size_empty. reflexivity.
  - assert (Hsize : 0 < inject_Z (Z.of_nat (size relevant_items))).
    { apply inject_Z_pos. pose proof (size_pos _ Hempty). lia. }
    rewrite (divide_Some _ _ Hsize). eexists. split; [reflexivity|]. split; [|split].
    + apply ratio_unit; [| |exact Hsize].
      * apply inject_Z_nonneg. lia.
      * apply inject_nat_le, hits_le_relevant.
    + done.
    + field. intros Hz. rewrite Hz in Hsize. by apply Qlt_irrefl in Hsize.
Qed.

(** With a cut-off of 0 and something to divide, precision and mean average
    precision raise [ZeroDivisionError]. *)
Theorem metrics_at_zero_raise (recommendations : list (Z * Q)) (relevant_items : gset Z) :
  recommendations <> [] -> relevant_items <> ∅ ->
  Metrics.calculate_precision_at_k recommendations relevant_items 0 = None
  /\ Metrics.calculate_map_at_k recommendations relevant_items 0 = None.
Proof.
  intros Hrecs Hrel. split.
  - unfold Metrics.calculate_precision_at_k.
    destruct recommendations; [done | apply divide_zero].
  - unfold Metrics.calculate_map_at_k. rewrite bool_decide_eq_false_2 by done.
    cbn zeta. replace (Z.min (Z.of_nat (size relevant_items)) 0) with 0%Z by lia.
    apply divide_zero.
Qed.

Lemma metrics_at_zero_raise_witness :
  [(10%Z, 1)] <> [] /\ ({[ 10%Z ]} : gset Z) <> ∅
  /\ Metrics.calculate_precision_at_k [(10%Z, 1)] {[ 10%Z ]} 0 = None
  /\ Metrics.calculate_map_at_k [(10%Z, 1)] {[ 10%Z ]} 0 = None.
Proof.
  assert (Hne : ({[ 10%Z ]} : gset Z) <> ∅).
  { intros Heq. assert (H10 : 10%Z ∈ (∅ : gset Z)) by (rewrite <- Heq; by apply elem_of_singleton).
    by apply elem_of_empty in H10. }
  split; [discriminate|]. split; [exact Hne|].
  apply (metrics_at_zero_raise [(10%Z, 1)] {[ 10%Z ]}); [discriminate | exact Hne].
Defined.

End MetricBounds.

Section MeanAveragePrecision.

Local Open Scope Q_scope.

Lemma map_loop_bounds (relevant_items : gset Z) (l : list (Z * Q)) (i : nat)
    (num_hits score : Q) :
  0 <= num_hits -> num_hits <= inject_Z (Z.of_nat i) ->
  score <= Metrics.map_loop relevant_items (enumerate_from i l) num_hits score
  /\ Metrics.map_loop relevant_items (enumerate_from i l) num_hits score
     <= score + inject_Z (Z.of_nat
                  (length (List.filter
                             (fun p : Z * Q => bool_decide (p.1 ∈ relevant_items)) l))).
Proof.
  revert i num_hits score. induction l as [|[item s] l IH]; intros i num_hits score Hnh Hi.
  - cbn. split; [apply Qle_refl|]. rewrite Qplus_0_r. apply Qle_refl.
  - cbn [enumerate_from Metrics.map_loop List.filter fst].
    assert (Hi1 : 0 < inject_Z (Z.of_nat i) + 1).
    { pose proof (inject_Z_nonneg (Z.of_nat i) ltac:(lia)). lra. }
    assert (HSi : inject_Z (Z.of_nat (S i)) == inject_Z (Z.of_nat i) + 1).
    { rewrite Nat2Z.inj_succ. unfold Z.succ. by rewrite inject_Z_plus. }
    destruct (bool_decide (item ∈ relevant_items)).
    + destruct (ratio_unit (num_hits + 1) (inject_Z (Z.of_nat i) + 1))
        as [Hterm0 Hterm1]; [lra | lra | exact Hi1 |].
      destruct (IH (S i) (num_hits + 1)
                  (score + (num_hits + 1) / (inject_Z (Z.of_nat i) + 1)))
        as [Hlo Hhi]; [lra | rewrite HSi; lra |].
      cbn [length]. rewrite Nat2Z.inj_succ. unfold Z.succ. rewrite inject_Z_plus.
      split; [lra|]. eapply Qle_trans; [exact Hhi|].
      change (inject_Z 1) with 1. lra.
    + apply IH; [exact Hnh | rewrite HSi; lra].
Qed.

(** [calculate_map_at_k] for a cut-off [k > 0] and a list that names no item
    twice returns a number between 0 and 1; for an empty relevant set it
    returns 0 whatever the cut-off. *)
Theorem map_at_k_unit (recommendations : list (Z * Q)) (relevant_items : gset Z) (k : Z) :
  (0 < k)%Z -> NoDup recommendations.*1 ->
  exists m,
    Metrics.calculate_map_at_k recommendations relevant_items k = Some m
    /\ 0 <= m <= 1
    /\ (relevant_items = ∅ -> m = 0).
Proof.
  intros Hk Hnd. unfold Metrics.calculate_map_at_k. case_bool_decide as Hempty.
  - exists 0. split; [reflexivity|]. split; [split; discriminate | done].
  - cbn zeta.
    set (top := slice_to recommendations k).
    set (found := List.filter (fun p : Z * Q => bool_decide (p.1 ∈ relevant_items)) top).
    assert (Hfound_k : (Z.of_nat (length found) <= k)%Z).
    { pose proof (sublist_length _ _ (filter_sublist
                    (fun p : Z * Q => bool_decide (p.1 ∈ relevant_items)) top)) as Hsub.
      pose proof (slice_to_length recommendations k ltac:(lia)) as Htop.
      subst found top. lia. }
    assert (Hfound_rel : (length found <= size relevant_items)%nat).
    { assert (Hids : NoDup found.*1).
      { apply (sublist_NoDup _ _ Hnd). etransitivity.
        - apply fmap_sublist, filter_sublist.
        - apply fmap_sublist, slice_to_sublist. }
      rewrite <- (length_fmap fst found), <- (size_list_to_set (C := gset Z) _ Hids).
      apply subseteq_size. intros item Hitem.
      apply elem_of_list_to_set, list_elem_of_fmap in Hitem as (p & -> & Hp).
      apply filter_elem_of in Hp as [_ Hp]. by apply bool_decide_eq_true in Hp. }
    destruct (map_loop_bounds relevant_items top 0 0 0) as [Hlo Hhi];
      [apply Qle_refl | apply Qle_refl |].
    fold found in Hhi. unfold enumerate.
    set (score := Metrics.map_loop relevant_items (enumerate_from 0 top) 0 0) in *.
    pose proof (size_pos _ Hempty) as Hsize.
    assert (Hd : 0 < inject_Z (Z.min (Z.of_nat (size relevant_items)) k)).
    { apply inject_Z_pos. lia. }
    rewrite (divide_Some _ _ Hd). eexists. split; [reflexivity|]. split; [|done].
    apply ratio_unit; [exact Hlo | | exact Hd].
    eapply Qle_trans; [exact Hhi|]. rewrite Qplus_0_l, <- Zle_Qle. lia.
Qed.

Lemma map_at_k_unit_witness :
  (0 < 2)%Z /\ NoDup [(10%Z, 1); (20%Z, 0)].*1
  /\ exists m,
       Metrics.calculate_map_at_k [(10%Z, 1); (20%Z, 0)] {[ 20%Z; 30%Z ]} 2 = Some m
       /\ 0 <= m <= 1.
Proof.
  assert (Hnd : NoDup [(10%Z, 1); (20%Z, 0)].*1).
  { apply (bool_decide_unpack _). vm_compute. exact I. }
  split; [lia|]. split; [exact Hnd|].
  destruct (map_at_k_unit [(10%Z, 1); (20%Z, 0)] {[ 20%Z; 30%Z ]} 2 ltac:(lia) Hnd)
    as (m & Hm & Hunit & _).
  exists m. by split.
Defined.

(** Without the distinctness the bound fails: a recommendation that is listed
    twice counts as two hits for one relevant item. *)
Example map_at_k_repeated_item :
  exists m, Metrics.calculate_map_at_k [(10%Z, 1); (10%Z, 1)] {[ 10%Z ]} 10 = Some m
            /\ m == 2.
Proof. eexists. split; [vm_compute; reflexivity | reflexivity]. Qed.

End MeanAveragePrecision.

(** ** Cleaning the recipe table *)

Section HealthScore.

Local Open Scope Q_scope.

Lemma clip_id (x lo hi : Q) : lo <= x -> x <= hi -> Np.clip x lo hi == x.
Proof.
  intros Hlo Hhi. unfold Np.clip.
  rewrite (Q.max_l x lo Hlo). by apply Q.min_l.
Qed.

Lemma clip_mono (x y lo hi : Q) : x <= y -> Np.clip x lo hi <= Np.clip y lo hi.
Proof.
  intros Hxy. unfold Np.clip.
  apply Q.min_le_compat_r, Q.max_le_compat_r, Hxy.
Qed.

Lemma health_score_unclipped (calories total_fat sugar protein : Q) :
  let raw := (100 - Np.clip calories 0 1000 / 10) * 0.3
             + (100 - Np.clip total_fat 0 100) * 0.2
             + (100 - Np.clip sugar 0 100) * 0.2
             + Np.clip protein 0 100 * 0.3 in
  0 <= raw <= 100.
Proof.
  intros raw. subst raw.
  pose proof (clip_bounds calories 0 1000 ltac:(discriminate)) as [Hc0 Hc1].
  pose proof (clip_bounds total_fat 0 100 ltac:(discriminate)) as [Hf0 Hf1].
  pose proof (clip_bounds sugar 0 100 ltac:(discriminate)) as [Hs0 Hs1].
  pose proof (clip_bounds protein 0 100 ltac:(discriminate)) as [Hp0 Hp1].
  set (c := Np.clip calories 0 1000) in *. set (f := Np.clip total_fat 0 100) in *.
  set (s := Np.clip sugar 0 100) in *. set (p := Np.clip protein 0 100) in *.
  assert (Hdiv : c / 10 == c * (1 # 10)) by reflexivity.
  rewrite Hdiv. split; lra.
Qed.

Lemma calculate_health_score_bounds (calories total_fat sugar protein : Q) :
  0 <= Cleaning.calculate_health_score calories total_fat sugar protein <= 100.
Proof. apply clip_bounds. discriminate. Qed.

(** The health score of every recipe lies between 0 and 100, both ends
    included and both reached; the weighted sum of the four partial scores
    is itself in that range, so the final [clip(0, 100)] changes nothing. *)
Theorem health_score_range (calories total_fat sugar protein : Q) :
  let score := Cleaning.calculate_health_score calories total_fat sugar protein in
  0 <= score <= 100
  /\ score == (100 - Np.clip calories 0 1000 / 10) * 0.3
              + (100 - Np.clip total_fat 0 100) * 0.2
              + (100 - Np.clip sugar 0 100) * 0.2
              + Np.clip protein 0 100 * 0.3
  /\ Cleaning.calculate_health_score 1000 100 100 0 == 0
  /\ Cleaning.calculate_health_score 0 0 0 100 == 100.
Proof.
  intros score. subst score. unfold Cleaning.calculate_health_score. cbv zeta.
  pose proof (health_score_unclipped calories total_fat sugar protein) as [H0 H100].
  cbv zeta in H0, H100.
  assert (Hid := clip_id _ 0 100 H0 H100).
  split; [|split; [exact Hid | split; reflexivity]].
  apply clip_bounds. discriminate.
Qed.

(** The health score never falls when calories, fat and sugar fall and
    protein rises. *)
Theorem health_score_monotone (calories calories' total_fat total_fat' : Q)
    (sugar sugar' protein protein' : Q) :
  calories <= calories' -> total_fat <= total_fat' -> sugar <= sugar' ->
  protein' <= protein ->
  Cleaning.calculate_health_score calories' total_fat' sugar' protein'
  <= Cleaning.calculate_health_score calories total_fat sugar protein.
Proof.
  intros Hc Hf Hs Hp. unfold Cleaning.calculate_health_score. cbv zeta.
  apply clip_mono.
  pose proof (clip_mono _ _ 0 1000 Hc) as Hc'.
  pose proof (clip_mono _ _ 0 100 Hf) as Hf'.
  pose proof (clip_mono _ _ 0 100 Hs) as Hs'.
  pose proof (clip_mono _ _ 0 100 Hp) as Hp'.
  set (c := Np.clip calories 0 1000) in *. set (c' := Np.clip calories' 0 1000) in *.
  set (f := Np.clip total_fat 0 100) in *. set (f' := Np.clip total_fat' 0 100) in *.
  set (s := Np.clip sugar 0 100) in *. set (s' := Np.clip sugar' 0 100) in *.
  set (p := Np.clip protein 0 100) in *. set (p' := Np.clip protein' 0 100) in *.
  assert (Hdiv : c / 10 == c * (1 # 10)) by reflexivity.
  assert (Hdiv' : c' / 10 == c' * (1 # 10)) by reflexivity.
  rewrite Hdiv, Hdiv'. lra.
Qed.

Lemma health_score_monotone_witness :
  200 <= 600 /\ 10 <= 30 /\ 5 <= 5 /\ 8 <= 20
  /\ Cleaning.calculate_health_score 600 30 5 8
     <= Cleaning.calculate_health_score 200 10 5 20.
Proof.
  split; [discriminate|]. split; [discriminate|]. split; [discriminate|].
  split; [discriminate|].
  apply (health_score_monotone 200 600 10 30 5 5 20 8); discriminate.
Defined.

End HealthScore.

Section CleanRecipes.

Import Cleaning.
Local Open Scope Q_scope.

Lemma Qlt_bool_true (x y : Q) : Qlt_bool x y = true <-> x < y.
Proof.
  unfold Qlt_bool. rewrite negb_true_iff. split.
  - intros Hb. apply Qnot_le_lt. intros Hle. apply Qle_bool_iff in Hle. congruence.
  - intros Hlt. destruct (Qle_bool y x) eqn:Hb; [|reflexivity].
    apply Qle_bool_iff in Hb. exfalso. exact (Qlt_not_le _ _ Hlt Hb).
Qed.

Lemma Qle_bool_false (x y : Q) : Qle_bool x y = false <-> y < x.
Proof.
  rewrite <- (Qlt_bool_true y x). unfold Qlt_bool. by rewrite negb_true_iff.
Qed.

Lemma count_positive (n : nat) : 0 < inject_Z (Z.of_nat n) -> 1 <= inject_Z (Z.of_nat n).
Proof. unfold Qlt, Qle. cbn. lia. Qed.

Lemma time_category_valid (minutes : Q) :
  0 < minutes -> minutes < 1440 ->
  time_category minutes ∈ [Some very_quick; Some quick; Some medium; Some long].
Proof.
  intros H0 H1440. unfold time_category.
  rewrite (proj2 (Qle_bool_false minutes 0) H0).
  assert (Hlong : Qle_bool minutes 1440 = true).
  { apply Qle_bool_iff. by apply Qlt_le_weak. }
  rewrite Hlong.
  destruct (Qle_bool minutes 20); [set_solver|].
  destruct (Qle_bool minutes 45); [set_solver|].
  destruct (Qle_bool minutes 90); set_solver.
Qed.

(** Every recipe that [preprocess_recipes] keeps comes from a row of the raw
    table, has at least one ingredient and one step, takes more than 0 and
    less than 1440 minutes, occurs in the interaction table, has a health
    score between 0 and 100, and carries one of the first four time labels:
    the label [very_long] and the missing label do not survive the filter. *)
Theorem preprocess_recipes_valid (recipes_df : list RawRecipe)
    (interactions_df : list Interaction) (r : Recipe) :
  r ∈ preprocess_recipes recipes_df interactions_df ->
  (exists raw, raw ∈ recipes_df /\ r = derive_columns raw)
  /\ 1 <= n_ingredients r /\ 1 <= n_steps r
  /\ 0 < minutes r /\ minutes r < 1440
  /\ id r ∈ recipe_id <$> interactions_df
  /\ 0 <= health_score r <= 100
  /\ time_category (minutes r) ∈ [Some very_quick; Some quick; Some medium; Some long].
Proof.
  unfold preprocess_recipes. intros Hr.
  apply filter_elem_of in Hr as [Hr Hseen].
  apply filter_elem_of in Hr as [Hr Hvalid].
  apply list_elem_of_fmap in Hr as (raw & -> & Hraw).
  apply bool_decide_eq_true, elem_of_list_to_set in Hseen.
  unfold valid_recipe in Hvalid.
  apply andb_true_iff in Hvalid as [Hvalid Hday].
  apply andb_true_iff in Hvalid as [Hvalid Hmin].
  apply andb_true_iff in Hvalid as [Hing Hsteps].
  apply Qlt_bool_true in Hday, Hmin, Hing, Hsteps.
  split; [by exists raw|].
  split; [by apply count_positive|]. split; [by apply count_positive|].
  split; [exact Hmin|]. split; [exact Hday|]. split; [exact Hseen|].
  split; [apply calculate_health_score_bounds | by apply time_category_valid].
Qed.

(** A row whose nutrition cell is missing or does not parse is not dropped
    for that: if it has ingredients, steps, a cooking time within the day and
    an interaction, [preprocess_recipes] keeps it, with the nutrition values
    0 and the health score 70. *)
Theorem missing_nutrition_is_kept (recipes_df : list RawRecipe)
    (interactions_df : list Interaction) (raw : RawRecipe) :
  raw ∈ recipes_df ->
  parse_list_column (raw_nutrition raw) = [] ->
  parse_list_column (raw_ingredients raw) <> [] ->
  parse_list_column (raw_steps raw) <> [] ->
  0 < raw_minutes raw -> raw_minutes raw < 1440 ->
  raw_id raw ∈ recipe_id <$> interactions_df ->
  derive_columns raw ∈ preprocess_recipes recipes_df interactions_df
  /\ calories (derive_columns raw) = 0
  /\ protein (derive_columns raw) = 0
  /\ health_score (derive_columns raw) == 70.
Proof.
  intros Hraw Hnone Hing Hsteps Hmin Hday Hseen.
  assert (Hlen : forall l : list string, l <> [] -> 0 < inject_Z (Z.of_nat (length l))).
  { intros [|x l] Hl; [done|]. unfold Qlt. cbn. lia. }
  split.
  - unfold preprocess_recipes. apply filter_elem_of. split.
    + apply filter_elem_of. split; [apply list_elem_of_fmap; by exists raw|].
      unfold valid_recipe. cbn [n_ingredients n_steps minutes derive_columns].
      rewrite !andb_true_iff, !Qlt_bool_true. auto.
    + apply bool_decide_eq_true, elem_of_list_to_set. exact Hseen.
  - unfold derive_columns. cbn [calories protein health_score].
    rewrite Hnone. split; [reflexivity|]. split; reflexivity.
Qed.

End CleanRecipes.

Lemma preprocess_recipes_valid_witness :
  let r := Cleaning.derive_columns RawSample.stew in
  r ∈ Cleaning.preprocess_recipes RawSample.raw_recipes RawSample.raw_interactions
  /\ (0 < minutes r)%Q /\ (minutes r < 1440)%Q
  /\ Cleaning.time_category (minutes r)
     ∈ [Some Cleaning.very_quick; Some Cleaning.quick; Some Cleaning.medium;
        Some Cleaning.long].
Proof.
  intros r.
  assert (Hr : r ∈ Cleaning.preprocess_recipes RawSample.raw_recipes
                     RawSample.raw_interactions).
  { vm_compute. left. }
  split; [exact Hr|].
  destruct (preprocess_recipes_valid RawSample.raw_recipes RawSample.raw_interactions r Hr)
    as (_ & _ & _ & Hmin & Hday & _ & _ & Hlabel).
  split; [exact Hmin|]. split; [exact Hday | exact Hlabel].
Defined.

Lemma missing_nutrition_is_kept_witness :
  RawSample.salad ∈ RawSample.raw_recipes
  /\ Cleaning.parse_list_column (Cleaning.raw_nutrition RawSample.salad) = []
  /\ Cleaning.parse_list_column (Cleaning.raw_ingredients RawSample.salad) <> []
  /\ Cleaning.parse_list_column (Cleaning.raw_steps RawSample.salad) <> []
  /\ (0 < Cleaning.raw_minutes RawSample.salad)%Q
  /\ (Cleaning.raw_minutes RawSample.salad < 1440)%Q
  /\ Cleaning.raw_id RawSample.salad ∈ recipe_id <$> RawSample.raw_interactions
  /\ Cleaning.derive_columns RawSample.salad
     ∈ Cleaning.preprocess_recipes RawSample.raw_recipes RawSample.raw_interactions
  /\ (health_score (Cleaning.derive_columns RawSample.salad) == 70)%Q.
Proof.
  assert (Hraw : RawSample.salad ∈ RawSample.raw_recipes) by (right; left).
  assert (Hseen : Cleaning.raw_id RawSample.salad ∈ recipe_id <$> RawSample.raw_interactions).
  { cbn. right. left. }
  split; [exact Hraw|]. split; [reflexivity|]. split; [discriminate|].
  split; [discriminate|]. split; [reflexivity|]. split; [reflexivity|].
  split; [exact Hseen|].
  destruct (missing_nutrition_is_kept RawSample.raw_recipes RawSample.raw_interactions
              RawSample.salad Hraw eq_refl ltac:(discriminate) ltac:(discriminate)
              eq_refl eq_refl Hseen) as (Hkept & _ & _ & Hscore).
  split; [exact Hkept | exact Hscore].
Defined.

(** ** From the cleaned tables to the matrix *)

Section CleanInteractions.

Import Cleaning Preprocessor.
Local Open Scope Q_scope.

Lemma preprocess_interactions_elem_of (recipes_df : list Recipe)
    (interactions_df : list Interaction) (x : Interaction) :
  x ∈ preprocess_interactions recipes_df interactions_df
  <-> x ∈ interactions_df /\ 1 <= rating x /\ rating x <= 5
      /\ recipe_id x ∈ id <$> recipes_df.
Proof.
  unfold preprocess_interactions.
  rewrite !filter_elem_of, andb_true_iff, !Qle_bool_iff, bool_decide_eq_true,
    elem_of_list_to_set.
  tauto.
Qed.

Lemma sum_lower_bound (l : list Q) :
  Forall (fun v => 1 <= v) l -> inject_Z (Z.of_nat (length l)) <= Np.sum l.
Proof.
  induction 1 as [|v l Hv _ IH]; [discriminate|].
  unfold Np.sum in *. cbn [foldr length]. rewrite Nat2Z.inj_succ. unfold Z.succ.
  rewrite inject_Z_plus. change (inject_Z 1) with 1. lra.
Qed.

(** In a table whose ratings are all at least 1, the ratings of a pair that
    has a row add up to at least 1. *)
Lemma rating_sum_lower_bound (df : list Interaction) (x : Interaction) :
  (forall y, y ∈ df -> 1 <= rating y) -> x ∈ df ->
  1 <= rating_sum df (user_id x) (recipe_id x).
Proof.
  intros Hall Hx. unfold rating_sum.
  set (rows := List.filter _ df).
  assert (Hrow : x ∈ rows).
  { apply filter_elem_of. split; [exact Hx|]. by rewrite !bool_decide_eq_true_2. }
  assert (Hlen : (1 <= length rows)%nat).
  { destruct rows; [by apply elem_of_nil in Hrow | cbn; lia]. }
  eapply Qle_trans; [|apply sum_lower_bound].
  - rewrite <- (length_fmap rating rows) in Hlen.
    change 1 with (inject_Z (Z.of_nat 1)). rewrite <- Zle_Qle. lia.
  - apply Forall_fmap, Forall_forall. intros y Hy. cbn.
    apply Hall. by apply filter_elem_of in Hy as [Hy _].
Qed.

Lemma matrix_entries_lower_bound (df : list Interaction) :
  df <> [] ->
  (forall y, y ∈ df -> 1 <= rating y) ->
  exists M,
    create_user_item_matrix df = Ok M
    /\ forall k v, entries M !! k = Some v -> 1 <= v.
Proof.
  intros Hne Hall. eexists. split; [by apply create_user_item_matrix_Ok|].
  cbn [entries]. intros k v Hk.
  set (users := unique (user_id <$> df)) in *.
  set (recipes := unique (recipe_id <$> df)) in *.
  assert (Hdom : k ∈ dom (fold_left add_entry
            ((fun x => (encode users (user_id x), encode recipes (recipe_id x), rating x))
               <$> df) ∅)).
  { apply elem_of_dom. by eexists. }
  rewrite fold_add_entry_dom, dom_empty_L, (right_id_L ∅ (∪)) in Hdom.
  apply elem_of_list_to_set in Hdom. rewrite <- list_fmap_compose in Hdom.
  apply list_elem_of_fmap in Hdom as (x & -> & Hx).
  assert (Hseen : forall y, y ∈ df -> user_id y ∈ users /\ recipe_id y ∈ recipes).
  { intros y Hy. split; apply unique_elem_of, list_elem_of_fmap; by exists y. }
  destruct (list_index_elem_of (user_id x) users) as [i Hi]; [by apply Hseen|].
  destruct (list_index_elem_of (recipe_id x) recipes) as [j Hj]; [by apply Hseen|].
  assert (Hv : v == rating_sum df (user_id x) (recipe_id x)).
  { pose proof (get_fold_add_entry
                  ((fun x => (encode users (user_id x), encode recipes (recipe_id x),
                              rating x)) <$> df) ∅ (i, j)) as Hget.
    rewrite (rating_sum_encoded users recipes df _ _ i j Hseen Hi Hj) in Hget.
    assert (Hcoord : (encode users (user_id x), encode recipes (recipe_id x)) = (i, j)).
    { unfold encode. by rewrite Hi, Hj. }
    unfold compose in Hk. cbn [fst] in Hk. rewrite Hcoord in Hk.
    unfold get in Hget. rewrite Hk, lookup_empty in Hget. rewrite Hget. ring. }
  rewrite Hv. by apply rating_sum_lower_bound.
Qed.

(** The two cleaning steps and the matrix builder together, as [main] runs
    them: every interaction that is left has a rating between 1 and 5 and
    the recipe of a row that is left in the recipe table; the rows keep
    their order, and cleaning them again changes nothing.  When the cleaning
    leaves no interaction the builder raises [ZeroDivisionError], and only
    then; when it leaves one, the builder returns a matrix, and every entry
    that the matrix stores is at least 1, so a stored entry is never
    mistaken for a missing one. *)
Theorem cleaned_tables_and_matrix (raw_recipes : list RawRecipe)
    (raw_interactions : list Interaction) :
  let recipes_df := preprocess_recipes raw_recipes raw_interactions in
  let interactions_df := preprocess_interactions recipes_df raw_interactions in
  (forall x, x ∈ interactions_df ->
     x ∈ raw_interactions /\ 1 <= rating x <= 5
     /\ exists r, r ∈ recipes_df /\ id r = recipe_id x)
  /\ interactions_df `sublist_of` raw_interactions
  /\ preprocess_interactions recipes_df interactions_df = interactions_df
  /\ (create_user_item_matrix interactions_df = Raise ZeroDivisionError
      <-> interactions_df = [])
  /\ (interactions_df <> [] ->
      exists M,
        create_user_item_matrix interactions_df = Ok M
        /\ forall k v, entries M !! k = Some v -> 1 <= v).
Proof.
  intros recipes_df interactions_df.
  assert (Hrows : forall x, x ∈ interactions_df ->
            x ∈ raw_interactions /\ 1 <= rating x <= 5
            /\ exists r, r ∈ recipes_df /\ id r = recipe_id x).
  { intros x (Hx & H1 & H5 & Hr)%preprocess_interactions_elem_of.
    split; [exact Hx|]. split; [by split|].
    apply list_elem_of_fmap in Hr as (r & Hid & Hr). by exists r. }
  split; [exact Hrows|]. split; [|split; [|split]].
  - unfold interactions_df, preprocess_interactions.
    etransitivity; apply filter_sublist.
  - unfold preprocess_interactions at 1.
    assert (Hkeep : forall (f : Interaction -> bool) (l : list Interaction),
              (forall x, x ∈ l -> f x = true) -> List.filter f l = l).
    { intros f l. induction l as [|y l IH]; intros Hall; [reflexivity|]. cbn.
      rewrite (Hall y) by (by left). f_equal. apply IH. intros z Hz. apply Hall. by right. }
    rewrite (Hkeep _ interactions_df).
    + apply Hkeep. intros x Hx. apply bool_decide_eq_true, elem_of_list_to_set.
      by apply preprocess_interactions_elem_of in Hx as (_ & _ & _ & Hr).
    + intros x Hx. apply preprocess_interactions_elem_of in Hx as (_ & H1 & H5 & _).
      apply andb_true_iff. by rewrite !Qle_bool_iff.
  - apply create_user_item_matrix_raises.
  - intros Hne. apply matrix_entries_lower_bound; [exact Hne|].
    intros y Hy. by apply Hrows in Hy as (_ & [H1 _] & _).
Qed.

End CleanInteractions.

Lemma cleaned_tables_and_matrix_witness :
  let recipes_df :=
    Cleaning.preprocess_recipes RawSample.raw_recipes RawSample.raw_interactions in
  let interactions_df :=
    Cleaning.preprocess_interactions recipes_df RawSample.raw_interactions in
  interactions_df <> []
  /\ exists M,
       Preprocessor.create_user_item_matrix interactions_df = Ok M
       /\ forall k v, Preprocessor.entries M !! k = Some v -> (1 <= v)%Q.
Proof.
  intros recipes_df interactions_df.
  assert (Hne : interactions_df <> []) by (vm_compute; discriminate).
  split; [exact Hne|].
  exact (proj2 (proj2 (proj2 (proj2
           (cleaned_tables_and_matrix RawSample.raw_recipes RawSample.raw_interactions))))
         Hne).
Defined.

(** The cleaning can leave no interaction: of one recipe with one rating 0
    the recipe is kept and the rating is not, and the builder fails on the
    table that is left. *)
Example cleaning_can_leave_no_interaction :
  let raw_interactions := [ {| user_id := 1; recipe_id := 10; rating := 0%Q |} ] in
  let recipes_df := Cleaning.preprocess_recipes [RawSample.stew] raw_interactions in
  let interactions_df := Cleaning.preprocess_interactions recipes_df raw_interactions in
  length recipes_df = 1%nat
  /\ interactions_df = []
  /\ Preprocessor.create_user_item_matrix interactions_df = Raise ZeroDivisionError.
Proof. split; [reflexivity|]. split; reflexivity. Qed.

(** ** Loading the two files *)

Section LoadData.

Import Cleaning.

Lemma filter_all {A} (f : A -> bool) (l : list A) :
  (forall x, x ∈ l -> f x = true) -> List.filter f l = l.
Proof.
  induction l as [|y l IH]; intros Hall; [reflexivity|]. cbn.
  rewrite (Hall y) by (by left). f_equal. apply IH. intros z Hz. apply Hall. by right.
Qed.

Lemma value_counts_values (l : list Z) : (value_counts l).*1 ≡ₚ remove_dups l.
Proof.
  unfold value_counts. rewrite sort_desc_perm.
  induction (remove_dups l) as [|v k IH]; [reflexivity|]. cbn. by rewrite IH.
Qed.

Lemma value_counts_elem_of (l : list Z) (v : Z) (c : nat) :
  (v, c) ∈ value_counts l <-> v ∈ l /\ c = length (List.filter (Z.eqb v) l).
Proof.
  unfold value_counts. rewrite sort_desc_elem_of, list_elem_of_fmap. split.
  - intros (w & [= -> ->] & Hw). split; [by rewrite elem_of_remove_dups in Hw | reflexivity].
  - intros [Hv ->]. exists v. split; [reflexivity|]. by rewrite elem_of_remove_dups.
Qed.

Lemma value_counts_NoDup (l : list Z) : NoDup (value_counts l).*1.
Proof. rewrite value_counts_values. apply NoDup_remove_dups. Qed.

Lemma value_counts_length (l : list Z) :
  length (value_counts l) = size (list_to_set l : gset Z).
Proof.
  rewrite <- (length_fmap fst), value_counts_values.
  rewrite <- (size_list_to_set (C := gset Z)) by apply NoDup_remove_dups.
  f_equal. apply set_eq. intros v.
  by rewrite !elem_of_list_to_set, elem_of_remove_dups.
Qed.

(** [load_data] keeps the first [max_recipes] rows of the recipe file and,
    of the interactions with one of these recipes, the rows of at most
    10000 users, in the order of the file. *)
Theorem load_data_caps (recipes_csv : list RawRecipe) (interactions_csv : list Interaction)
    (max_recipes min_interactions_per_user : nat) :
  let loaded := load_data recipes_csv interactions_csv max_recipes
                          min_interactions_per_user in
  loaded.1 = take max_recipes recipes_csv
  /\ loaded.2 `sublist_of` interactions_csv
  /\ (forall x, x ∈ loaded.2 -> recipe_id x ∈ raw_id <$> loaded.1)
  /\ (Z.of_nat (size (list_to_set (user_id <$> loaded.2) : gset Z)) <= 10000)%Z.
Proof.
  intros loaded. subst loaded. unfold load_data. cbn [fst snd].
  set (recipe_ids := list_to_set (raw_id <$> take max_recipes recipes_csv) : gset Z).
  set (temp := List.filter (fun x => bool_decide (recipe_id x ∈ recipe_ids)) interactions_csv).
  set (top := slice_to (value_counts (user_id <$> temp)) 10000).
  split; [reflexivity|]. split; [|split].
  - etransitivity; apply filter_sublist.
  - intros x [Hx _]%filter_elem_of. apply filter_elem_of in Hx as [_ Hx].
    by apply bool_decide_eq_true, elem_of_list_to_set in Hx.
  - assert (Hsub : (size (list_to_set (user_id <$> List.filter
                       (fun x => bool_decide (user_id x ∈ (list_to_set top.*1 : gset Z)))
                       temp) : gset Z)
                    <= size (list_to_set top.*1 : gset Z))%nat).
    { apply subseteq_size. intros u Hu.
      apply elem_of_list_to_set, list_elem_of_fmap in Hu as (x & -> & Hx).
      apply filter_elem_of in Hx as [_ Hx]. by apply bool_decide_eq_true in Hx. }
    pose proof (size_list_to_set_le top.*1) as Hlen. rewrite length_fmap in Hlen.
    pose proof (slice_to_length (value_counts (user_id <$> temp)) 10000 ltac:(lia)) as Htop.
    fold top in Htop. lia.
Qed.

(** With at most 10000 distinct users among the interactions with a loaded
    recipe, [load_data] keeps every such interaction: the argument
    [min_interactions_per_user] has no effect, and a user with fewer
    interactions than that is not removed. *)
Theorem load_data_keeps_inactive_users (recipes_csv : list RawRecipe)
    (interactions_csv : list Interaction) (max_recipes min_interactions_per_user : nat) :
  let recipe_ids : gset Z := list_to_set (raw_id <$> take max_recipes recipes_csv) in
  let temp_interactions :=
    List.filter (fun x => bool_decide (recipe_id x ∈ recipe_ids)) interactions_csv in
  (Z.of_nat (size (list_to_set (user_id <$> temp_interactions) : gset Z)) <= 10000)%Z ->
  (load_data recipes_csv interactions_csv max_recipes min_interactions_per_user).2
  = temp_interactions.
Proof.
  intros recipe_ids temp Hfew. unfold load_data. cbn [snd]. fold recipe_ids temp.
  apply filter_all. intros x Hx.
  apply bool_decide_eq_true, elem_of_list_to_set.
  unfold slice_to. rewrite slice_bound_nonneg by lia.
  rewrite take_ge by (rewrite value_counts_length; lia).
  rewrite value_counts_values, elem_of_remove_dups. apply list_elem_of_fmap. by exists x.
Qed.

End LoadData.

Lemma load_data_keeps_inactive_users_witness :
  let recipe_ids : gset Z := list_to_set (Cleaning.raw_id <$> take 2 RawSample.raw_recipes) in
  let temp_interactions :=
    List.filter (fun x => bool_decide (recipe_id x ∈ recipe_ids)) RawSample.raw_interactions in
  (Z.of_nat (size (list_to_set (user_id <$> temp_interactions) : gset Z)) <= 10000)%Z
  /\ (Cleaning.load_data RawSample.raw_recipes RawSample.raw_interactions 2 5).2
     = temp_interactions.
Proof.
  intros recipe_ids temp_interactions.
  assert (Hfew : (Z.of_nat (size (list_to_set (user_id <$> temp_interactions) : gset Z))
                  <= 10000)%Z).
  { vm_compute. discriminate. }
  split; [exact Hfew|].
  exact (load_data_keeps_inactive_users RawSample.raw_recipes RawSample.raw_interactions
           2 5 Hfew).
Defined.

(** ** The saved id mappings *)

Section IdMappings.

Import Cleaning Preprocessor.
Local Open Scope Q_scope.

Lemma fold_insert_lookup_notin `{Countable K} {V} (l : list (K * V))
    (acc : gmap K V) (k : K) :
  k ∉ l.*1 -> fold_left (fun d p => <[p.1 := p.2]> d) l acc !! k = acc !! k.
Proof.
  revert acc; induction l as [|[k' v'] l IH]; intros acc Hnot; cbn; [reflexivity|].
  cbn in Hnot. apply not_elem_of_cons in Hnot as [Hne Hnot].
  rewrite IH by exact Hnot. by rewrite lookup_insert_ne.
Qed.

Lemma fold_insert_lookup_NoDup `{Countable K} {V} (l : list (K * V))
    (acc : gmap K V) (k : K) (v : V) :
  NoDup l.*1 -> (k, v) ∈ l ->
  fold_left (fun d p => <[p.1 := p.2]> d) l acc !! k = Some v.
Proof.
  revert acc; induction l as [|[k' v'] l IH]; intros acc Hnd Hin; cbn.
  - by apply elem_of_nil in Hin.
  - cbn in Hnd. apply NoDup_cons in Hnd as [Hnot Hnd].
    apply elem_of_cons in Hin as [[= -> ->]|Hin].
    + rewrite fold_insert_lookup_notin by exact Hnot. apply lookup_insert_eq.
    + by apply IH.
Qed.

(** A dictionary built from pairs with distinct keys holds exactly the pairs. *)
Lemma dict_of_pairs_NoDup `{Countable K} {V} (l : list (K * V)) (k : K) (v : V) :
  NoDup l.*1 -> dict_of_pairs l !! k = Some v <-> (k, v) ∈ l.
Proof.
  intros Hnd. split; [apply dict_of_pairs_Some|].
  by apply fold_insert_lookup_NoDup.
Qed.

Lemma encode_classes (l : list Z) :
  NoDup l -> encode l <$> l = seq 0 (length l).
Proof.
  intros Hnd. apply list_eq. intros i. rewrite list_lookup_fmap.
  destruct (l !! i) as [u|] eqn:Hu; cbn.
  - rewrite lookup_seq_lt by (eapply lookup_lt_Some; eauto).
    unfold encode. by rewrite (list_index_NoDup u l i Hnd Hu).
  - symmetry. apply lookup_seq_ge. by apply lookup_ge_None.
Qed.

Lemma zip_seq_elem_of (l : list Z) (u : Z) (i : nat) :
  (u, i) ∈ zip l (seq 0 (length l)) <-> l !! i = Some u.
Proof.
  rewrite list_elem_of_lookup. split.
  - intros (k & Hk). apply lookup_zip_with_Some in Hk as (a & b & [= -> ->] & Ha & Hb).
    apply lookup_seq in Hb as [-> _]. exact Ha.
  - intros Hi. exists i. apply lookup_zip_with_Some. exists u, i.
    split; [reflexivity|]. split; [exact Hi|].
    apply lookup_seq. split; [reflexivity|]. eapply lookup_lt_Some; eauto.
Qed.

Lemma mapping_lookup (l : list Z) (u : Z) (i : nat) :
  NoDup l ->
  dict_of_pairs (zip l (seq 0 (length l))) !! u = Some i <-> l !! i = Some u.
Proof.
  intros Hnd. rewrite dict_of_pairs_NoDup; [apply zip_seq_elem_of|].
  rewrite fst_zip; [exact Hnd | by rewrite length_seq].
Qed.

Lemma inverse_mapping_lookup (l : list Z) (u : Z) (i : nat) :
  dict_of_pairs (prod_swap <$> zip l (seq 0 (length l))) !! i = Some u <-> l !! i = Some u.
Proof.
  rewrite dict_of_pairs_NoDup.
  - rewrite <- zip_seq_elem_of, list_elem_of_fmap. split.
    + by intros ([a b] & [= -> ->] & Hab).
    + intros Hui. by exists (u, i).
  - assert (Hkeys : forall k : list (Z * nat), (prod_swap <$> k).*1 = k.*2).
    { intros k. induction k as [|[a b] k IH]; [reflexivity|]. cbn. by rewrite IH. }
    rewrite Hkeys, snd_zip by (by rewrite length_seq).
    apply NoDup_seq.
Qed.

Lemma id_mappings_Ok (df : list Interaction) :
  let users := unique (user_id <$> df) in
  let recipes := unique (recipe_id <$> df) in
  id_mappings df
  = Ok {| user_to_idx := dict_of_pairs (zip users (seq 0 (length users)));
          recipe_to_idx := dict_of_pairs (zip recipes (seq 0 (length recipes)));
          idx_to_user := dict_of_pairs (prod_swap <$> zip users (seq 0 (length users)));
          idx_to_recipe :=
            dict_of_pairs (prod_swap <$> zip recipes (seq 0 (length recipes))) |}.
Proof.
  intros users recipes. unfold id_mappings. fold users recipes.
  rewrite !transform_seen by done. rewrite !bind_Ok.
  by rewrite !encode_classes by apply unique_NoDup.
Qed.

(** [save_processed_data] writes the four dictionaries from the encoders
    fitted on the table.  The two directions are inverse to each other, and
    the ids that have an index are the ids of the table.  For a table with a
    row, the only kind on which [create_user_item_matrix] returns a matrix,
    the indices are the ones that the matrix uses: they lie within its
    shape, and the entry at the indices of a user and a recipe is the sum of
    the ratings that the table has for the pair. *)
Theorem id_mappings_address_matrix (df : list Interaction) :
  exists m,
    id_mappings df = Ok m
    /\ (forall u i, user_to_idx m !! u = Some i <-> idx_to_user m !! i = Some u)
    /\ (forall r j, recipe_to_idx m !! r = Some j <-> idx_to_recipe m !! j = Some r)
    /\ (forall u, is_Some (user_to_idx m !! u) <-> u ∈ user_id <$> df)
    /\ (forall r, is_Some (recipe_to_idx m !! r) <-> r ∈ recipe_id <$> df)
    /\ (df <> [] ->
        exists M,
          create_user_item_matrix df = Ok M
          /\ forall u r i j,
               user_to_idx m !! u = Some i -> recipe_to_idx m !! r = Some j ->
               (i < (shape M).1)%nat /\ (j < (shape M).2)%nat
               /\ csr_get M i j == rating_sum df u r).
Proof.
  eexists. split; [apply id_mappings_Ok|].
  cbn [user_to_idx recipe_to_idx idx_to_user idx_to_recipe].
  set (users := unique (user_id <$> df)). set (recipes := unique (recipe_id <$> df)).
  pose proof (unique_NoDup (user_id <$> df)) as Hu. fold users in Hu.
  pose proof (unique_NoDup (recipe_id <$> df)) as Hr. fold recipes in Hr.
  assert (Hdom : forall (l : list Z) (v : Z), NoDup l ->
            is_Some (dict_of_pairs (zip l (seq 0 (length l))) !! v) <-> v ∈ l).
  { intros l v Hnd. split.
    - intros [i Hi]. apply mapping_lookup in Hi; [|exact Hnd].
      eapply list_elem_of_lookup_2; eauto.
    - intros Hv. apply list_elem_of_lookup in Hv as [i Hi]. exists i.
      by apply mapping_lookup. }
  split; [|split; [|split; [|split]]].
  - intros u i. by rewrite mapping_lookup, inverse_mapping_lookup.
  - intros r j. by rewrite mapping_lookup, inverse_mapping_lookup.
  - intros u. rewrite Hdom by exact Hu. apply unique_elem_of.
  - intros r. rewrite Hdom by exact Hr. apply unique_elem_of.
  - intros Hne. eexists. split; [by apply create_user_item_matrix_Ok|].
    cbn [shape entries fst snd]. fold users recipes.
    intros u r i j Hi Hj.
    apply mapping_lookup in Hi; [|exact Hu]. apply mapping_lookup in Hj; [|exact Hr].
    split; [eapply lookup_lt_Some; eauto|]. split; [eapply lookup_lt_Some; eauto|].
    unfold csr_get. cbn [entries]. rewrite get_fold_add_entry.
    rewrite (rating_sum_encoded users recipes df u r i j).
    + unfold get. rewrite lookup_empty. ring.
    + intros x Hx. split; apply unique_elem_of, list_elem_of_fmap; by exists x.
    + by apply list_index_NoDup.
    + by apply list_index_NoDup.
Qed.

End IdMappings.

Lemma id_mappings_address_matrix_witness :
  Sample.repeated <> []
  /\ exists m M,
       Cleaning.id_mappings Sample.repeated = Ok m
       /\ Preprocessor.create_user_item_matrix Sample.repeated = Ok M
       /\ forall u r i j,
            user_to_idx m !! u = Some i -> recipe_to_idx m !! r = Some j ->
            (Preprocessor.csr_get M i j == Preprocessor.rating_sum Sample.repeated u r)%Q.
Proof.
  assert (Hne : Sample.repeated <> []) by discriminate.
  split; [exact Hne|].
  destruct (id_mappings_address_matrix Sample.repeated) as (m & Hm & _ & _ & _ & _ & Hmat).
  destruct (Hmat Hne) as (M & HM & Haddr).
  exists m, M. split; [exact Hm|]. split; [exact HM|].
  intros u r i j Hi Hj. exact (proj2 (proj2 (Haddr u r i j Hi Hj))).
Defined.

(** ** The split into train and test rows *)

Section SplitRows.

Import Split.

Variable sample : list Interaction -> list Interaction.
Hypothesis sample_perm : forall l, sample l ≡ₚ l.

Lemma filter_length_fmap {A B} (f : A -> B) (p : B -> bool) (l : list A) :
  length (List.filter p (f <$> l)) = length (List.filter (fun x => p (f x)) l).
Proof.
  induction l as [|x l IH]; [reflexivity|]. cbn.
  destruct (p (f x)); cbn; by rewrite IH.
Qed.

Lemma filter_ext_in {A} (f g : A -> bool) (l : list A) :
  (forall x, x ∈ l -> f x = g x) -> List.filter f l = List.filter g l.
Proof.
  induction l as [|x l IH]; intros Heq; [reflexivity|]. cbn.
  rewrite (Heq x) by (by left). rewrite IH; [reflexivity|].
  intros y Hy. apply Heq. by right.
Qed.

Lemma filter_filter {A} (f g : A -> bool) (l : list A) :
  List.filter f (List.filter g l) = List.filter (fun x => g x && f x) l.
Proof.
  induction l as [|x l IH]; [reflexivity|]. cbn.
  destruct (g x); cbn; [destruct (f x)|]; by rewrite IH.
Qed.


Lemma count_user (df : list Interaction) (u : Z) :
  length (List.filter (Z.eqb u) (user_id <$> df)) = length (user_data df u).
Proof.
  rewrite filter_length_fmap. unfold user_data. f_equal.
  apply filter_ext_in. intros x _.
  destruct (Z.eqb_spec u (user_id x)) as [->|Hne].
  - by rewrite bool_decide_eq_true_2.
  - by rewrite bool_decide_eq_false_2.
Qed.

Lemma users_with_enough_data_elem_of (df : list Interaction) (u : Z) :
  u ∈ users_with_enough_data df <-> (10 <= length (user_data df u))%nat.
Proof.
  unfold users_with_enough_data. rewrite list_elem_of_fmap. split.
  - intros ([v c] & -> & Hvc). apply filter_elem_of in Hvc as [Hvc Hc].
    apply value_counts_elem_of in Hvc as [_ ->]. cbn in *.
    rewrite count_user in Hc. by apply Nat.leb_le.
  - intros Hc. exists (u, length (user_data df u)). split; [reflexivity|].
    apply filter_elem_of. split; [|by apply Nat.leb_le].
    apply value_counts_elem_of. split; [|by rewrite count_user].
    destruct (user_data df u) as [|x rows] eqn:Hrows; [cbn in Hc; lia|].
    assert (Hx : x ∈ user_data df u) by (rewrite Hrows; by left).
    apply filter_elem_of in Hx as [Hx Hu]. apply bool_decide_eq_true in Hu.
    apply list_elem_of_fmap. by exists x.
Qed.

Lemma users_with_enough_data_NoDup (df : list Interaction) :
  NoDup (users_with_enough_data df).
Proof.
  unfold users_with_enough_data.
  eapply sublist_NoDup; [apply value_counts_NoDup|].
  apply fmap_sublist, filter_sublist.
Qed.

Lemma fmap_ext_in {A B} (f g : A -> B) (l : list A) :
  (forall x, x ∈ l -> f x = g x) -> f <$> l = g <$> l.
Proof.
  induction l as [|x l IH]; intros Heq; [reflexivity|]. cbn.
  rewrite (Heq x) by (by left). f_equal. apply IH. intros y Hy. apply Heq. by right.
Qed.

Lemma user_data_app (l k : list Interaction) (u : Z) :
  user_data (l ++ k) u = user_data l u ++ user_data k u.
Proof. apply List.filter_app. Qed.

Lemma user_data_own (l : list Interaction) (u : Z) :
  (forall x, x ∈ l -> user_id x = u) -> user_data l u = l.
Proof.
  intros Hown. apply filter_all. intros x Hx. apply bool_decide_eq_true. by apply Hown.
Qed.

Lemma user_data_other (l : list Interaction) (u v : Z) :
  (forall x, x ∈ l -> user_id x = v) -> u <> v -> user_data l u = [].
Proof.
  intros Hown Hne. apply filter_none. intros x Hx.
  apply bool_decide_eq_false. rewrite (Hown x Hx). congruence.
Qed.

(** The rows of one user in a table that is put together from one block per
    user. *)
Lemma user_data_concat (g : Z -> list Interaction) (users : list Z) (u : Z) :
  NoDup users -> (forall v x, x ∈ g v -> user_id x = v) ->
  user_data (concat (g <$> users)) u = if bool_decide (u ∈ users) then g u else [].
Proof.
  intros Hnd Hown. induction Hnd as [|v users Hv Hnd IH]; [reflexivity|].
  cbn [fmap list_fmap concat]. rewrite user_data_app, IH.
  destruct (decide (u = v)) as [->|Hne].
  - rewrite (user_data_own _ v (Hown v)).
    rewrite (bool_decide_eq_false_2 _ Hv), app_nil_r.
    rewrite bool_decide_eq_true_2; [reflexivity | by left].
  - rewrite (user_data_other _ u v (Hown v) Hne). cbn [app].
    destruct (decide (u ∈ users)) as [Hin|Hnot].
    + rewrite !bool_decide_eq_true_2; [reflexivity | by right | exact Hin].
    + rewrite !bool_decide_eq_false_2; [reflexivity | | exact Hnot].
      intros [?|?]%elem_of_cons; contradiction.
Qed.


Lemma train_test_unfold (df : list Interaction) :
  let users := users_with_enough_data df in
  let shuffled u := sample (user_data df u) in
  train_test sample df
  = (concat ((fun u => take (split_point (length (shuffled u))) (shuffled u)) <$> users),
     concat ((fun u => drop (split_point (length (shuffled u))) (shuffled u)) <$> users)).
Proof.
  intros users shuffled. unfold train_test. fold users.
  set (filtered := List.filter (fun x => bool_decide (user_id x ∈ users)) df).
  rewrite <- !list_fmap_compose. f_equal; f_equal; apply fmap_ext_in; intros u Hu; cbn;
    unfold shuffled;
    (assert (Hsame : user_data filtered u = user_data df u);
     [unfold user_data, filtered; rewrite filter_filter; apply filter_ext_in;
      intros x _; destruct (decide (user_id x = u)) as [->|Hne];
      [by rewrite !bool_decide_eq_true_2 | by rewrite (bool_decide_eq_false_2 _ Hne), andb_false_r]
     | by rewrite Hsame]).
Qed.

Lemma shuffled_own (df : list Interaction) (v : Z) (x : Interaction) :
  x ∈ sample (user_data df v) -> user_id x = v.
Proof.
  rewrite sample_perm. intros [_ Hx]%filter_elem_of. by apply bool_decide_eq_true in Hx.
Qed.

Lemma split_point_bounds (n : nat) :
  (10 <= n -> 8 <= split_point n /\ split_point n + 2 <= n)%nat.
Proof.
  intros Hn. unfold split_point.
  pose proof (Nat.div_mod_eq (4 * n) 5) as Hdiv.
  pose proof (Nat.mod_upper_bound (4 * n) 5 ltac:(lia)) as Hmod.
  lia.
Qed.

(** The rows of one user in the two tables of the split. *)
Lemma split_user_data (df : list Interaction) (u : Z) :
  u ∈ users_with_enough_data df ->
  let shuffled := sample (user_data df u) in
  user_data (train_test sample df).1 u = take (split_point (length shuffled)) shuffled
  /\ user_data (train_test sample df).2 u = drop (split_point (length shuffled)) shuffled.
Proof.
  intros Hu shuffled. rewrite train_test_unfold. cbn [fst snd].
  pose proof (users_with_enough_data_NoDup df) as Hnd.
  rewrite !user_data_concat; [|exact Hnd | |exact Hnd |].
  - by rewrite !(bool_decide_eq_true_2 _ Hu).
  - intros v x Hx. apply (shuffled_own df). exact (subseteq_drop _ _ _ Hx).
  - intros v x Hx. apply (shuffled_own df). exact (subseteq_take _ _ _ Hx).
Qed.

(** For a user with ten rows or more, the split puts the integer part of
    four fifths of the user's rows into the train table and the others into
    the test table: at least eight train rows and at least two test rows,
    which together are the user's rows. *)
Theorem split_user_rows (df : list Interaction) (u : Z) :
  u ∈ users_with_enough_data df ->
  let train := (train_test sample df).1 in
  let test := (train_test sample df).2 in
  let n := length (user_data df u) in
  length (user_data train u) = split_point n
  /\ (length (user_data test u) = n - split_point n)%nat
  /\ (8 <= length (user_data train u))%nat
  /\ (2 <= length (user_data test u))%nat
  /\ user_data train u ++ user_data test u ≡ₚ user_data df u.
Proof.
  intros Hu train test n. subst train test.
  destruct (split_user_data df u Hu) as [-> ->].
  assert (Hlen : length (sample (user_data df u)) = n) by (by rewrite sample_perm).
  apply users_with_enough_data_elem_of in Hu. fold n in Hu.
  destruct (split_point_bounds n Hu) as [H8 H2].
  rewrite Hlen, length_take, length_drop, Hlen, take_drop.
  split; [lia|]. split; [lia|]. split; [lia|]. split; [lia|]. apply sample_perm.
Qed.



End SplitRows.

Lemma rev_perm (l : list Interaction) : rev l ≡ₚ l.
Proof. symmetry. apply Permutation_rev. Qed.

Lemma split_user_rows_witness :
  (forall l : list Interaction, rev l ≡ₚ l)
  /\ 7%Z ∈ Split.users_with_enough_data RawSample.ten_and_one
  /\ length (Split.user_data (Split.train_test (@rev Interaction) RawSample.ten_and_one).1 7) = 8%nat
  /\ length (Split.user_data (Split.train_test (@rev Interaction) RawSample.ten_and_one).2 7) = 2%nat.
Proof.
  assert (Hu : 7%Z ∈ Split.users_with_enough_data RawSample.ten_and_one).
  { vm_compute. left. }
  split; [exact rev_perm|]. split; [exact Hu|].
  destruct (split_user_rows (@rev Interaction) rev_perm RawSample.ten_and_one 7 Hu)
    as (Htrain & Htest & _).
  split; [exact Htrain | exact Htest].
Defined.



(** ** The standardised columns *)

Section Centered.

Local Open Scope Q_scope.

Variable sqrtQ : Q -> Q.
Hypothesis sqrtQ_nonneg : forall x, 0 <= sqrtQ x.

Lemma map_as_fmap {A B} (f : A -> B) (l : list A) : map f l = f <$> l.
Proof. induction l as [|x l IH]; [reflexivity|]. cbn. by rewrite IH. Qed.

Lemma mapM_option_lookup {A B} (f : A -> option B) (l : list A) (k : list B) (i : nat) :
  mapM f l = Some k -> k !! i = l !! i ≫= f.
Proof.
  intros Hk. apply mapM_Some in Hk. revert i.
  induction Hk as [|x y l k Hxy _ IH]; intros [|i]; cbn; try reflexivity.
  - by rewrite Hxy.
  - apply IH.
Qed.

Lemma mapM_option_length {A B} (f : A -> option B) (l : list A) (k : list B) :
  mapM f l = Some k -> length k = length l.
Proof. intros Hk. apply mapM_Some in Hk. symmetry. by eapply Forall2_length. Qed.

Lemma sum_centered (l : list Q) (m d : Q) :
  Np.sum ((fun x => (x - m) / d) <$> l)
  == (Np.sum l - inject_Z (Z.of_nat (length l)) * m) / d.
Proof.
  unfold Np.sum. induction l as [|x l IH].
  - cbn. unfold Qdiv. ring.
  - cbn [fmap list_fmap foldr length]. rewrite IH, Nat2Z.inj_succ. unfold Z.succ.
    rewrite inject_Z_plus. change (inject_Z 1) with 1. unfold Qdiv. ring.
Qed.

Lemma sum_minus_mean (l : list Q) :
  l <> [] -> Np.sum l - inject_Z (Z.of_nat (length l)) * Np.mean l == 0.
Proof.
  intros Hl. unfold Np.mean.
  assert (Hn : ~ inject_Z (Z.of_nat (length l)) == 0).
  { destruct l; [done|]. unfold Qeq. cbn. lia. }
  field. exact Hn.
Qed.

(** The rows of the standardised matrix, entry by entry. *)
Lemma zscore_entry (X Zm : list (list Q)) (i j : nat) (row : list Q) :
  CB.zscore sqrtQ X = Some Zm ->
  X !! i = Some row -> length row = CB.ncols X -> (j < CB.ncols X)%nat ->
  exists zrow,
    Zm !! i = Some zrow
    /\ length zrow = CB.ncols X
    /\ nth j zrow 0
       = (nth j row 0 - Np.mean (CB.column j X))
         / (CB.std sqrtQ (CB.column j X) + 1e-8).
Proof.
  intros Hz Hrow Hlen Hj. unfold CB.zscore in Hz.
  pose proof (mapM_option_lookup _ _ _ i Hz) as Hi. rewrite Hrow in Hi. cbn in Hi.
  destruct (lookup_lt_is_Some_2 Zm i) as [zrow Hzrow].
  { rewrite (mapM_option_length _ _ _ Hz). eapply lookup_lt_Some; eauto. }
  rewrite Hzrow in Hi. symmetry in Hi. exists zrow. split; [exact Hzrow|].
  assert (Hmu : length (CB.mean_axis0 X) = CB.ncols X).
  { unfold CB.mean_axis0. by rewrite length_map, length_seq. }
  assert (Hden : length (CB.zscore_denominators sqrtQ X) = CB.ncols X).
  { unfold CB.zscore_denominators, CB.std_axis0. by rewrite !length_map, length_seq. }
  split.
  - rewrite (mapM_option_length _ _ _ Hi), !length_zip, Hmu, Hden, Hlen. lia.
  - pose proof (mapM_option_lookup _ _ _ j Hi) as Hjz.
    destruct (lookup_lt_is_Some_2 row j ltac:(lia)) as [x Hx].
    assert (Hm : CB.mean_axis0 X !! j = Some (Np.mean (CB.column j X))).
    { unfold CB.mean_axis0. rewrite map_as_fmap, list_lookup_fmap, lookup_seq_lt by exact Hj.
      reflexivity. }
    assert (Hd : CB.zscore_denominators sqrtQ X !! j
                 = Some (CB.std sqrtQ (CB.column j X) + 1e-8)).
    { unfold CB.zscore_denominators, CB.std_axis0.
      rewrite !map_as_fmap, !list_lookup_fmap, lookup_seq_lt by exact Hj. reflexivity. }
    assert (Hzip : zip (zip row (CB.mean_axis0 X)) (CB.zscore_denominators sqrtQ X) !! j
                   = Some (x, Np.mean (CB.column j X),
                           CB.std sqrtQ (CB.column j X) + 1e-8)).
    { apply lookup_zip_with_Some. eexists _, _. split; [reflexivity|]. split; [|exact Hd].
      apply lookup_zip_with_Some. eexists _, _. by split. }
    rewrite Hzip in Hjz. cbn in Hjz.
    pose proof (zscore_denominators_positive sqrtQ sqrtQ_nonneg X) as Hpos.
    rewrite Forall_forall in Hpos.
    rewrite (true_divide_positive _ _ (Hpos _ (list_elem_of_lookup_2 _ _ _ Hd))) in Hjz.
    rewrite (nth_lookup_Some _ _ _ _ Hjz), (nth_lookup_Some _ _ _ _ Hx). reflexivity.
Qed.

Lemma zscore_column (X Zm : list (list Q)) (j : nat) :
  CB.zscore sqrtQ X = Some Zm ->
  Forall (fun row => length row = CB.ncols X) X -> (j < CB.ncols X)%nat ->
  CB.column j Zm
  = (fun x => (x - Np.mean (CB.column j X)) / (CB.std sqrtQ (CB.column j X) + 1e-8))
      <$> CB.column j X.
Proof.
  intros Hz Hrect Hj.
  assert (Hcol : forall M, CB.column j M = (fun row : list Q => nth j row 0) <$> M).
  { intros M. unfold CB.column. apply map_as_fmap. }
  set (m := Np.mean (CB.column j X)). set (d := CB.std sqrtQ (CB.column j X) + 1e-8).
  rewrite !Hcol. apply list_eq. intros i. rewrite !list_lookup_fmap.
  destruct (X !! i) as [row|] eqn:Hrow.
  - destruct (zscore_entry X Zm i j row Hz Hrow) as (zrow & -> & _ & Hnth);
      [exact (proj1 (Forall_lookup _ _) Hrect i row Hrow) | exact Hj |].
    exact (f_equal Some Hnth).
  - rewrite (proj2 (lookup_ge_None Zm i)); [reflexivity|].
    unfold CB.zscore in Hz. rewrite (mapM_option_length _ _ _ Hz).
    by apply lookup_ge_None.
Qed.

(** [fit] standardises the six numerical columns of a non-empty recipe
    table without error; the result has one row of six numbers per recipe,
    and the entries of each column add up to 0: every standardised column
    has the mean 0. *)
Theorem standardised_columns_are_centered (recipes_df : list Recipe) (j : nat) :
  recipes_df <> [] -> (j < 6)%nat ->
  exists numerical,
    CB.zscore sqrtQ (CB.numerical_features recipes_df) = Some numerical
    /\ length numerical = length recipes_df
    /\ Forall (fun row => length row = 6%nat) numerical
    /\ Np.sum (CB.column j numerical) == 0.
Proof.
  intros Hne Hj. set (X := CB.numerical_features recipes_df).
  destruct (zscore_total sqrtQ sqrtQ_nonneg X) as [numerical Hz].
  assert (Hcols : CB.ncols X = 6%nat).
  { unfold X. destruct recipes_df; [done | reflexivity]. }
  assert (Hlen : length X = length recipes_df).
  { unfold X, CB.numerical_features. apply length_map. }
  assert (Hrect : Forall (fun row => length row = CB.ncols X) X).
  { rewrite Hcols. unfold X, CB.numerical_features. rewrite map_as_fmap.
    apply Forall_fmap, Forall_forall. by intros r _. }
  exists numerical. split; [exact Hz|]. split; [|split].
  - unfold CB.zscore in Hz. by rewrite (mapM_option_length _ _ _ Hz).
  - apply Forall_lookup. intros i zrow Hzrow.
    assert (Hi : (i < length X)%nat).
    { unfold CB.zscore in Hz. rewrite <- (mapM_option_length _ _ _ Hz).
      eapply lookup_lt_Some; eauto. }
    destruct (lookup_lt_is_Some_2 X i Hi) as [row Hrow].
    destruct (zscore_entry X numerical i 0 row Hz Hrow) as (zrow' & Hz' & Hlz & _);
      [exact (proj1 (Forall_lookup _ _) Hrect i row Hrow) | lia |].
    rewrite Hzrow in Hz'. injection Hz' as <-. by rewrite Hlz.
  - rewrite (zscore_column X numerical j Hz Hrect) by lia.
    rewrite sum_centered.
    assert (Hcol : CB.column j X <> []).
    { unfold CB.column. destruct X; [|done]. destruct recipes_df; done. }
    rewrite (sum_minus_mean _ Hcol). unfold Qdiv. ring.
Qed.

End Centered.

Lemma standardised_columns_are_centered_witness :
  (forall x, 0 <= Np.sqrt_floor x)%Q
  /\ Sample.recipes <> [] /\ (3 < 6)%nat
  /\ exists numerical,
       CB.zscore Np.sqrt_floor (CB.numerical_features Sample.recipes) = Some numerical
       /\ (Np.sum (CB.column 3 numerical) == 0)%Q.
Proof.
  split; [exact sqrt_floor_nonneg|]. split; [discriminate|]. split; [lia|].
  destruct (standardised_columns_are_centered Np.sqrt_floor sqrt_floor_nonneg
              Sample.recipes 3 ltac:(discriminate) ltac:(lia))
    as (numerical & Hz & _ & _ & Hsum).
  exists numerical. by split.
Defined.
